(** * Multi-agent demo: deal scoring, the prioritisation pipeline and the router

    A shallow embedding of these parts of the repository:

    - [DatabricksAgent]: the mock scoring rule of
      [agents/databricks_agent.py] ([_mock_score_opportunity]);
    - [OrchestratorAgent]: the five-stage workflow of
      [agents/deal_orchestrator_agent.py] with its retry loops, run against
      an explicit model of the HTTP collaborators, on scored rows that have
      the four keys the workflow subscripts;
    - [ScoredRows]: the same workflow on scored rows as dictionaries, in
      which a key may be missing;
    - [Coordinator] and [Api]: the routing rule of [agents/coordinator.py]
      and the dispatcher [process_with_agents] of [api.py];
    - [Specialists] and [Server]: the four specialised handlers, and
      [process_query] of [api.py] with its session store and responses;
    - [Services]: the mock services of [agents/salesforce_agent.py] and
      [agents/snowflake_agent.py], as a server the workflow can run against;
    - [OrchestratorHandler]: the workflow wrapped as a handler.

    Python floats are read as exact rationals ([Q]). A property that
    compares a computed probability with a threshold is stated for every
    probability, or with a margin wide of any rounding. *)

From Stdlib Require Import ZArith QArith Qround Lqa Lia Bool List String Ascii.
From Stdlib Require Import DecimalString DecimalNat.
Import ListNotations.

Open Scope string_scope.

(** ** Python helpers shared by the modules *)

(** [a < b] on floats, as a boolean. *)
Definition Qltb (a b : Q) : bool := negb (Qle_bool b a).

(** Python's [min(a, b)] and [max(a, b)]: the first argument is kept unless
    the second is strictly smaller (resp. larger). *)
Definition py_min (a b : Q) : Q := if Qltb b a then b else a.
Definition py_max (a b : Q) : Q := if Qltb a b then b else a.

(** [needle in haystack] for strings. *)
Fixpoint contains (needle haystack : string) : bool :=
  if String.prefix needle haystack then true
  else match haystack with
       | EmptyString => false
       | String _ rest => contains needle rest
       end.

(** [str.lower()] on the ASCII range. *)
Definition lower_ascii (c : ascii) : ascii :=
  let n := nat_of_ascii c in
  if (65 <=? n)%nat && (n <=? 90)%nat then ascii_of_nat (n + 32) else c.

Fixpoint lower (s : string) : string :=
  match s with
  | EmptyString => EmptyString
  | String c rest => String (lower_ascii c) (lower rest)
  end.

(** [str(n)] for an integer. *)
Definition str_of_Z (n : Z) : string := NilZero.string_of_int (Z.to_int n).

(** An opportunity row is a JSON object read with [dict.get]; a field that
    may be absent is an [option]. *)
Record Opportunity := mkOpportunity {
  id : option string;
  amount : option Q;
  industry : option string;
  existing_customer : option bool;
  days_in_current_stage : option Z
}.

(** ** agents/databricks_agent.py *)

Module DatabricksAgent.

Open Scope Q_scope.

(** The opportunity copied, with the two fields scoring adds. *)
Record ScoredOpportunity := mkScored {
  source : Opportunity;
  winProbability : Q;
  nextBestProduct : string
}.

(** [float(opportunity.get("amount", 50000))] *)
Definition amount_of (opportunity : Opportunity) : Q :=
  match amount opportunity with Some a => a | None => 50000 end.

(** [opportunity.get("industry", "Technology")] *)
Definition industry_of (opportunity : Opportunity) : string :=
  match industry opportunity with Some i => i | None => "Technology" end.

Definition base_prob : Q := 0.5.

(** [max(0, min(0.3, 1 - (amount / 1000000)))] *)
Definition amount_factor (amount : Q) : Q :=
  py_max 0 (py_min 0.3 (1 - amount / 1000000)).

(** The [industry_bonus] table, read with [.get(industry, 0)]. *)
Definition industry_bonus (industry : string) : Q :=
  if String.eqb industry "Technology" then 0.2
  else if String.eqb industry "Healthcare" then 0.15
  else if String.eqb industry "Finance" then 0.1
  else if String.eqb industry "Retail" then 0.05
  else 0.

(** [win_prob] after the clamp; [noise] is the value drawn by
    [random.uniform(-0.1, 0.1)]. *)
Definition win_prob (opportunity : Opportunity) (noise : Q) : Q :=
  let amount := amount_of opportunity in
  let industry := industry_of opportunity in
  let win_prob := base_prob + amount_factor amount + industry_bonus industry + noise in
  py_max 0.1 (py_min 0.9 win_prob).

Definition products (industry : string) : list string :=
  if String.eqb industry "Technology" then
    ["Cloud Security"; "API Manager"; "Data Warehouse"]
  else if String.eqb industry "Healthcare" then
    ["Patient Portal"; "Analytics Platform"; "Compliance Suite"]
  else if String.eqb industry "Finance" then
    ["Trading Platform"; "Risk Assessment"; "Fraud Detection"]
  else
    ["CRM Enterprise"; "Analytics Suite"; "Support Package"].

(** The index chosen by the [if win_prob > 0.7 ... elif win_prob > 0.4]
    cascade. *)
Definition tier (win_prob : Q) : nat :=
  if Qltb 0.7 win_prob then 0%nat
  else if Qltb 0.4 win_prob then 1%nat
  else 2%nat.

Definition next_product (industry : string) (win_prob : Q) : string :=
  nth (tier win_prob) (products industry) "".

(** [round(x, 2)]: nearest multiple of 0.01, ties to the even one. *)
Definition round2 (x : Q) : Q :=
  let scaled := x * 100 in
  let n := Qfloor scaled in
  let frac := scaled - inject_Z n in
  let m := if Qltb frac 0.5 then n
           else if Qltb 0.5 frac then (n + 1)%Z
           else if Z.even n then n else (n + 1)%Z in
  inject_Z m / 100.

(** The text stored in [self.last_response] is for display only and is not
    part of the returned value. *)
Definition _mock_score_opportunity (opportunity : Opportunity) (noise : Q)
  : ScoredOpportunity :=
  let industry := industry_of opportunity in
  let win_prob := win_prob opportunity noise in
  let next_product := next_product industry win_prob in
  {| source := opportunity;
     winProbability := round2 win_prob;
     nextBestProduct := next_product |}.

(** [_mock_score_opportunities]: one draw of the random term per row. *)
Fixpoint _mock_score_opportunities (opportunities : list Opportunity)
  (noise : nat -> Q) : list ScoredOpportunity :=
  match opportunities with
  | [] => []
  | opp :: rest =>
      _mock_score_opportunity opp (noise 0%nat)
        :: _mock_score_opportunities rest (fun i => noise (S i))
  end.

End DatabricksAgent.

(** ** agents/deal_orchestrator_agent.py *)

Module OrchestratorAgent.

Open Scope Q_scope.
Open Scope list_scope.

(** *** The HTTP collaborators *)

(** A scored row as the workflow reads it: [opp['id']], [opp['amount']],
    [opp['winProbability']] and [opp['nextBestProduct']]. The record is a
    row that has the four keys; [ScoredRows] reads the workflow on rows
    that lack one. *)
Record ScoredOpportunity := mkScored {
  id : string;
  amount : Q;
  winProbability : Q;
  nextBestProduct : string
}.

(** The five requests the workflow sends. *)
Inductive Request :=
| SnowflakeQuery (sql : string)
    (* POST /snowflake/query *)
| DatabricksScore (model : string) (data : list Opportunity)
    (* POST /databricks/score *)
| SalesforceUpdate (opp_id : string) (Win_Probability__c : Q)
    (Next_Best_Product__c : string)
    (* PATCH /salesforce/opportunity/{id} *)
| SalesforceTask (WhatId Subject ActivityDate : string)
    (* POST /salesforce/task *)
| SnowflakeInsert (table runDate : string) (highPriorityCount : Z)
    (totalPipelineValue : Q).
    (* POST /snowflake/insert *)

(** The JSON documents the services answer with. *)
Inductive Json :=
| Rows (rows : list Opportunity)             (* {"rows": [...]} *)
| Scored (scored : list ScoredOpportunity)   (* {"scored": [...]} *)
| UpdateResult (opp_id : string) (updated : bool)
| TaskResult (task_id : string) (created : bool)
| InsertResult (status : string).

(** What [session.post] / [session.patch] gives back: a response with its
    status and body ([None] when [response.json()] cannot decode it), or an
    exception raised by the client itself. *)
Inductive Reply :=
| Response (status : Z) (json : option Json)
| ClientError (message : string).

(** What a run does to the outside world, in order. *)
Inductive Event :=
| Call (request : Request)
| Sleep (seconds : Q).

Definition Trace := list Event.

(** The session: how the services answer a request given everything that
    happened before it, and the text of the two exceptions the client
    library raises on the workflow's behalf. *)
Record Session := mkSession {
  reply : Trace -> Request -> Reply;
  status_error : Z -> string;   (* str() of what raise_for_status raises *)
  body_error : string           (* str() of a decoding or missing-key error *)
}.

(** [self]: the agent with its [base_url] and its [retry_config]. *)
Record Self := mkSelf {
  base_url : string;
  max_retries : nat;
  backoff_factor : Q
}.

(** [OrchestratorAgent(base_url)] *)
Definition __init__ (base_url : string) : Self :=
  {| base_url := base_url; max_retries := 2; backoff_factor := 1.5 |}.

(** The address a request goes to. *)
Definition url (self : Self) (request : Request) : string :=
  match request with
  | SnowflakeQuery _ => base_url self ++ "/snowflake/query"
  | DatabricksScore _ _ => base_url self ++ "/databricks/score"
  | SalesforceUpdate opp_id _ _ =>
      base_url self ++ "/salesforce/opportunity/" ++ opp_id
  | SalesforceTask _ _ _ => base_url self ++ "/salesforce/task"
  | SnowflakeInsert _ _ _ _ => base_url self ++ "/snowflake/insert"
  end%string.

(** *** Computations: a trace threaded through, and exceptions

    Only [str(e)] of an exception is ever observed, so an exception is its
    message. *)
Definition M (A : Type) : Type := Trace -> (string + A) * Trace.

Definition ret {A} (a : A) : M A := fun t => (inr a, t).
Definition raise {A} (e : string) : M A := fun t => (inl e, t).
Definition bind {A B} (m : M A) (k : A -> M B) : M B :=
  fun t => match m t with
           | (inr a, t') => k a t'
           | (inl e, t') => (inl e, t')
           end.

Notation "x <- m ;; k" := (bind m (fun x => k))
  (at level 61, m at next level, right associativity).

(** [asyncio.sleep] *)
Definition sleep (seconds : Q) : M unit :=
  fun t => (inr tt, t ++ [Sleep seconds]).

(** [self.retry_config["backoff_factor"] * (2 ** attempt)] *)
Definition backoff_time (self : Self) (attempt : nat) : Q :=
  backoff_factor self * inject_Z (2 ^ Z.of_nat attempt).

Definition is_5xx (status : Z) : bool := (500 <=? status)%Z && (status <? 600)%Z.
Definition is_4xx (status : Z) : bool := (400 <=? status)%Z && (status <? 500)%Z.

(** The dictionary [update_salesforce] builds. *)
Record SfResults := mkSfResults {
  high_priority_count : Z;
  total_pipeline_value : Q;
  updated_records : list Json;
  created_tasks : list Json;
  error_records : list string
}.

(** [update_salesforce] returns the empty list for no rows, the dictionary
    otherwise. *)
Inductive SfReturn :=
| EmptyList
| Results (results : SfResults).

(** The dictionary [run_workflow] returns: strings and numbers, the lists
    it passes on, and the nested [summary]. *)
Inductive Scalar :=
| VStr (s : string)
| VInt (n : Z)
| VNum (q : Q).

Inductive Value :=
| VScalar (v : Scalar)
| VOpportunities (l : list ScoredOpportunity)
| VJsons (l : list Json)
| VStrs (l : list string)
| VDict (d : list (string * Scalar)).

Definition Dict := list (string * Value).

(** [d.get(key)] *)
Fixpoint get {V} (key : string) (d : list (string * V)) : option V :=
  match d with
  | [] => None
  | (k, v) :: rest => if String.eqb k key then Some v else get key rest
  end.

Definition keys {V} (d : list (string * V)) : list string := map fst d.

Section Workflow.

Variable session : Session.
(** [datetime.now()] formatted, and the same for the next day. *)
Variables today tomorrow : string.

(** One request through the session. *)
Definition send (request : Request) : M Reply :=
  fun t => (inr (reply session t request), t ++ [Call request]).

(** The [except Exception as e] clause of the three retry loops: sleep and
    go round again while attempts remain, raise [final] otherwise. *)
Definition except_clause {A} (self : Self) (attempt : nat) (final : string)
  (next : M A) : M A :=
  if (attempt <? max_retries self)%nat then
    _ <- sleep (backoff_time self attempt) ;; next
  else raise final.

Definition fetch_sql : string :=
  "SELECT * FROM sales.opportunities WHERE close_date > CURRENT_DATE".

(** The [for attempt in range(max_retries + 1)] loop of
    [fetch_opportunities], over the attempts still to make. *)
Fixpoint fetch_loop (self : Self) (attempts : list nat) : M (list Opportunity) :=
  match attempts with
  | [] => raise "Failed to fetch opportunities from Snowflake"
  | attempt :: rest =>
      response <- send (SnowflakeQuery fetch_sql) ;;
      match response with
      | ClientError e => except_clause self attempt e (fetch_loop self rest)
      | Response status json =>
          if (status =? 200)%Z then
            match json with
            | Some (Rows rows) => ret rows
            | _ => except_clause self attempt (body_error session)
                     (fetch_loop self rest)
            end
          else if is_5xx status && (attempt <? max_retries self)%nat then
            _ <- sleep (backoff_time self attempt) ;; fetch_loop self rest
          else if (400 <=? status)%Z then
            (* response.raise_for_status() raises *)
            except_clause self attempt (status_error session status)
              (fetch_loop self rest)
          else fetch_loop self rest
      end
  end.

Definition fetch_opportunities (self : Self) : M (list Opportunity) :=
  fetch_loop self (seq 0 (max_retries self + 1)).

Definition score_failed (status : Z) : string :=
  ("Critical error: Databricks scoring failed with status " ++ str_of_Z status)%string.

Definition score_critical (e : string) : string :=
  ("Critical error in Databricks: " ++ e)%string.

Fixpoint score_loop (self : Self) (opportunities : list Opportunity)
  (attempts : list nat) : M (list ScoredOpportunity) :=
  match attempts with
  | [] => raise "Failed to score opportunities in Databricks"
  | attempt :: rest =>
      response <- send (DatabricksScore "prod_fin_sales_v2" opportunities) ;;
      match response with
      | ClientError e =>
          except_clause self attempt (score_critical e)
            (score_loop self opportunities rest)
      | Response status json =>
          if (status =? 200)%Z then
            match json with
            | Some (Scored scored) => ret scored
            | _ => except_clause self attempt
                     (score_critical (body_error session))
                     (score_loop self opportunities rest)
            end
          else if is_5xx status && (attempt <? max_retries self)%nat then
            _ <- sleep (backoff_time self attempt) ;;
            score_loop self opportunities rest
          else
            (* raise Exception(...) inside the try block *)
            except_clause self attempt (score_critical (score_failed status))
              (score_loop self opportunities rest)
      end
  end.

Definition score_opportunities (self : Self) (opportunities : list Opportunity)
  : M (list ScoredOpportunity) :=
  match opportunities with
  | [] => ret []
  | _ => score_loop self opportunities (seq 0 (max_retries self + 1))
  end.

(** *** update_salesforce

    The locals [high_priority_count], [total_pipeline_value],
    [error_records], [updated_records] and [created_tasks] are one record;
    a block that can raise returns the locals as it left them together with
    the exception, if any. *)

Definition add_updated (result : Json) (locals : SfResults) : SfResults :=
  {| high_priority_count := high_priority_count locals;
     total_pipeline_value := total_pipeline_value locals;
     updated_records := updated_records locals ++ [result];
     created_tasks := created_tasks locals;
     error_records := error_records locals |}.

Definition add_task (task_result : Json) (locals : SfResults) : SfResults :=
  {| high_priority_count := high_priority_count locals;
     total_pipeline_value := total_pipeline_value locals;
     updated_records := updated_records locals;
     created_tasks := created_tasks locals ++ [task_result];
     error_records := error_records locals |}.

Definition add_error (opp_id : string) (locals : SfResults) : SfResults :=
  {| high_priority_count := high_priority_count locals;
     total_pipeline_value := total_pipeline_value locals;
     updated_records := updated_records locals;
     created_tasks := created_tasks locals;
     error_records := error_records locals ++ [opp_id] |}.

(** [if opp["winProbability"] > 0.8: high_priority_count += 1;
    total_pipeline_value += opp["amount"]] *)
Definition track_high_priority (opp : ScoredOpportunity) (locals : SfResults)
  : SfResults :=
  if Qltb 0.8 (winProbability opp) then
    {| high_priority_count := (high_priority_count locals + 1)%Z;
       total_pipeline_value := total_pipeline_value locals + amount opp;
       updated_records := updated_records locals;
       created_tasks := created_tasks locals;
       error_records := error_records locals |}
  else locals.

Definition update_request (opp : ScoredOpportunity) : Request :=
  SalesforceUpdate (id opp) (winProbability opp) (nextBestProduct opp).

Definition task_request (opp : ScoredOpportunity) : Request :=
  SalesforceTask (id opp) "Follow up on high-priority deal" tomorrow.

(** A block's outcome: the locals, and the exception it raised if it did. *)
Definition Block : Type := Trace -> (SfResults * option string) * Trace.

Definition send_in (request : Request) (t : Trace) : Reply * Trace :=
  (reply session t request, t ++ [Call request]).

(** The inline [for retry in range(max_retries)] loop taken on a 5xx; the
    loop running out is [retry_success] staying [False]. *)
Fixpoint retry_update (self : Self) (opp : ScoredOpportunity)
  (retries : list nat) (locals : SfResults) : Block :=
  match retries with
  | [] => fun t => ((add_error (id opp) locals, None), t)
  | retry :: rest => fun t =>
      let t1 := t ++ [Sleep (backoff_time self retry)] in
      let (retry_response, t2) := send_in (update_request opp) t1 in
      match retry_response with
      | ClientError e => ((locals, Some e), t2)
      | Response status json =>
          if (status =? 200)%Z then
            match json with
            | Some retry_result => ((add_updated retry_result locals, None), t2)
            | None => ((locals, Some (body_error session)), t2)
            end
          else retry_update self opp rest locals t2
      end
  end.

(** The [try] block of one loop iteration. *)
Definition try_update (self : Self) (opp : ScoredOpportunity)
  (locals : SfResults) : Block :=
  fun t =>
  let (response, t1) := send_in (update_request opp) t in
  match response with
  | ClientError e => ((locals, Some e), t1)
  | Response status json =>
      if (status =? 200)%Z then
        match json with
        | None => ((locals, Some (body_error session)), t1)
        | Some result =>
            let locals := add_updated result locals in
            (* create the follow-up task *)
            let (task_response, t2) := send_in (task_request opp) t1 in
            match task_response with
            | ClientError e => ((locals, Some e), t2)
            | Response task_status task_json =>
                if (task_status =? 200)%Z then
                  match task_json with
                  | None => ((locals, Some (body_error session)), t2)
                  | Some task_result =>
                      ((track_high_priority opp (add_task task_result locals),
                        None), t2)
                  end
                else ((track_high_priority opp locals, None), t2)
            end
        end
      else if is_4xx status then
        ((add_error (id opp) locals, None), t1)
      else if is_5xx status then
        retry_update self opp (seq 0 (max_retries self)) locals t1
      else ((locals, None), t1)
  end.

(** One iteration of [for opp in scored_opportunities]: the [try] block and
    its [except Exception] clause. *)
Definition update_one (self : Self) (opp : ScoredOpportunity)
  (locals : SfResults) (t : Trace) : SfResults * Trace :=
  match try_update self opp locals t with
  | ((locals', None), t') => (locals', t')
  | ((locals', Some _), t') => (add_error (id opp) locals', t')
  end.

Fixpoint update_loop (self : Self) (scored_opportunities : list ScoredOpportunity)
  (locals : SfResults) (t : Trace) : SfResults * Trace :=
  match scored_opportunities with
  | [] => (locals, t)
  | opp :: rest =>
      let (locals', t') := update_one self opp locals t in
      update_loop self rest locals' t'
  end.

Definition initial_locals : SfResults :=
  {| high_priority_count := 0;
     total_pipeline_value := 0;
     updated_records := [];
     created_tasks := [];
     error_records := [] |}.

Definition update_salesforce (self : Self)
  (scored_opportunities : list ScoredOpportunity) : M SfReturn :=
  match scored_opportunities with
  | [] => ret EmptyList
  | _ => fun t =>
      let (locals, t') := update_loop self scored_opportunities initial_locals t in
      (inr (Results locals), t')
  end.

(** *** write_summary *)

Definition summary_request (summary_data : SfResults) : Request :=
  SnowflakeInsert "analytics.fin_sales_priority_summary" today
    (high_priority_count summary_data) (total_pipeline_value summary_data).

Fixpoint write_loop (self : Self) (summary_data : SfResults)
  (attempts : list nat) : M Json :=
  match attempts with
  | [] => raise "Failed to write summary to Snowflake"
  | attempt :: rest =>
      response <- send (summary_request summary_data) ;;
      match response with
      | ClientError e =>
          except_clause self attempt e (write_loop self summary_data rest)
      | Response status json =>
          if (status =? 200)%Z then
            match json with
            | Some data => ret data
            | None => except_clause self attempt (body_error session)
                        (write_loop self summary_data rest)
            end
          else if is_5xx status && (attempt <? max_retries self)%nat then
            _ <- sleep (backoff_time self attempt) ;;
            write_loop self summary_data rest
          else if (400 <=? status)%Z then
            except_clause self attempt (status_error session status)
              (write_loop self summary_data rest)
          else write_loop self summary_data rest
      end
  end.

Definition write_summary (self : Self) (summary_data : SfResults) : M Json :=
  write_loop self summary_data (seq 0 (max_retries self + 1)).

(** *** run_workflow *)

(** Subscripting the empty list [update_salesforce] returned for no rows
    with a string key. *)
Definition list_index_error : string :=
  "list indices must be integers or slices, not str".

Definition subscript (sf_results : SfReturn) : M SfResults :=
  match sf_results with
  | EmptyList => raise list_index_error
  | Results results => ret results
  end.

Definition success_result (scored_opportunities : list ScoredOpportunity)
  (sf_results : SfResults) : Dict :=
  [ ("status", VScalar (VStr "success"));
    ("opportunities", VOpportunities scored_opportunities);
    ("tasks", VJsons (created_tasks sf_results));
    ("summary", VDict
       [ ("runDate", VStr today);
         ("highPriorityCount", VInt (high_priority_count sf_results));
         ("totalPipelineValue", VNum (total_pipeline_value sf_results)) ]);
    ("errors", VStrs (error_records sf_results)) ].

Definition error_result (message : string) : Dict :=
  [ ("status", VScalar (VStr "error"));
    ("message", VScalar (VStr message)) ].

(** The body of the [try] in [run_workflow]. *)
Definition workflow_steps (self : Self) : M Dict :=
  opportunities <- fetch_opportunities self ;;
  scored_opportunities <- score_opportunities self opportunities ;;
  sf_results <- update_salesforce self scored_opportunities ;;
  sf_results <- subscript sf_results ;;
  summary_result <- write_summary self sf_results ;;
  ret (success_result scored_opportunities sf_results).

Definition run_workflow (self : Self) (t : Trace) : Dict * Trace :=
  match workflow_steps self t with
  | (inr result, t') => (result, t')
  | (inl e, t') => (error_result e, t')
  end.

End Workflow.

(** *** Reading a trace *)

Definition is_query (r : Request) : bool :=
  match r with SnowflakeQuery _ => true | _ => false end.
Definition is_score (r : Request) : bool :=
  match r with DatabricksScore _ _ => true | _ => false end.
Definition is_update (r : Request) : bool :=
  match r with SalesforceUpdate _ _ _ => true | _ => false end.
Definition is_task (r : Request) : bool :=
  match r with SalesforceTask _ _ _ => true | _ => false end.
Definition is_insert (r : Request) : bool :=
  match r with SnowflakeInsert _ _ _ _ => true | _ => false end.

Definition is_call (p : Request -> bool) (e : Event) : bool :=
  match e with Call r => p r | Sleep _ => false end.

(** How many requests satisfying [p] a trace holds. *)
Definition calls (p : Request -> bool) (t : Trace) : nat :=
  List.length (filter (is_call p) t).

(** The durations slept, in order. *)
Fixpoint sleeps (t : Trace) : list Q :=
  match t with
  | [] => []
  | Sleep d :: rest => d :: sleeps rest
  | Call _ :: rest => sleeps rest
  end.

(** A stub server: the answer to a request is read from a script at the
    number of requests the same address has received before. *)
Definition to_url (self : Self) (request : Request) (r : Request) : bool :=
  String.eqb (url self r) (url self request).

Definition stub_session (self : Self) (script : Request -> nat -> Reply)
  : Session :=
  {| reply := fun t request => script request (calls (to_url self request) t);
     status_error := fun status => (str_of_Z status ++ ", message='error'")%string;
     body_error := "invalid response body" |}.

(** *** Stubs that fail and recover *)

(** A retriable outcome: a 5xx response, or an exception of the client. *)
Definition retriable (r : Reply) : bool :=
  match r with
  | Response status _ => is_5xx status
  | ClientError _ => true
  end.

(** The session answers [request] from [script], at the number of requests
    its address has received so far. *)
Definition follows_script (session : Session) (self : Self)
  (request : Request) (script : nat -> Reply) : Prop :=
  forall t, reply session t request = script (calls (to_url self request) t).

(** From trace [t] on, [request] meets a retriable outcome [k] times and is
    then answered [answer]. *)
Definition fails_then_answers (session : Session) (self : Self)
  (request : Request) (t : Trace) (k : nat) (answer : Reply) : Prop :=
  exists script,
    follows_script session self request script /\
    (forall j, (j < k)%nat ->
       retriable (script (calls (to_url self request) t + j)%nat) = true) /\
    script (calls (to_url self request) t + k)%nat = answer.

(** From trace [t] on, [request] meets a retriable outcome [n] times. *)
Definition keeps_failing (session : Session) (self : Self)
  (request : Request) (t : Trace) (n : nat) : Prop :=
  exists script,
    follows_script session self request script /\
    (forall j, (j < n)%nat ->
       retriable (script (calls (to_url self request) t + j)%nat) = true).

(** A wrapped call run from [t] returned [result] after [k] retries: [k + 1]
    requests of its kind, and before retry [i] (counted from 0) a sleep of
    [backoff_factor * 2 ^ i] seconds. *)
Definition retried {A} (self : Self) (p : Request -> bool) (k : nat)
  (t : Trace) (run : (string + A) * Trace) (result : A) : Prop :=
  fst run = inr result /\
  calls p (snd run) = (calls p t + (k + 1))%nat /\
  sleeps (snd run)
  = sleeps t
      ++ map (fun i => backoff_factor self * inject_Z (2 ^ Z.of_nat i))
           (seq 0 k).

(** A wrapped call run from [t] raised after using up its retries:
    [max_retries + 1] requests, and the sleeps of [max_retries] retries. *)
Definition gave_up {A} (self : Self) (p : Request -> bool)
  (t : Trace) (run : (string + A) * Trace) : Prop :=
  (exists e, fst run = inl e) /\
  calls p (snd run) = (calls p t + (max_retries self + 1))%nat /\
  sleeps (snd run)
  = sleeps t
      ++ map (fun i => backoff_factor self * inject_Z (2 ^ Z.of_nat i))
           (seq 0 (max_retries self)).

(** The exception a last failed attempt leaves [fetch_opportunities] and
    [write_summary] with, and the one [score_opportunities] wraps it in. *)
Definition last_error (session : Session) (r : Reply) : string :=
  match r with
  | Response status _ => status_error session status
  | ClientError e => e
  end.

Definition last_score_error (r : Reply) : string :=
  match r with
  | Response status _ => score_critical (score_failed status)
  | ClientError e => score_critical e
  end.

(** *** Reading the update stage *)

(** A reply that raises nothing where it is read: a response whose body
    decodes when its status is 200. *)
Definition answered (r : Reply) : bool :=
  match r with
  | Response status json =>
      negb (status =? 200)%Z || match json with Some _ => true | None => false end
  | ClientError _ => false
  end.

(** The update succeeded at once: 200 and a body. *)
Definition update_ok (r : Reply) : bool :=
  match r with
  | Response status (Some _) => (status =? 200)%Z
  | _ => false
  end.

(** What a successful update appends to [updated_records]. *)
Definition update_result (r : Reply) : list Json :=
  match r with
  | Response status (Some result) => if (status =? 200)%Z then [result] else []
  | _ => []
  end.

(** The update of a service that gives the same reply however often it is
    asked ends in [error_records]: an exception, a 4xx, or a 5xx that every
    retry meets again. *)
Definition update_failed (r : Reply) : bool :=
  match r with
  | ClientError _ => true
  | Response status json =>
      if (status =? 200)%Z then
        match json with Some _ => false | None => true end
      else is_4xx status || is_5xx status
  end.

(** [opp["winProbability"] > 0.8] *)
Definition high_priority (opp : ScoredOpportunity) : bool :=
  Qltb 0.8 (winProbability opp).

Fixpoint sum_amounts (l : list ScoredOpportunity) : Q :=
  match l with
  | [] => 0
  | opp :: rest => amount opp + sum_amounts rest
  end.

(** The opportunities that enter the two aggregates when the update
    service answers opportunity [o] with [upd o]. *)
Definition counted (upd : ScoredOpportunity -> Reply) (o : ScoredOpportunity)
  : bool :=
  update_ok (upd o) && high_priority o.

(** What one iteration of the update loop does to the locals and to the
    trace, for such a service. *)
Definition iteration (tomorrow : string) (upd : ScoredOpportunity -> Reply)
  (o : ScoredOpportunity) (l l' : SfResults) (t t' : Trace) : Prop :=
  updated_records l' = updated_records l ++ update_result (upd o) /\
  error_records l'
  = error_records l ++ (if update_failed (upd o) then [id o] else []) /\
  high_priority_count l'
  = (high_priority_count l
     + if update_ok (upd o) && high_priority o then 1 else 0)%Z /\
  total_pipeline_value l'
  == total_pipeline_value l
     + (if update_ok (upd o) && high_priority o then amount o else 0) /\
  (update_ok (upd o) = true -> In (Call (task_request tomorrow o)) t') /\
  (exists new, t' = t ++ new).

(** The aggregate as the specification words it: [highPriorityCount] is the
    number of scored opportunities with a win probability above 0.8. *)
Definition counts_all_high_priority (result : Dict) : Prop :=
  exists scored summary n,
    get "opportunities" result = Some (VOpportunities scored) /\
    get "summary" result = Some (VDict summary) /\
    get "highPriorityCount" summary = Some (VInt n) /\
    n = Z.of_nat (List.length (filter high_priority scored)).

(** The trace of the inline retries of an update: [k] retries that are not
    answered 200, numbered from [first], and one more. *)
Fixpoint retries_trace (self : Self) (request : Request) (first k : nat)
  : Trace :=
  match k with
  | O => [Sleep (backoff_time self first); Call request]
  | S k' =>
      Sleep (backoff_time self first) :: Call request
        :: retries_trace self request (S first) k'
  end.

(** A response with a status other than 200. *)
Definition not_200 (r : Reply) : bool :=
  match r with
  | Response status _ => negb (status =? 200)%Z
  | ClientError _ => false
  end.

(** The trace of [k] failed attempts, numbered from [first], and one more
    request. *)
Fixpoint attempts_trace (self : Self) (request : Request) (first k : nat)
  : Trace :=
  match k with
  | O => [Call request]
  | S k' =>
      Call request :: Sleep (backoff_time self first)
        :: attempts_trace self request (S first) k'
  end.

End OrchestratorAgent.

(** ** The conversational router: state, handlers *)

Record Message := mkMessage {
  role : string;
  content : string
}.

(** The session context, with the keys the coordinator and the dispatcher
    read or write; the other keys belong to the specialised handlers. *)
Record Context := mkContext {
  user_role : option string;                (* context["role"] *)
  conversation_history : list Message;
  messages : list Message;
  routing_reason : option string;
  next_agent : option string
}.

Record State := mkState {
  input : string;
  context : Context;
  next : string
}.

(** [langgraph.graph.END] *)
Definition END : string := "__end__".

(** What calling a handler gives: the state it returns, or the exception it
    raises. Handlers update the context dictionary in place, so an
    exception comes with the context as the handler left it. *)
Inductive Outcome :=
| Returned (state : State)
| Raised (e : string) (context : Context).

Definition Handler : Type := State -> Outcome.

(** [context["messages"]], named apart from the local [messages] lists. *)
Definition messages_of (context : Context) : list Message := messages context.

(** ** agents/coordinator.py *)

Module Coordinator.

Open Scope list_scope.

Section Coordinator.

(** [client.messages.create(...)] with the coordinator's system prompt: the
    completion text, or the exception it raises. *)
Variable client : list Message -> string + string.

Definition newline : string := String (ascii_of_nat 10) EmptyString.

(** [history[-5:]] *)
Definition last5 {A} (history : list A) : list A :=
  skipn (List.length history - 5) history.

Definition history_message (entry : Message) : Message :=
  {| role := if String.eqb (role entry) "user" then "user" else "assistant";
     content := content entry |}.

Definition current_request (role input_text : string) : Message :=
  {| role := "user";
     content := ("User role: " ++ role ++ newline ++ "User request: "
                 ++ input_text ++ newline ++ newline
                 ++ "Which agent should handle this and why?")%string |}.

(** The [if ... elif ... else] on [content.lower()]. *)
Definition route (content : string) : string :=
  if contains "route_optimizer" (lower content) then "route_optimizer"
  else if contains "fleet_monitor" (lower content) then "fleet_monitor"
  else if contains "data_retriever" (lower content) then "data_retriever"
  else if contains "notification" (lower content) then "notification"
  else "route_optimizer".

(** The [messages] list sent to the model: the last five entries of the
    history, then the current request. *)
Definition messages_for (state : State) : list Message :=
  let input_text := input state in
  let context := context state in
  let role := match user_role context with Some r => r | None => "unknown" end in
  let history := conversation_history context in
  map history_message (last5 history) ++ [current_request role input_text].

Definition coordinator_agent : Handler := fun state =>
  let input_text := input state in
  let context := context state in
  match client (messages_for state) with
  | inl e => Raised e context
  | inr content =>
      let next_agent := route content in
      let context :=
        {| user_role := user_role context;
           conversation_history := conversation_history context;
           messages := messages_of context;
           routing_reason := Some content;
           next_agent := Some next_agent |} in
      Returned {| input := input_text; context := context; next := next_agent |}
  end.

End Coordinator.

End Coordinator.

(** ** api.py *)

Module Api.

Open Scope list_scope.

(** The dictionary [process_with_agents] returns: ["error"] and ["context"],
    or ["result"] and ["context"]. *)
Inductive AgentResult :=
| ErrorResult (error : string) (context : Context)
| FinalResult (result : State) (context : Context).

Section Dispatcher.

(** The five imported handlers; a test replaces any of them by a stub. *)
Variables coordinator_agent route_optimizer_agent fleet_monitor_agent
  data_retriever_agent notification_agent : Handler.

(** The [if next_agent == ... elif ... else] of step 2: the handler chosen
    and its name. *)
Definition specialist (next_agent : string) : string * Handler :=
  if String.eqb next_agent "route_optimizer" then
    ("route_optimizer_agent", route_optimizer_agent)
  else if String.eqb next_agent "fleet_monitor" then
    ("fleet_monitor_agent", fleet_monitor_agent)
  else if String.eqb next_agent "data_retriever" then
    ("data_retriever_agent", data_retriever_agent)
  else if String.eqb next_agent "notification" then
    ("notification_agent", notification_agent)
  else
    (* If no specific agent is identified, use route_optimizer as default *)
    ("route_optimizer_agent", route_optimizer_agent).

(** Step 4, with the names of the handlers invoked so far. *)
Definition step4 (state : State) (invoked : list string)
  : AgentResult * list string :=
  if String.eqb (next state) "notification" then
    match notification_agent state with
    | Raised e context =>
        (ErrorResult e context, invoked ++ ["notification_agent"])
    | Returned notif_result =>
        (FinalResult notif_result (context notif_result),
         invoked ++ ["notification_agent"])
    end
  else (FinalResult state (context state), invoked).

(** Step 3. *)
Definition step3 (state : State) (invoked : list string)
  : AgentResult * list string :=
  if String.eqb (next state) "data_retriever" then
    match data_retriever_agent state with
    | Raised e context =>
        (ErrorResult e context, invoked ++ ["data_retriever_agent"])
    | Returned data_result =>
        step4 data_result (invoked ++ ["data_retriever_agent"])
    end
  else step4 state invoked.

(** [process_with_agents]: the result, and the handlers it invoked, in
    order. *)
Definition process_with_agents (user_input : string) (context : Context)
  : AgentResult * list string :=
  let state := {| input := user_input; context := context; next := "" |} in
  match coordinator_agent state with
  | Raised e context => (ErrorResult e context, ["coordinator_agent"])
  | Returned coordinator_result =>
      let next_agent := next coordinator_result in
      let state := coordinator_result in
      let (name, agent) := specialist next_agent in
      match agent state with
      | Raised e context => (ErrorResult e context, ["coordinator_agent"; name])
      | Returned agent_result =>
          step3 agent_result ["coordinator_agent"; name]
      end
  end.

(** The handler a name in the list of invoked handlers stands for. *)
Definition handler_named (name : string) : Handler :=
  if String.eqb name "coordinator_agent" then coordinator_agent
  else if String.eqb name "route_optimizer_agent" then route_optimizer_agent
  else if String.eqb name "fleet_monitor_agent" then fleet_monitor_agent
  else if String.eqb name "data_retriever_agent" then data_retriever_agent
  else notification_agent.

(** The handlers named in [invoked] called one after the other from
    [state], each on the state the one before it returned; the first
    exception ends the chain. *)
Fixpoint chain (state : State) (invoked : list string) : Outcome :=
  match invoked with
  | [] => Returned state
  | name :: rest =>
      match handler_named name state with
      | Returned state' => chain state' rest
      | Raised e context => Raised e context
      end
  end.

End Dispatcher.

(** The run ends as a hop limit would have it: in a terminal state, or in
    an error. *)
Definition ends_terminal_or_error (run : AgentResult * list string) : Prop :=
  match fst run with
  | ErrorResult _ _ => True
  | FinalResult state _ => next state = END
  end.

(** The shape of the list of invoked handlers: the coordinator, one
    specialist, then at most the data retriever, then at most the
    notifier. *)
Definition chain_shape (invoked : list string) : Prop :=
  invoked = ["coordinator_agent"] \/
  exists name data notif,
    invoked = ["coordinator_agent"; name] ++ data ++ notif /\
    (data = [] \/ data = ["data_retriever_agent"]) /\
    (notif = [] \/ notif = ["notification_agent"]).

(** A handler that returns. *)
Definition returns (handler : Handler) : Prop :=
  forall state, exists state', handler state = Returned state'.

End Api.

(** ** Stub handlers *)

Module Stubs.

(** A handler that hands over to [target], whatever it is given. *)
Definition redirecting (target : string) : Handler :=
  fun state =>
    Returned {| input := input state; context := context state;
                next := target |}.

(** A model that answers [text] to everything. *)
Definition fixed_client (text : string) : list Message -> string + string :=
  fun _ => inr text.

Definition empty_context : Context :=
  {| user_role := Some "admin"; conversation_history := []; messages := [];
     routing_reason := None; next_agent := None |}.

Definition first_state (user_input : string) : State :=
  {| input := user_input; context := empty_context; next := "" |}.

End Stubs.

(** ** Sample data and stub services *)

(** The scenario row: opp_001, 250000, Finance, a new customer, ten days in
    its stage. *)
Definition opp_001 : Opportunity :=
  {| id := Some "opp_001"; amount := Some 250000%Q; industry := Some "Finance";
     existing_customer := Some false; days_in_current_stage := Some 10%Z |}.

(** A row with the three fields scoring reads. *)
Definition row (i : string) (a : Q) (ind : string) : Opportunity :=
  {| id := Some i; amount := Some a; industry := Some ind;
     existing_customer := None; days_in_current_stage := None |}.

Module Samples.

Import OrchestratorAgent.
Open Scope Q_scope.
Open Scope list_scope.

(** The rows of [SAMPLE_OPPORTUNITIES] in [agents/snowflake_agent.py]. *)
Definition SAMPLE_OPPORTUNITIES : list Opportunity :=
  [ row "opp_001" 250000 "Finance";
    row "opp_002" 75000 "Tech";
    row "opp_003" 150000 "Retail";
    row "opp_004" 320000 "Healthcare";
    row "opp_005" 95000 "Manufacturing" ].

(** The same five rows, scored. *)
Definition sample_scored : list ScoredOpportunity :=
  [ mkScored "opp_001" 250000 0.9 "Trading Platform";
    mkScored "opp_002" 75000 0.85 "CRM Enterprise";
    mkScored "opp_003" 150000 0.6 "Analytics Suite";
    mkScored "opp_004" 320000 0.75 "Patient Portal";
    mkScored "opp_005" 95000 0.5 "Analytics Suite" ].

Definition agent : Self := __init__ "http://localhost:8000".

(** Every service answers 200, as the mock services of the repository do. *)
Definition healthy (request : Request) (n : nat) : Reply :=
  match request with
  | SnowflakeQuery _ => Response 200 (Some (Rows SAMPLE_OPPORTUNITIES))
  | DatabricksScore _ _ => Response 200 (Some (Scored sample_scored))
  | SalesforceUpdate i _ _ => Response 200 (Some (UpdateResult i true))
  | SalesforceTask w _ _ =>
      Response 200 (Some (TaskResult ("task_for_" ++ w)%string true))
  | SnowflakeInsert _ _ _ _ => Response 200 (Some (InsertResult "ok"))
  end.

(** The scoring service answers 400 to everything. *)
Definition score_rejected (request : Request) (n : nat) : Reply :=
  match request with
  | DatabricksScore _ _ => Response 400 None
  | _ => healthy request n
  end.

(** The update of one opportunity is answered 404. *)
Definition update_rejected (bad : string) (request : Request) (n : nat) : Reply :=
  match request with
  | SalesforceUpdate i _ _ =>
      if String.eqb i bad then Response 404 None else healthy request n
  | _ => healthy request n
  end.

(** Every address but the task one answers 503 to its first [k] requests. *)
Definition flaky (k : nat) (request : Request) (n : nat) : Reply :=
  match request with
  | SalesforceTask _ _ _ => healthy request n
  | _ => if (n <? k)%nat then Response 503 None else healthy request n
  end.

(** Every address answers 503, always. *)
Definition down (request : Request) (n : nat) : Reply := Response 503 None.

End Samples.

(** ** agents/deal_orchestrator_agent.py: rows that lack a key

    A scored row is a dictionary. [OrchestratorAgent] reads a row that has
    the four keys the workflow subscripts, as the record
    [ScoredOpportunity]. This module reads [score_opportunities],
    [update_salesforce] and [run_workflow] on rows in which any of the four
    may be missing, with the [KeyError] a missing key raises: outside the
    [try] for [id], [winProbability] and [nextBestProduct] (lines 107 to
    111), inside it for [amount] (line 137). A key that is present holds a
    value of the type the scoring gives it. The other services answer as in
    [OrchestratorAgent]. *)

Module ScoredRows.

Import OrchestratorAgent.
Open Scope Q_scope.
Open Scope list_scope.

Record Row := mkRow {
  id : option string;
  amount : option Q;
  winProbability : option Q;
  nextBestProduct : option string
}.

(** The dictionary of a row that has the four keys. *)
Definition complete (opp : ScoredOpportunity) : Row :=
  {| id := Some (OrchestratorAgent.id opp);
     amount := Some (OrchestratorAgent.amount opp);
     winProbability := Some (OrchestratorAgent.winProbability opp);
     nextBestProduct := Some (OrchestratorAgent.nextBestProduct opp) |}.

(** [str(KeyError(key))]: the key between quotes. *)
Definition key_error (key : string) : string := ("'" ++ key ++ "'")%string.

(** What the scoring service answers: a response with its status and the
    rows under ["scored"] ([None] when the body does not decode or has no
    such key), or an exception raised by the client. *)
Inductive ScoreReply :=
| ScoreResponse (status : Z) (scored : option (list Row))
| ScoreClientError (message : string).

(** The values of the dictionary [run_workflow] returns. *)
Inductive Value :=
| VScalar (v : Scalar)
| VOpportunities (l : list Row)
| VJsons (l : list Json)
| VStrs (l : list string)
| VDict (d : list (string * Scalar)).

Definition Dict := list (string * Value).

Section Workflow.

(** The Snowflake and Salesforce services, and the scoring service. *)
Variable session : Session.
Variable scoring : Trace -> Request -> ScoreReply.
Variables today tomorrow : string.

Definition send_score (request : Request) : M ScoreReply :=
  fun t => (inr (scoring t request), t ++ [Call request]).

Fixpoint score_loop (self : Self) (opportunities : list Opportunity)
  (attempts : list nat) : M (list Row) :=
  match attempts with
  | [] => raise "Failed to score opportunities in Databricks"
  | attempt :: rest =>
      response <- send_score (DatabricksScore "prod_fin_sales_v2" opportunities) ;;
      match response with
      | ScoreClientError e =>
          except_clause self attempt (score_critical e)
            (score_loop self opportunities rest)
      | ScoreResponse status scored =>
          if (status =? 200)%Z then
            match scored with
            | Some scored => ret scored
            | None => except_clause self attempt
                        (score_critical (body_error session))
                        (score_loop self opportunities rest)
            end
          else if is_5xx status && (attempt <? max_retries self)%nat then
            _ <- sleep (backoff_time self attempt) ;;
            score_loop self opportunities rest
          else
            except_clause self attempt (score_critical (score_failed status))
              (score_loop self opportunities rest)
      end
  end.

Definition score_opportunities (self : Self) (opportunities : list Opportunity)
  : M (list Row) :=
  match opportunities with
  | [] => ret []
  | _ => score_loop self opportunities (seq 0 (max_retries self + 1))
  end.

(** *** update_salesforce *)

(** Lines 107 to 111, before the [try]: [opp['id']] for the address, then
    [opp["winProbability"]] and [opp["nextBestProduct"]] for the payload. *)
Definition subscripts (opp : Row) : string + (string * Q * string) :=
  match id opp with
  | None => inl (key_error "id")
  | Some opp_id =>
      match winProbability opp with
      | None => inl (key_error "winProbability")
      | Some win_probability =>
          match nextBestProduct opp with
          | None => inl (key_error "nextBestProduct")
          | Some next_best_product =>
              inr (opp_id, win_probability, next_best_product)
          end
      end
  end.

(** [if opp["winProbability"] > 0.8: high_priority_count += 1;
    total_pipeline_value += opp["amount"]]: a missing amount raises once
    the counter is incremented. *)
Definition track_high_priority (win_probability : Q) (opp : Row)
  (locals : SfResults) : SfResults * option string :=
  if Qltb 0.8 win_probability then
    match amount opp with
    | Some a =>
        ({| high_priority_count := (high_priority_count locals + 1)%Z;
            total_pipeline_value := total_pipeline_value locals + a;
            updated_records := updated_records locals;
            created_tasks := created_tasks locals;
            error_records := error_records locals |}, None)
    | None =>
        ({| high_priority_count := (high_priority_count locals + 1)%Z;
            total_pipeline_value := total_pipeline_value locals;
            updated_records := updated_records locals;
            created_tasks := created_tasks locals;
            error_records := error_records locals |},
         Some (key_error "amount"))
    end
  else (locals, None).

(** The inline retries of an update, as in [OrchestratorAgent]. *)
Fixpoint retry_update (self : Self) (opp_id : string) (update : Request)
  (retries : list nat) (locals : SfResults) : Block :=
  match retries with
  | [] => fun t => ((add_error opp_id locals, None), t)
  | retry :: rest => fun t =>
      let t1 := t ++ [Sleep (backoff_time self retry)] in
      let (retry_response, t2) := send_in session update t1 in
      match retry_response with
      | ClientError e => ((locals, Some e), t2)
      | Response status json =>
          if (status =? 200)%Z then
            match json with
            | Some retry_result => ((add_updated retry_result locals, None), t2)
            | None => ((locals, Some (body_error session)), t2)
            end
          else retry_update self opp_id update rest locals t2
      end
  end.

(** The [try] block of one loop iteration, for a row whose three
    subscripts gave [opp_id], [win_probability] and [next_best_product]. *)
Definition try_update (self : Self) (opp : Row) (opp_id : string)
  (win_probability : Q) (next_best_product : string) (locals : SfResults)
  : Block :=
  fun t =>
  let update := SalesforceUpdate opp_id win_probability next_best_product in
  let (response, t1) := send_in session update t in
  match response with
  | ClientError e => ((locals, Some e), t1)
  | Response status json =>
      if (status =? 200)%Z then
        match json with
        | None => ((locals, Some (body_error session)), t1)
        | Some result =>
            let locals := add_updated result locals in
            let task :=
              SalesforceTask opp_id "Follow up on high-priority deal"
                tomorrow in
            let (task_response, t2) := send_in session task t1 in
            match task_response with
            | ClientError e => ((locals, Some e), t2)
            | Response task_status task_json =>
                if (task_status =? 200)%Z then
                  match task_json with
                  | None => ((locals, Some (body_error session)), t2)
                  | Some task_result =>
                      (track_high_priority win_probability opp
                         (add_task task_result locals), t2)
                  end
                else (track_high_priority win_probability opp locals, t2)
            end
        end
      else if is_4xx status then
        ((add_error opp_id locals, None), t1)
      else if is_5xx status then
        retry_update self opp_id update (seq 0 (max_retries self)) locals t1
      else ((locals, None), t1)
  end.

(** One iteration of [for opp in scored_opportunities]: the subscripts,
    whose [KeyError] leaves the function, then the [try] block and its
    [except Exception] clause. *)
Definition update_one (self : Self) (opp : Row) (locals : SfResults)
  : M SfResults :=
  fun t =>
  match subscripts opp with
  | inl e => (inl e, t)
  | inr (opp_id, win_probability, next_best_product) =>
      match try_update self opp opp_id win_probability next_best_product
              locals t with
      | ((locals', None), t') => (inr locals', t')
      | ((locals', Some _), t') => (inr (add_error opp_id locals'), t')
      end
  end.

Fixpoint update_loop (self : Self) (scored_opportunities : list Row)
  (locals : SfResults) : M SfResults :=
  match scored_opportunities with
  | [] => ret locals
  | opp :: rest =>
      locals' <- update_one self opp locals ;;
      update_loop self rest locals'
  end.

Definition update_salesforce (self : Self) (scored_opportunities : list Row)
  : M SfReturn :=
  match scored_opportunities with
  | [] => ret EmptyList
  | _ =>
      locals <- update_loop self scored_opportunities initial_locals ;;
      ret (Results locals)
  end.

(** *** run_workflow *)

Definition success_result (scored_opportunities : list Row)
  (sf_results : SfResults) : Dict :=
  [ ("status", VScalar (VStr "success"));
    ("opportunities", VOpportunities scored_opportunities);
    ("tasks", VJsons (created_tasks sf_results));
    ("summary", VDict
       [ ("runDate", VStr today);
         ("highPriorityCount", VInt (high_priority_count sf_results));
         ("totalPipelineValue", VNum (total_pipeline_value sf_results)) ]);
    ("errors", VStrs (error_records sf_results)) ].

Definition error_result (message : string) : Dict :=
  [ ("status", VScalar (VStr "error"));
    ("message", VScalar (VStr message)) ].

Definition workflow_steps (self : Self) : M Dict :=
  opportunities <- fetch_opportunities session self ;;
  scored_opportunities <- score_opportunities self opportunities ;;
  sf_results <- update_salesforce self scored_opportunities ;;
  sf_results <- subscript sf_results ;;
  summary_result <- write_summary session today self sf_results ;;
  ret (success_result scored_opportunities sf_results).

Definition run_workflow (self : Self) (t : Trace) : Dict * Trace :=
  match workflow_steps self t with
  | (inr result, t') => (result, t')
  | (inl e, t') => (error_result e, t')
  end.

End Workflow.



(** The scoring service of a session of [OrchestratorAgent], whose rows
    have the four keys, and the result of a run against it. *)
Definition complete_scoring (session : Session) (t : Trace)
  (request : Request) : ScoreReply :=
  match reply session t request with
  | Response status (Some (Scored scored)) =>
      ScoreResponse status (Some (map complete scored))
  | Response status _ => ScoreResponse status None
  | ClientError e => ScoreClientError e
  end.

Definition complete_value (v : OrchestratorAgent.Value) : Value :=
  match v with
  | OrchestratorAgent.VScalar v => VScalar v
  | OrchestratorAgent.VOpportunities l => VOpportunities (map complete l)
  | OrchestratorAgent.VJsons l => VJsons l
  | OrchestratorAgent.VStrs l => VStrs l
  | OrchestratorAgent.VDict d => VDict d
  end.

Definition complete_result (result : OrchestratorAgent.Dict) : Dict :=
  map (fun entry => (fst entry, complete_value (snd entry))) result.



(** The first sample row as scored, without its amount. *)
Definition sample_without_amount : Row :=
  {| id := Some "opp_001"; amount := None;
     winProbability := Some 0.9; nextBestProduct := Some "Trading Platform" |}.

End ScoredRows.

(** ** Reading a run: effort, outcomes, scenarios *)

Module Readings.

Import OrchestratorAgent.
Open Scope Q_scope.
Open Scope list_scope.

(** The seconds slept in all. *)
Fixpoint total (durations : list Q) : Q :=
  match durations with
  | [] => 0
  | d :: rest => d + total rest
  end.

(** The backoffs of all [max_retries] retries together:
    [backoff_factor * (2 ** 0 + ... + 2 ** (max_retries - 1))]. *)
Definition max_sleep (self : Self) : Q :=
  backoff_factor self * inject_Z (2 ^ Z.of_nat (max_retries self) - 1).

(** Attempt numbers in increasing order, from [lo] on and below [hi]. *)
Fixpoint ascending (lo hi : nat) (l : list nat) : Prop :=
  match l with
  | [] => True
  | x :: rest => (lo <= x < hi)%nat /\ ascending (S x) hi rest
  end.

(** [2 ** x] summed over the attempts slept after. *)
Fixpoint pow_sum (l : list nat) : Z :=
  match l with
  | [] => 0%Z
  | x :: rest => (2 ^ Z.of_nat x + pow_sum rest)%Z
  end.

(** What a retry wrapper run from [t] to [t'] may cost: between one and
    [max_retries + 1] requests of its own kind [p], nothing else but sleeps,
    at most [max_retries] of them and no longer than [max_sleep] in all. *)
Definition within_budget (self : Self) (p : Request -> bool) (t t' : Trace)
  : Prop :=
  exists new,
    t' = t ++ new /\
    (1 <= calls p new <= max_retries self + 1)%nat /\
    List.length new = (calls p new + List.length (sleeps new))%nat /\
    (List.length (sleeps new) <= max_retries self)%nat /\
    total (sleeps new) <= max_sleep self.

(** A status the update stage has no branch for: not 200, not 4xx, not
    5xx. *)
Definition unhandled (status : Z) : bool :=
  negb (status =? 200)%Z && negb (is_4xx status) && negb (is_5xx status).

(** A reply that raises where it is read: an exception of the client, or a
    200 whose body does not decode. *)
Definition raises (r : Reply) : bool :=
  match r with
  | ClientError _ => true
  | Response status None => (status =? 200)%Z
  | Response _ (Some _) => false
  end.

(** The events of the first [k] inline retries of an update. *)
Definition retry_events (self : Self) (request : Request) (k : nat) : Trace :=
  flat_map (fun retry => [Sleep (backoff_time self retry); Call request])
    (seq 0 k).

(** The ways one iteration of the update loop can end: what it makes of the
    locals and the events it adds. *)
Inductive update_outcome (tomorrow : string) (self : Self)
  (o : ScoredOpportunity) (l : SfResults) : SfResults -> Trace -> Prop :=
| Dropped :
    (* a status with no branch *)
    update_outcome tomorrow self o l l [Call (update_request o)]
| Failed (k : nat) :
    (* an exception, a 4xx, retries used up or cut short by an exception *)
    (k <= max_retries self)%nat ->
    update_outcome tomorrow self o l (add_error (id o) l)
      (Call (update_request o) :: retry_events self (update_request o) k)
| Recovered (k : nat) (retry_result : Json) :
    (* a retry answered 200 *)
    (1 <= k <= max_retries self)%nat ->
    update_outcome tomorrow self o l (add_updated retry_result l)
      (Call (update_request o) :: retry_events self (update_request o) k)
| FollowUpRaised (result : Json) :
    (* updated, then the task request raised *)
    update_outcome tomorrow self o l
      (add_error (id o) (add_updated result l))
      [Call (update_request o); Call (task_request tomorrow o)]
| FollowUpRefused (result : Json) :
    (* updated, the task request answered another status than 200 *)
    update_outcome tomorrow self o l
      (track_high_priority o (add_updated result l))
      [Call (update_request o); Call (task_request tomorrow o)]
| Updated (result task_result : Json) :
    update_outcome tomorrow self o l
      (track_high_priority o (add_task task_result (add_updated result l)))
      [Call (update_request o); Call (task_request tomorrow o)].

(** The elements of [l] a mask keeps. *)
Fixpoint picks {A} (mask : list bool) (l : list A) : list A :=
  match mask, l with
  | keep :: mask', x :: l' =>
      if keep then x :: picks mask' l' else picks mask' l'
  | _, _ => []
  end.

(** What the update loop has made of the locals [l] and added to the
    trace once it is through [opps]: the lists only grow, by at most one
    record an opportunity; the two aggregates are those of one selection of
    high-priority opportunities among [opps]; a task is asked for updated
    records only. *)
Definition loop_invariant (self : Self) (opps : list ScoredOpportunity)
  (l l' : SfResults) (new : Trace) : Prop :=
  exists (u c : list Json) (e : list string) (mask : list bool),
    updated_records l' = updated_records l ++ u /\
    created_tasks l' = created_tasks l ++ c /\
    error_records l' = error_records l ++ e /\
    high_priority_count l'
    = (high_priority_count l + Z.of_nat (List.length (picks mask opps)))%Z /\
    total_pipeline_value l'
    == total_pipeline_value l + sum_amounts (picks mask opps) /\
    List.length mask = List.length opps /\
    forallb high_priority (picks mask opps) = true /\
    (List.length (picks mask opps) <= List.length u <= List.length opps)%nat /\
    (List.length c <= calls is_task new <= List.length u)%nat /\
    incl e (map id opps) /\
    (List.length e <= List.length opps)%nat /\
    (List.length opps <= calls is_update new
     <= List.length opps * (max_retries self + 1))%nat /\
    calls is_query new = 0%nat /\
    calls is_score new = 0%nat /\
    calls is_insert new = 0%nat.

(** A trace whose requests all satisfy [p]. *)
Definition only (p : Request -> bool) (t : Trace) : Prop :=
  forall r, In (Call r) t -> p r = true.

(** The requests of the update stage. *)
Definition is_update_or_task (r : Request) : bool := is_update r || is_task r.

(** Updates are answered 503, always; the other services are healthy. *)
Definition update_down (request : Request) (n : nat) : Reply :=
  match request with
  | SalesforceUpdate _ _ _ => Response 503 None
  | _ => Samples.healthy request n
  end.

(** Every service answers [status], with no body. *)
Definition answering (status : Z) (request : Request) (n : nat) : Reply :=
  Response status None.

(** The query finds no row; the other services are healthy. *)
Definition no_rows (request : Request) (n : nat) : Reply :=
  match request with
  | SnowflakeQuery _ => Response 200 (Some (Rows []))
  | _ => Samples.healthy request n
  end.

(** Creating a follow-up task is answered 200 with a body that does not
    decode; the other services are healthy. *)
Definition task_garbled (request : Request) (n : nat) : Reply :=
  match request with
  | SalesforceTask _ _ _ => Response 200 None
  | _ => Samples.healthy request n
  end.

(** The summary table is down; the other services are healthy. *)
Definition insert_down (request : Request) (n : nat) : Reply :=
  match request with
  | SnowflakeInsert _ _ _ _ => Response 503 None
  | _ => Samples.healthy request n
  end.

(** Updates are answered 302; the other services are healthy. *)
Definition update_redirected (request : Request) (n : nat) : Reply :=
  match request with
  | SalesforceUpdate _ _ _ => Response 302 None
  | _ => Samples.healthy request n
  end.

End Readings.

(** ** agents/route_optimizer.py, fleet_monitor.py, data_retriever.py,
    notification.py

    The four specialised handlers. Each builds a prompt from the state and
    from the session's mock data, which no handler writes, and asks the
    model to complete it: the completion, or the exception
    [client.messages.create] raises, is a function of the state. Of the
    context, the keys of [Context] are followed; ["retrieved_data"] and
    ["notifications"], which the last two handlers write and nothing reads,
    are not. *)

Module Specialists.

Open Scope list_scope.

Section Specialists.

Variables route_optimizer_model fleet_monitor_model data_retriever_model
  notification_model : State -> string + string.

(** [create_fleet_summary(vehicles)] for the vehicles of the session. *)
Variable fleet_summary : string.

(** The [if ... elif ... else] on [input_text.lower()] that
    [route_optimizer_agent] and [fleet_monitor_agent] both end with. *)
Definition next_step (input_text : string) : string :=
  if contains "weather" (lower input_text)
     || contains "traffic" (lower input_text) then "data_retriever"
  else if contains "notify" (lower input_text)
          || contains "alert" (lower input_text)
          || contains "send" (lower input_text) then "notification"
  else END.

Definition assistant (text : string) : Message :=
  {| role := "assistant"; content := text |}.

(** [context["messages"] = context.get("messages", []) + [{"role":
    "assistant", "content": content}]] *)
Definition store_output (context : Context) (text : string) : Context :=
  {| user_role := user_role context;
     conversation_history := conversation_history context;
     messages := messages_of context ++ [assistant text];
     routing_reason := routing_reason context;
     next_agent := next_agent context |}.

Definition route_optimizer_agent : Handler := fun state =>
  let input_text := input state in
  let context := context state in
  match route_optimizer_model state with
  | inl e => Raised e context
  | inr text =>
      let next_agent := next_step input_text in
      let context :=
        if String.eqb next_agent END then store_output context text
        else context in
      Returned {| input := if negb (String.eqb next_agent END) then text
                           else input_text;
                  context := context;
                  next := next_agent |}
  end.

(** The request, with the fleet summary appended when it asks for one. *)
Definition with_fleet_data (input_text : string) : string :=
  if contains "summary" (lower input_text)
     || contains "status" (lower input_text)
     || contains "overview" (lower input_text)
  then (input_text ++ Coordinator.newline ++ Coordinator.newline
        ++ "Here's the current fleet data:" ++ Coordinator.newline
        ++ fleet_summary)%string
  else input_text.

Definition fleet_monitor_agent : Handler := fun state =>
  let input_text := input state in
  let context := context state in
  let input_text := with_fleet_data input_text in
  match fleet_monitor_model state with
  | inl e => Raised e context
  | inr text =>
      let next_agent := next_step input_text in
      let context :=
        if String.eqb next_agent END then store_output context text
        else context in
      Returned {| input := if negb (String.eqb next_agent END) then text
                           else input_text;
                  context := context;
                  next := next_agent |}
  end.

Definition data_retriever_agent : Handler := fun state =>
  let context := context state in
  match data_retriever_model state with
  | inl e => Raised e context
  | inr text =>
      Returned {| input := text; context := store_output context text;
                  next := END |}
  end.

Definition notification_agent : Handler := fun state =>
  let context := context state in
  match notification_model state with
  | inl e => Raised e context
  | inr text =>
      Returned {| input := text; context := store_output context text;
                  next := END |}
  end.

End Specialists.

End Specialists.

(** ** api.py, with the handlers it imports *)

Module Server.

Open Scope list_scope.

(** *** Requests, responses and the session store *)

(** [QueryRequest]; a request without a role carries "admin". *)
Record QueryRequest := mkQueryRequest {
  request_input : string;
  request_role : string;
  request_session_id : option string
}.

(** The ["output"] dictionary of a response, without its token counts, its
    identifier and its constant entries. *)
Record Response := mkResponse {
  output_content : string;
  additional_kwargs_error : option string;   (* additional_kwargs["error"] *)
  finish_reason : string;
  output_type : string;
  agent_used : option string;
  output_error : option string               (* output["error"] *)
}.

(** [sessions], the dictionary of session contexts. *)
Definition Sessions := list (string * Context).

(** [d[key] = value] *)
Fixpoint set_item {V} (key : string) (value : V) (d : list (string * V))
  : list (string * V) :=
  match d with
  | [] => [(key, value)]
  | (k, v) :: rest =>
      if String.eqb k key then (k, value) :: rest
      else (k, v) :: set_item key value rest
  end.

(** [determine_next_agent] *)
Definition determine_next_agent (user_message : string) : option string :=
  let user_message := lower user_message in
  if contains "route" user_message || contains "path" user_message
     || contains "delivery" user_message then Some "route_optimizer"
  else if contains "fleet" user_message || contains "vehicle" user_message
          || contains "driver" user_message then Some "fleet_monitor"
  else if contains "weather" user_message || contains "traffic" user_message
          || contains "condition" user_message then Some "data_retriever"
  else if contains "notify" user_message || contains "alert" user_message
          || contains "send" user_message then Some "notification"
  else None.

(** The truth value of [error]: [None] and the empty string are false. *)
Definition given (error : option string) : bool :=
  match error with
  | None => false
  | Some e => negb (String.eqb e "")
  end.

Definition create_response (input_text text : string) (error : option string)
  (session_id : string) : Response :=
  let agent_used :=
    match determine_next_agent input_text with
    | Some agent => agent
    | None => "coordinator"
    end in
  {| output_content := text;
     additional_kwargs_error := if given error then error else None;
     finish_reason := if given error then "error" else "stop";
     output_type := "ai";
     agent_used := Some agent_used;
     output_error := if given error then error else None |}.

Definition create_error_response (input_text error_message : string)
  (session_id : string) : Response :=
  {| output_content := error_message;
     additional_kwargs_error := Some error_message;
     finish_reason := "error";
     output_type := "error";
     agent_used := None;
     output_error := None |}.

(** The context of a new session; its mock data is not followed. *)
Definition new_context (role : string) : Context :=
  {| user_role := Some role; conversation_history := []; messages := [];
     routing_reason := None; next_agent := None |}.

Definition session_context (session_id role : string) (sessions : Sessions)
  : Context :=
  match OrchestratorAgent.get session_id sessions with
  | Some context => context
  | None => new_context role
  end.

Definition user_message (text : string) : Message :=
  {| role := "user"; content := text |}.

(** [context["conversation_history"].append(entry)] *)
Definition add_history (context : Context) (entry : Message) : Context :=
  {| user_role := user_role context;
     conversation_history := conversation_history context ++ [entry];
     messages := messages context;
     routing_reason := routing_reason context;
     next_agent := next_agent context |}.

(** [context["messages"] = []] *)
Definition clear_messages (context : Context) : Context :=
  {| user_role := user_role context;
     conversation_history := conversation_history context;
     messages := [];
     routing_reason := routing_reason context;
     next_agent := next_agent context |}.

Definition apology : string :=
  "I'm sorry, there was an error processing your request.".

(** A handler that leaves the conversation alone: whatever it returns or
    raises, [messages] and [conversation_history] are as it found them. *)
Definition keeps_conversation (handler : Handler) : Prop :=
  forall state,
    match handler state with
    | Raised _ context' =>
        messages context' = messages (context state) /\
        conversation_history context'
        = conversation_history (context state)
    | Returned state' =>
        messages (context state') = messages (context state) /\
        conversation_history (context state')
        = conversation_history (context state)
    end.

(** A handler that answers: it raises before it writes, or it stores its
    output in [messages] and ends the turn. *)
Definition answers (handler : Handler) : Prop :=
  forall state,
    match handler state with
    | Raised _ context' => context' = context state
    | Returned state' =>
        next state' = END /\
        exists text,
          context state' = Specialists.store_output (context state) text
    end.

(** A handler that answers or hands over to the data retriever or to the
    notifier, the context untouched. *)
Definition answers_or_hands_over (handler : Handler) : Prop :=
  forall state,
    match handler state with
    | Raised _ context' => context' = context state
    | Returned state' =>
        (next state' = END /\
         exists text,
           context state' = Specialists.store_output (context state) text) \/
        ((next state' = "data_retriever" \/ next state' = "notification") /\
         context state' = context state)
    end.

(** What a turn leaves behind: at most three handlers have run; after an
    error the conversation is as it was; otherwise the state is terminal
    and one assistant message has been stored. *)
Definition turn_outcome (context0 : Context)
  (run : Api.AgentResult * list string) : Prop :=
  (List.length (snd run) <= 3)%nat /\
  match fst run with
  | Api.ErrorResult _ context' =>
      messages context' = messages context0 /\
      conversation_history context' = conversation_history context0
  | Api.FinalResult state context' =>
      next state = END /\
      context' = context state /\
      (exists text,
          messages context' = messages context0 ++ [Specialists.assistant text]) /\
      conversation_history context' = conversation_history context0 /\
      (2 <= List.length (snd run))%nat
  end.

Section Server.

(** The model behind each of the five handlers. *)
Variable client : list Message -> string + string.
Variables route_optimizer_model fleet_monitor_model data_retriever_model
  notification_model : State -> string + string.
Variable fleet_summary : string.

(** [process_with_agents] as [api.py] has it, with the five imported
    handlers. *)
Definition process_with_agents (user_input : string) (context : Context)
  : Api.AgentResult * list string :=
  Api.process_with_agents
    (Coordinator.coordinator_agent client)
    (Specialists.route_optimizer_agent route_optimizer_model)
    (Specialists.fleet_monitor_agent fleet_monitor_model fleet_summary)
    (Specialists.data_retriever_agent data_retriever_model)
    (Specialists.notification_agent notification_model)
    user_input context.

(** *** process_query *)

(** The fallback call of [process_query]: the model asked directly, as a
    helpful assistant for the role, with the request alone. *)
Variable fallback : string -> string -> string + string.

(** The identifier made up for a request that brings none, from the clock
    and the hash of the input. *)
Variable new_session_id : string.

(** [process_query]: the response, and the session store it leaves. The
    context of the session is one dictionary that the handlers update in
    place, so the context an error comes with is the session's. The outer
    [except] clause guards steps that raise nothing here; loading the mock
    data of a new session is not followed. *)
Definition process_query (request : QueryRequest) (sessions : Sessions)
  : Response * Sessions :=
  let session_id :=
    match request_session_id request with
    | Some s => if String.eqb s "" then new_session_id else s
    | None => new_session_id
    end in
  let sessions :=
    match OrchestratorAgent.get session_id sessions with
    | None => set_item session_id (new_context (request_role request)) sessions
    | Some _ => sessions
    end in
  let context := session_context session_id (request_role request) sessions in
  (* context["conversation_history"].append(...), on the stored dictionary *)
  let context := add_history context (user_message (request_input request)) in
  let sessions := set_item session_id context sessions in
  match fst (process_with_agents (request_input request) context) with
  | Api.ErrorResult error context =>
      match fallback (request_role request) (request_input request) with
      | inr response_content =>
          let context :=
            add_history context (Specialists.assistant response_content) in
          (create_response (request_input request) response_content
             (Some error) session_id,
           set_item session_id context sessions)
      | inl inner_e =>
          (create_error_response (request_input request)
             ("Error processing request: " ++ error
              ++ ". Fallback also failed: " ++ inner_e)%string session_id,
           set_item session_id context sessions)
      end
  | Api.FinalResult _ final_context =>
      let response_content :=
        match messages final_context with
        | [] => apology
        | m :: rest => content (last rest m)
        end in
      let final_context :=
        add_history (clear_messages final_context)
          (Specialists.assistant response_content) in
      (create_response (request_input request) response_content None
         session_id,
       set_item session_id final_context sessions)
  end.

End Server.

(** Every stored session has handed out its messages. *)
Definition tidy (sessions : Sessions) : Prop :=
  forall session_id context,
    OrchestratorAgent.get session_id sessions = Some context ->
    messages context = [].

(** The session a request belongs to. *)
Definition session_of (new_session_id : string) (request : QueryRequest)
  : string :=
  match request_session_id request with
  | Some s => if String.eqb s "" then new_session_id else s
  | None => new_session_id
  end.

(** The conversation so far of a session, empty for one not yet stored. *)
Definition history_of (session_id : string) (sessions : Sessions)
  : list Message :=
  match OrchestratorAgent.get session_id sessions with
  | Some context => conversation_history context
  | None => []
  end.

(** The session store once the session of a request is opened, and the
    context the request is processed in: that of its session, with the
    user's entry added to the history. *)
Definition opened (new_session_id : string) (request : QueryRequest)
  (sessions : Sessions) : Sessions :=
  let session_id := session_of new_session_id request in
  match OrchestratorAgent.get session_id sessions with
  | None => set_item session_id (new_context (request_role request)) sessions
  | Some _ => sessions
  end.

Definition entered (new_session_id : string) (request : QueryRequest)
  (sessions : Sessions) : Context :=
  add_history
    (session_context (session_of new_session_id request)
       (request_role request) (opened new_session_id request sessions))
    (user_message (request_input request)).

End Server.

(** ** agents/salesforce_agent.py and agents/snowflake_agent.py

    The two mock services: their module-level storage as one record, each
    route as a function from the storage to the storage and the JSON it
    returns. The [time.sleep] calls of the routes delay the answer and
    change nothing else. *)

Module Services.

Import OrchestratorAgent.
Open Scope list_scope.

(** What [OPPORTUNITIES[id]] holds once updated. *)
Record OpportunityFields := mkOpportunityFields {
  Win_Probability__c : Q;
  Next_Best_Product__c : string;
  updated_at : string
}.

(** What [TASKS[task_id]] holds. *)
Record TaskFields := mkTaskFields {
  WhatId : string;
  Subject : string;
  ActivityDate : string;
  created_at : string
}.

(** The row the workflow inserts. *)
Record SummaryRow := mkSummaryRow {
  runDate : string;
  highPriorityCount : Z;
  totalPipelineValue : Q
}.

(** [OPPORTUNITIES], [TASKS] and [SUMMARY_ROWS]. *)
Record Storage := mkStorage {
  OPPORTUNITIES : list (string * OpportunityFields);
  TASKS : list (string * TaskFields);
  SUMMARY_ROWS : list SummaryRow
}.

Definition empty : Storage :=
  {| OPPORTUNITIES := []; TASKS := []; SUMMARY_ROWS := [] |}.

(** [f"{n:03d}"]: the decimal digits of [n], with zeros in front up to
    three characters. *)
Fixpoint zeros (n : nat) : string :=
  match n with
  | O => EmptyString
  | S n' => String "0" (zeros n')
  end.

Definition format_03d (n : nat) : string :=
  let digits := NilZero.string_of_uint (Nat.to_uint n) in
  (zeros (3 - String.length digits) ++ digits)%string.

(** [PATCH /salesforce/opportunity/{id}]; [now] is
    [datetime.now().isoformat()]. As the three keys are the only ones ever
    written, updating the dictionary of an opportunity replaces it. *)
Definition update_opportunity (now : string) (id : string)
  (win_probability : Q) (next_best_product : string) (storage : Storage)
  : Storage * Json :=
  ({| OPPORTUNITIES :=
        Server.set_item id
          {| Win_Probability__c := win_probability;
             Next_Best_Product__c := next_best_product;
             updated_at := now |}
          (OPPORTUNITIES storage);
      TASKS := TASKS storage;
      SUMMARY_ROWS := SUMMARY_ROWS storage |},
   UpdateResult id true).

(** [POST /salesforce/task] *)
Definition create_task (now : string) (what_id subject activity_date : string)
  (storage : Storage) : Storage * Json :=
  let task_id :=
    ("task_" ++ format_03d (List.length (TASKS storage) + 1))%string in
  ({| OPPORTUNITIES := OPPORTUNITIES storage;
      TASKS :=
        Server.set_item task_id
          {| WhatId := what_id; Subject := subject;
             ActivityDate := activity_date; created_at := now |}
          (TASKS storage);
      SUMMARY_ROWS := SUMMARY_ROWS storage |},
   TaskResult task_id true).

(** [POST /snowflake/query] *)
Definition query (sql : string) : Json :=
  if contains "opportunities" (lower sql)
  then Rows Samples.SAMPLE_OPPORTUNITIES
  else Rows [].

(** [POST /snowflake/insert]: the answer, or the status of the
    [HTTPException] raised. *)
Definition insert (table : string) (row : SummaryRow) (storage : Storage)
  : Storage * (Z + Json) :=
  if String.eqb table "analytics.fin_sales_priority_summary" then
    ({| OPPORTUNITIES := OPPORTUNITIES storage;
        TASKS := TASKS storage;
        SUMMARY_ROWS := SUMMARY_ROWS storage ++ [row] |},
     inr (InsertResult "ok"))
  else (storage, inl 400%Z).

(** The path parameter [{id}] of [/salesforce/opportunity/{id}] matches one
    segment of the address: at least one character, and no slash. *)
Definition routable (id : string) : bool :=
  negb (String.eqb id "") && negb (contains "/" id).

(** An identifier that an address carries as it is written: letters,
    digits, [_] and [-] only, and at least one of them. *)
Definition plain_char (c : ascii) : bool :=
  let n := nat_of_ascii c in
  ((48 <=? n)%nat && (n <=? 57)%nat) || ((65 <=? n)%nat && (n <=? 90)%nat)
  || ((97 <=? n)%nat && (n <=? 122)%nat) || (n =? 95)%nat || (n =? 45)%nat.

Fixpoint plain_chars (s : string) : bool :=
  match s with
  | EmptyString => true
  | String c rest => plain_char c && plain_chars rest
  end.

Definition plain (id : string) : bool :=
  negb (String.eqb id "") && plain_chars id.

(** *** The services behind one address

    A server that mounts the two routers, and answers a scoring request as
    [scoring] says: the route for it is not part of the two files. An
    answer of a route is a 200 with its JSON; an [HTTPException], or an
    address no route matches (404), is a response with its status, whose
    body the workflow does not read. *)

Section Mounted.

Variable scoring : list Opportunity -> Reply.
(** The clock of the server, read when a request arrives. *)
Variable clock : Trace -> string.

Definition serve (now : string) (request : Request) (storage : Storage)
  : Storage * Reply :=
  match request with
  | SnowflakeQuery sql => (storage, Response 200 (Some (query sql)))
  | DatabricksScore _ data => (storage, scoring data)
  | SalesforceUpdate id win_probability next_best_product =>
      if routable id then
        let (storage', json) :=
          update_opportunity now id win_probability next_best_product storage in
        (storage', Response 200 (Some json))
      else (storage, Response 404 None)
  | SalesforceTask what_id subject activity_date =>
      let (storage', json) :=
        create_task now what_id subject activity_date storage in
      (storage', Response 200 (Some json))
  | SnowflakeInsert table run_date high_priority_count total_pipeline_value =>
      match insert table
              {| runDate := run_date;
                 highPriorityCount := high_priority_count;
                 totalPipelineValue := total_pipeline_value |} storage with
      | (storage', inr json) => (storage', Response 200 (Some json))
      | (storage', inl status) => (storage', Response status None)
      end
  end.

(** The storage after the requests of a trace, served in order from
    [storage]; [seen] is the trace before them. *)
Fixpoint storage_after (seen t : Trace) (storage : Storage) : Storage :=
  match t with
  | [] => storage
  | Call request :: rest =>
      storage_after (seen ++ [Call request]) rest
        (fst (serve (clock seen) request storage))
  | Sleep d :: rest => storage_after (seen ++ [Sleep d]) rest storage
  end.

(** The session of a client of the server, started on [storage]. *)
Definition mounted (storage : Storage) : Session :=
  {| reply := fun t request =>
       snd (serve (clock t) request (storage_after [] t storage));
     status_error := fun status => (str_of_Z status ++ ", message='error'")%string;
     body_error := "invalid response body" |}.

End Mounted.

(** The identifiers [create_task] gives to tasks number [first + 1] to
    [first + n]. *)
Definition task_ids (first n : nat) : list string :=
  map (fun i => ("task_" ++ format_03d i)%string) (seq (first + 1) n).

(** The digits of a [format_03d] read back. *)
Definition read_number (s : string) : option nat :=
  option_map Nat.of_uint (NilZero.uint_of_string s).

(** The tasks are numbered as they were created. *)
Definition well_numbered (storage : Storage) : Prop :=
  keys (TASKS storage) = task_ids 0 (List.length (TASKS storage)).

(** What a run leaves in the locals of the update stage when every request
    is served: no error, one updated record and one task an opportunity,
    the tasks numbered on from [first], both aggregates over all the
    opportunities above 0.8. *)
Definition all_served (scored : list ScoredOpportunity) (first : nat)
  (l l' : SfResults) : Prop :=
  error_records l' = error_records l /\
  updated_records l'
  = updated_records l ++ map (fun o => UpdateResult (id o) true) scored /\
  created_tasks l'
  = created_tasks l
      ++ map (fun k => TaskResult k true)
           (task_ids first (List.length scored)) /\
  high_priority_count l'
  = (high_priority_count l
     + Z.of_nat (List.length (filter high_priority scored)))%Z /\
  total_pipeline_value l'
  == total_pipeline_value l + sum_amounts (filter high_priority scored).

(** The requests of the update stage when every request is served. *)
Definition update_requests (tomorrow : string)
  (scored : list ScoredOpportunity) : Trace :=
  flat_map (fun o => [Call (update_request o);
                      Call (task_request tomorrow o)]) scored.

(** The last opportunity of a list with a given identifier. *)
Fixpoint last_with_id (key : string) (scored : list ScoredOpportunity)
  : option ScoredOpportunity :=
  match scored with
  | [] => None
  | o :: rest =>
      match last_with_id key rest with
      | Some o' => Some o'
      | None => if String.eqb (id o) key then Some o else None
      end
  end.

(** The fields stored for an identifier are those of the last opportunity
    that had it. *)
Definition stored_last (scored : list ScoredOpportunity)
  (before after : Storage) : Prop :=
  forall key,
    match last_with_id key scored with
    | Some o =>
        exists now,
          get key (OPPORTUNITIES after)
          = Some {| Win_Probability__c := winProbability o;
                    Next_Best_Product__c := nextBestProduct o;
                    updated_at := now |}
    | None => get key (OPPORTUNITIES after) = get key (OPPORTUNITIES before)
    end.

End Services.

(** ** agents/deal_orchestrator_agent.py: the handler

    [orchestrator_agent] and [deal_orchestrator_agent], which wrap the
    workflow as a handler of the router. *)

Module OrchestratorHandler.

Import OrchestratorAgent.
Open Scope list_scope.

(** The dictionary the handler returns: [input], [next], [message], and of
    [context] the one key the handler writes. *)
Record HandlerResult := mkHandlerResult {
  result_input : string;
  deal_workflow_result : option Dict;   (* context["deal_workflow_result"] *)
  result_next : string;
  message : string
}.

Definition trigger : string := "run q2 prioritization".

Definition completed : string :=
  "Q2 deal prioritization workflow completed successfully.".

Definition unrecognized : string :=
  "I didn't recognize that command. Try 'run Q2 prioritization' to start the deal scoring workflow.".

Section Handler.

Variable session : Session.
Variables today tomorrow : string.
(** [str(value)] for a value that is not a string. *)
Variable str : Value -> string.

(** [f"{value}"] *)
Definition format (value : Value) : string :=
  match value with
  | VScalar (VStr s) => s
  | _ => str value
  end.

(** [value == "error"] *)
Definition is_error (value : Value) : bool :=
  match value with
  | VScalar (VStr s) => String.eqb s "error"
  | _ => false
  end.

(** The message after the workflow has returned [result]; a missing key
    raises a KeyError, which the [except] clause turns into a message. *)
Definition response_message (result : Dict) : string :=
  match get "status" result with
  | None => "Error in Q2 deal prioritization workflow: 'status'"
  | Some status =>
      if is_error status then
        match get "message" result with
        | None => "Error in Q2 deal prioritization workflow: 'message'"
        | Some text =>
            ("Q2 deal prioritization workflow failed: " ++ format text)%string
        end
      else completed
  end.

Definition orchestrator_agent (self : Self) (input_text : string)
  (stored : option Dict) (t : Trace) : HandlerResult * Trace :=
  if contains trigger (lower input_text) then
    let (result, t') := run_workflow session today tomorrow self t in
    ({| result_input := input_text;
        deal_workflow_result := Some result;
        result_next := "END";
        message := response_message result |}, t')
  else
    ({| result_input := input_text;
        deal_workflow_result := stored;
        result_next := "END";
        message := unrecognized |}, t).

(** [deal_orchestrator_agent]: a new agent, with the default address. *)
Definition deal_orchestrator_agent (input_text : string)
  (stored : option Dict) (t : Trace) : HandlerResult * Trace :=
  orchestrator_agent (__init__ "http://localhost:8000") input_text stored t.

End Handler.

End OrchestratorHandler.

(** ** Scoring: bounds and product selection *)

Module ScoringProofs.
Import DatabricksAgent.
Open Scope Q_scope.

Lemma Qltb_true (a b : Q) : Qltb a b = true <-> a < b.
Proof.
  unfold Qltb. rewrite negb_true_iff. split; intro H.
  - apply Qnot_le_lt. intro Hle. apply Qle_bool_iff in Hle. congruence.
  - destruct (Qle_bool b a) eqn:E; [|reflexivity].
    apply Qle_bool_iff in E. exfalso. apply (Qlt_not_le _ _ H E).
Qed.

Lemma Qltb_false (a b : Q) : Qltb a b = false <-> b <= a.
Proof.
  unfold Qltb. rewrite negb_false_iff. apply Qle_bool_iff.
Qed.

Ltac cases_Qltb :=
  repeat match goal with
  | |- context [Qltb ?a ?b] =>
      let E := fresh "E" in
      destruct (Qltb a b) eqn:E;
      [apply Qltb_true in E | apply Qltb_false in E]
  end.

Lemma py_min_spec (a b : Q) :
  (b < a /\ py_min a b = b) \/ (a <= b /\ py_min a b = a).
Proof. unfold py_min. cases_Qltb; auto. Qed.

Lemma py_max_spec (a b : Q) :
  (a < b /\ py_max a b = b) \/ (b <= a /\ py_max a b = a).
Proof. unfold py_max. cases_Qltb; auto. Qed.

(** Split on every [min] and [max] in sight, innermost facts kept as
    equations. *)
Ltac cases_min_max :=
  repeat match goal with
  | |- context [py_min ?a ?b] =>
      let E := fresh "E" in
      destruct (py_min_spec a b) as [[? E] | [? E]]; rewrite E in *
  | |- context [py_max ?a ?b] =>
      let E := fresh "E" in
      destruct (py_max_spec a b) as [[? E] | [? E]]; rewrite E in *
  end.

Lemma clamp_bounds (lo hi x : Q) :
  lo <= hi -> lo <= py_max lo (py_min hi x) /\ py_max lo (py_min hi x) <= hi.
Proof. intro H. cases_min_max; lra. Qed.

Lemma amount_factor_bounds (a : Q) :
  0 <= amount_factor a /\ amount_factor a <= 0.3.
Proof. unfold amount_factor. apply clamp_bounds. lra. Qed.

Lemma amount_factor_antitone (a1 a2 : Q) :
  a1 <= a2 -> amount_factor a2 <= amount_factor a1.
Proof.
  intro H. unfold amount_factor.
  assert (Hdiv : a1 / 1000000 <= a2 / 1000000).
  { unfold Qdiv. apply Qmult_le_compat_r; [assumption | discriminate]. }
  revert Hdiv. generalize (a1 / 1000000) (a2 / 1000000). intros q1 q2 Hdiv.
  cases_min_max; lra.
Qed.

Lemma round2_bounds (x : Q) : 0.1 <= x -> x <= 0.9 -> 0.1 <= round2 x /\ round2 x <= 0.9.
Proof.
  intros Hlo Hhi. unfold round2.
  set (n := Qfloor (x * 100)).
  assert (Hn1 : (10 <= n)%Z).
  { change 10%Z with (Qfloor (inject_Z 10)). apply Qfloor_resp_le. 
    change (inject_Z 10) with 10. lra. }
  assert (Hn2 : (n <= 90)%Z).
  { change 90%Z with (Qfloor (inject_Z 90)). apply Qfloor_resp_le. 
    change (inject_Z 90) with 90. lra. }
  assert (Hfl : inject_Z n <= x * 100) by apply Qfloor_le.
  assert (Hm : forall m : Z, (10 <= m <= 90)%Z -> 0.1 <= inject_Z m / 100 /\ inject_Z m / 100 <= 0.9).
  { intros m [H1 H2]. 
    assert (inject_Z 10 <= inject_Z m) by (rewrite <- Zle_Qle; exact H1).
    assert (inject_Z m <= inject_Z 90) by (rewrite <- Zle_Qle; exact H2).
    change (inject_Z 10) with 10 in *. change (inject_Z 90) with 90 in *.
    split.
    - apply Qle_shift_div_l; [reflexivity | lra].
    - apply Qle_shift_div_r; [reflexivity | lra]. }
  assert (Hn90 : n = 90%Z -> x * 100 - inject_Z n <= 0).
  { intro E. rewrite E. change (inject_Z 90) with 90. lra. }
  cases_Qltb.
  - apply Hm; lia.
  - apply Hm. split; [lia|]. destruct (Z.eq_dec n 90) as [E'|]; [|lia].
    specialize (Hn90 E'). lra.
  - destruct (Z.even n); apply Hm; try lia.
    split; [lia|]. destruct (Z.eq_dec n 90) as [E'|]; [|lia].
    specialize (Hn90 E'). lra.
Qed.

Example opp_001_scored :
  winProbability (_mock_score_opportunity opp_001 0) == 0.9 /\
  nextBestProduct (_mock_score_opportunity opp_001 0) = "Trading Platform".
Proof. split; reflexivity. Qed.

Example opp_001_scored_low :
  winProbability (_mock_score_opportunity opp_001 (-0.1)) == 0.8.
Proof. reflexivity. Qed.

(** C5. The mock score of any opportunity lies in [0.1, 0.9]. It is the
    two-decimal rounding of the clamp to [0.1, 0.9] of
    0.5 + amount factor + industry bonus + random term; the amount factor
    lies in [0, 0.3] and does not grow with the amount; the bonus is read
    from the fixed industry table. *)
Theorem mock_score_bounds :
  forall (opportunity : Opportunity) (noise : Q),
    let scored := _mock_score_opportunity opportunity noise in
    let a := amount_of opportunity in
    let i := industry_of opportunity in
    (0.1 <= winProbability scored /\ winProbability scored <= 0.9) /\
    (0.1 <= win_prob opportunity noise /\ win_prob opportunity noise <= 0.9) /\
    winProbability scored =
      round2 (py_max 0.1 (py_min 0.9
                (0.5 + amount_factor a + industry_bonus i + noise))) /\
    (0 <= amount_factor a /\ amount_factor a <= 0.3) /\
    (forall a1 a2 : Q, a1 <= a2 -> amount_factor a2 <= amount_factor a1) /\
    (industry_bonus "Technology" = 0.2 /\ industry_bonus "Healthcare" = 0.15 /\
     industry_bonus "Finance" = 0.1 /\ industry_bonus "Retail" = 0.05 /\
     (0 <= industry_bonus i /\ industry_bonus i <= 0.2)).
Proof.
  intros opportunity noise scored a i.
  assert (Hclamp : 0.1 <= win_prob opportunity noise /\
                   win_prob opportunity noise <= 0.9).
  { unfold win_prob. apply clamp_bounds. lra. }
  split; [| split; [exact Hclamp | split; [reflexivity | split; [| split]]]].
  - destruct Hclamp. apply round2_bounds; assumption.
  - apply amount_factor_bounds.
  - apply amount_factor_antitone.
  - repeat split; try reflexivity;
      unfold industry_bonus;
      repeat match goal with |- context [String.eqb ?x ?y] => destruct (String.eqb x y) end;
      lra.
Qed.

Lemma mock_score_bounds_witness :
  amount_factor 320000 <= amount_factor 250000 /\
  0.1 <= winProbability (_mock_score_opportunity opp_001 0).
Proof.
  pose proof (mock_score_bounds opp_001 0) as H. cbv zeta in H.
  destruct H as [[Hlo _] [_ [_ [_ [Hmono _]]]]].
  split; [apply Hmono; vm_compute; discriminate | exact Hlo].
Defined.



End ScoringProofs.

(** ** The pipeline: what a run does to the services *)

Module PipelineProofs.

Import OrchestratorAgent.
Open Scope Q_scope.
Open Scope list_scope.

(** *** Traces *)

Lemma calls_app (p : Request -> bool) (t u : Trace) :
  calls p (t ++ u) = (calls p t + calls p u)%nat.
Proof. unfold calls. rewrite filter_app, length_app. reflexivity. Qed.

Lemma sleeps_app (t u : Trace) : sleeps (t ++ u) = sleeps t ++ sleeps u.
Proof.
  induction t as [|[r|d] t IH]; simpl; [reflexivity | exact IH |].
  rewrite IH. reflexivity.
Qed.

Lemma calls_call (p : Request -> bool) (t : Trace) (r : Request) :
  calls p (t ++ [Call r]) = (calls p t + if p r then 1 else 0)%nat.
Proof. rewrite calls_app. unfold calls. simpl. destruct (p r); reflexivity. Qed.

Lemma calls_sleep (p : Request -> bool) (t : Trace) (d : Q) :
  calls p (t ++ [Sleep d]) = calls p t.
Proof. rewrite calls_app. unfold calls. simpl. lia. Qed.

Lemma to_url_refl (self : Self) (r : Request) : to_url self r r = true.
Proof. apply String.eqb_refl. Qed.

Lemma is_5xx_not_200 (status : Z) :
  is_5xx status = true -> (status =? 200)%Z = false.
Proof. unfold is_5xx. intro H. apply andb_prop in H. lia. Qed.

Lemma is_5xx_ge_400 (status : Z) :
  is_5xx status = true -> (400 <=? status)%Z = true.
Proof. unfold is_5xx. intro H. apply andb_prop in H. lia. Qed.

Lemma is_5xx_not_4xx (status : Z) :
  is_5xx status = true -> is_4xx status = false.
Proof.
  unfold is_5xx, is_4xx. intro H. apply andb_prop in H.
  apply andb_false_iff. lia.
Qed.

(** Unfold one round of a retry loop down to the case analysis on the
    reply. *)
Ltac unfold_round :=
  unfold except_clause; unfold bind, send, sleep, raise, ret; cbn beta iota.

Ltac split_reply :=
  repeat match goal with
  | |- context [match reply ?s ?t ?r with _ => _ end] =>
      destruct (reply s t r) as [? [[]|]|?]
  | |- context [if ?c then _ else _] => destruct c eqn:?
  end.

(** *** Frames: a stage sends its own request only *)

Section Frames.

Variable session : Session.
Variables today tomorrow : string.
Variable self : Self.
Variable p : Request -> bool.

Lemma fetch_loop_frame :
  p (SnowflakeQuery fetch_sql) = false ->
  forall attempts t,
    calls p (snd (fetch_loop session self attempts t)) = calls p t.
Proof.
  intro Hp. induction attempts as [|attempt rest IH]; intro t; [reflexivity|].
  cbn [fetch_loop]. unfold_round. split_reply; cbn [snd];
    rewrite ?IH, ?calls_sleep, ?calls_call, ?Hp; lia.
Qed.

Lemma score_loop_frame (opportunities : list Opportunity) :
  p (DatabricksScore "prod_fin_sales_v2" opportunities) = false ->
  forall attempts t,
    calls p (snd (score_loop session self opportunities attempts t)) = calls p t.
Proof.
  intro Hp. induction attempts as [|attempt rest IH]; intro t; [reflexivity|].
  cbn [score_loop]. unfold_round. split_reply; cbn [snd];
    rewrite ?IH, ?calls_sleep, ?calls_call, ?Hp; lia.
Qed.

Lemma score_opportunities_frame (opportunities : list Opportunity) :
  p (DatabricksScore "prod_fin_sales_v2" opportunities) = false ->
  forall t,
    calls p (snd (score_opportunities session self opportunities t)) = calls p t.
Proof.
  intros Hp t. unfold score_opportunities.
  destruct opportunities; [reflexivity |].
  apply score_loop_frame. exact Hp.
Qed.

End Frames.

(** A scoring service that answers 4xx to everything makes
    [score_opportunities] raise, once its retries are used up. *)
Lemma score_rejected_raises (session : Session) (self : Self)
  (opportunities : list Opportunity) (status : Z) (json : option Json) :
  opportunities <> [] ->
  is_4xx status = true ->
  (forall t r, is_score r = true -> reply session t r = Response status json) ->
  forall t, exists t',
    score_opportunities session self opportunities t
    = (inl (score_critical (score_failed status)), t').
Proof.
  intros Hne H4 Hreply. unfold score_opportunities.
  destruct opportunities as [|o rest]; [congruence |].
  assert (H200 : (status =? 200)%Z = false)
    by (unfold is_4xx in H4; apply andb_prop in H4; lia).
  assert (H5 : is_5xx status = false).
  { unfold is_4xx in H4. unfold is_5xx. apply andb_prop in H4.
    apply andb_false_iff. lia. }
  assert (Hloop : forall n a t,
             (a + n = max_retries self)%nat ->
             exists t',
               score_loop session self (o :: rest) (seq a (S n)) t
               = (inl (score_critical (score_failed status)), t')).
  { induction n as [|n IH]; intros a t Ha.
    - cbn [seq score_loop]. unfold_round.
      rewrite Hreply by reflexivity. rewrite H200, H5. cbn [andb].
      replace (a <? max_retries self)%nat with false
        by (symmetry; apply Nat.ltb_ge; lia).
      eauto.
    - change (seq a (S (S n))) with (a :: seq (S a) (S n)).
      cbn [score_loop]. unfold_round.
      rewrite Hreply by reflexivity. rewrite H200, H5. cbn [andb].
      replace (a <? max_retries self)%nat with true
        by (symmetry; apply Nat.ltb_lt; lia).
      apply IH. lia. }
  intro t. rewrite Nat.add_1_r. apply Hloop. lia.
Qed.

(** C1. When the Score stage raises, the run result is the error
    dictionary with status error and the raised message, and the run has
    sent no UpdateRecord, CreateFollowUp or WriteSummary request: the trace
    ends where scoring ended. *)
Theorem score_failure_aborts_run :
  forall (session : Session) (today tomorrow : string) (self : Self)
         (t t1 t2 : Trace) (opportunities : list Opportunity) (e : string),
    fetch_opportunities session self t = (inr opportunities, t1) ->
    score_opportunities session self opportunities t1 = (inl e, t2) ->
    run_workflow session today tomorrow self t = (error_result e, t2) /\
    get "status" (error_result e) = Some (VScalar (VStr "error")) /\
    get "message" (error_result e) = Some (VScalar (VStr e)) /\
    calls is_update t2 = calls is_update t /\
    calls is_task t2 = calls is_task t /\
    calls is_insert t2 = calls is_insert t.
Proof.
  intros session today tomorrow self t t1 t2 opportunities e Hfetch Hscore.
  assert (Hframe : forall p,
             p (SnowflakeQuery fetch_sql) = false ->
             p (DatabricksScore "prod_fin_sales_v2" opportunities) = false ->
             calls p t2 = calls p t).
  { intros p Hq Hs.
    pose proof (score_opportunities_frame session self p opportunities Hs t1) as H2.
    pose proof (fetch_loop_frame session self p Hq
                  (seq 0 (max_retries self + 1)) t) as H1.
    unfold fetch_opportunities in Hfetch. rewrite Hfetch in H1.
    rewrite Hscore in H2. cbn [snd] in H1, H2. congruence. }
  split.
  - unfold run_workflow, workflow_steps, bind. rewrite Hfetch, Hscore.
    reflexivity.
  - repeat split; try reflexivity; apply Hframe; reflexivity.
Qed.

(** *** Retry loops against a scripted service *)

Lemma attempts_trace_calls (self : Self) (p : Request -> bool) (r : Request) :
  p r = true ->
  forall k first, calls p (attempts_trace self r first k) = (k + 1)%nat.
Proof.
  intro Hp. induction k as [|k IH]; intro first; unfold calls in *; simpl;
    rewrite Hp; simpl; [reflexivity |].
  rewrite IH. reflexivity.
Qed.

Lemma attempts_trace_sleeps (self : Self) (r : Request) :
  forall k first,
    sleeps (attempts_trace self r first k)
    = map (backoff_time self) (seq first k).
Proof.
  induction k as [|k IH]; intro first; simpl; [reflexivity |].
  rewrite IH. reflexivity.
Qed.

Lemma retried_of_trace {A} (self : Self) (p : Request -> bool) (r : Request)
  (k : nat) (t : Trace) (result : A) :
  p r = true ->
  retried self p k t (inr result, t ++ attempts_trace self r 0 k) result.
Proof.
  intro Hp. unfold retried. cbn [fst snd].
  rewrite calls_app, sleeps_app, attempts_trace_calls, attempts_trace_sleeps
    by exact Hp.
  auto.
Qed.

Lemma gave_up_of_trace {A} (self : Self) (p : Request -> bool) (r : Request)
  (t : Trace) (e : string) :
  p r = true ->
  @gave_up A self p t (inl e, t ++ attempts_trace self r 0 (max_retries self)).
Proof.
  intro Hp. unfold gave_up. cbn [fst snd].
  rewrite calls_app, sleeps_app, attempts_trace_calls, attempts_trace_sleeps
    by exact Hp.
  eauto.
Qed.

(** The script seen one request later. *)
Lemma script_shift (self : Self) (r : Request) (t : Trace) (d : Q) (j : nat) :
  (calls (to_url self r) ((t ++ [Call r]) ++ [Sleep d]) + j
   = calls (to_url self r) t + S j)%nat.
Proof. rewrite calls_sleep, calls_call, to_url_refl. lia. Qed.

(** A round that met a retriable outcome with attempts left: whichever of
    the two retry paths it takes, it sleeps and goes on as [Hnext] says. *)
Ltac failed_round q Hscript H0 Ha' Hnext :=
  unfold_round; try fold q; rewrite Hscript;
  match goal with
  | |- context [match ?r with Response _ _ => _ | ClientError _ => _ end] =>
      destruct r as [? ? | ?]; cbn [retriable] in H0
  end;
  [ rewrite (is_5xx_not_200 _ H0), H0, Ha'; cbn [andb] | rewrite Ha' ];
  rewrite <- !app_assoc; cbn [app]; exact Hnext.

(** The last round, with no attempt left: the exception goes out. *)
Ltac last_round q Hscript H0 Ha' :=
  unfold_round; try fold q; rewrite Hscript;
  match goal with
  | |- context [match ?r with Response _ _ => _ | ClientError _ => _ end] =>
      destruct r as [? ? | ?]; cbn [retriable] in H0
  end;
  [ rewrite (is_5xx_not_200 _ H0), H0, Ha', ?(is_5xx_ge_400 _ H0);
    cbn [andb]
  | rewrite Ha' ];
  reflexivity.

Section Scripted.

Variable session : Session.
Variable today : string.
Variable self : Self.
Variable script : nat -> Reply.

Lemma fetch_loop_recovers (rows : list Opportunity) :
  let q := SnowflakeQuery fetch_sql in
  follows_script session self q script ->
  forall k a n t,
    (forall j, (j < k)%nat ->
       retriable (script (calls (to_url self q) t + j)%nat) = true) ->
    script (calls (to_url self q) t + k)%nat = Response 200 (Some (Rows rows)) ->
    (k < n)%nat -> (a + k <= max_retries self)%nat ->
    fetch_loop session self (seq a n) t
    = (inr rows, t ++ attempts_trace self q a k).
Proof.
  intros q Hscript. induction k as [|k IH]; intros a n t Hfail Hok Hn Ha.
  - destruct n as [|n]; [lia |]. cbn [seq fetch_loop attempts_trace].
    rewrite Nat.add_0_r in Hok. unfold_round. rewrite Hscript, Hok.
    reflexivity.
  - destruct n as [|n]; [lia |]. cbn [seq fetch_loop attempts_trace].
    assert (Ha' : (a <? max_retries self)%nat = true)
      by (apply Nat.ltb_lt; lia).
    assert (Hnext : fetch_loop session self (seq (S a) n)
                      ((t ++ [Call q]) ++ [Sleep (backoff_time self a)])
                    = (inr rows,
                       ((t ++ [Call q]) ++ [Sleep (backoff_time self a)])
                         ++ attempts_trace self q (S a) k)).
    { apply IH; try lia.
      - intros j Hj. rewrite script_shift. apply Hfail. lia.
      - rewrite script_shift. exact Hok. }
    rewrite <- !app_assoc in Hnext. cbn [app] in Hnext.
    pose proof (Hfail 0%nat ltac:(lia)) as H0. rewrite Nat.add_0_r in H0.
    failed_round q Hscript H0 Ha' Hnext.
Qed.

Lemma score_loop_recovers (opportunities : list Opportunity)
  (scored : list ScoredOpportunity) :
  let q := DatabricksScore "prod_fin_sales_v2" opportunities in
  follows_script session self q script ->
  forall k a n t,
    (forall j, (j < k)%nat ->
       retriable (script (calls (to_url self q) t + j)%nat) = true) ->
    script (calls (to_url self q) t + k)%nat
    = Response 200 (Some (Scored scored)) ->
    (k < n)%nat -> (a + k <= max_retries self)%nat ->
    score_loop session self opportunities (seq a n) t
    = (inr scored, t ++ attempts_trace self q a k).
Proof.
  intros q Hscript. induction k as [|k IH]; intros a n t Hfail Hok Hn Ha.
  - destruct n as [|n]; [lia |]. cbn [seq score_loop attempts_trace].
    rewrite Nat.add_0_r in Hok. unfold_round. rewrite Hscript, Hok.
    reflexivity.
  - destruct n as [|n]; [lia |]. cbn [seq score_loop attempts_trace].
    assert (Ha' : (a <? max_retries self)%nat = true)
      by (apply Nat.ltb_lt; lia).
    assert (Hnext : score_loop session self opportunities (seq (S a) n)
                      ((t ++ [Call q]) ++ [Sleep (backoff_time self a)])
                    = (inr scored,
                       ((t ++ [Call q]) ++ [Sleep (backoff_time self a)])
                         ++ attempts_trace self q (S a) k)).
    { apply IH; try lia.
      - intros j Hj. rewrite script_shift. apply Hfail. lia.
      - rewrite script_shift. exact Hok. }
    rewrite <- !app_assoc in Hnext. cbn [app] in Hnext.
    pose proof (Hfail 0%nat ltac:(lia)) as H0. rewrite Nat.add_0_r in H0.
    failed_round q Hscript H0 Ha' Hnext.
Qed.

Lemma write_loop_recovers (summary_data : SfResults) (data : Json) :
  let q := summary_request today summary_data in
  follows_script session self q script ->
  forall k a n t,
    (forall j, (j < k)%nat ->
       retriable (script (calls (to_url self q) t + j)%nat) = true) ->
    script (calls (to_url self q) t + k)%nat = Response 200 (Some data) ->
    (k < n)%nat -> (a + k <= max_retries self)%nat ->
    write_loop session today self summary_data (seq a n) t
    = (inr data, t ++ attempts_trace self q a k).
Proof.
  intros q Hscript. induction k as [|k IH]; intros a n t Hfail Hok Hn Ha.
  - destruct n as [|n]; [lia |]. cbn [seq write_loop attempts_trace].
    rewrite Nat.add_0_r in Hok. unfold_round. fold q. rewrite Hscript, Hok.
    reflexivity.
  - destruct n as [|n]; [lia |]. cbn [seq write_loop attempts_trace].
    assert (Ha' : (a <? max_retries self)%nat = true)
      by (apply Nat.ltb_lt; lia).
    assert (Hnext : write_loop session today self summary_data (seq (S a) n)
                      ((t ++ [Call q]) ++ [Sleep (backoff_time self a)])
                    = (inr data,
                       ((t ++ [Call q]) ++ [Sleep (backoff_time self a)])
                         ++ attempts_trace self q (S a) k)).
    { apply IH; try lia.
      - intros j Hj. rewrite script_shift. apply Hfail. lia.
      - rewrite script_shift. exact Hok. }
    rewrite <- !app_assoc in Hnext. cbn [app] in Hnext.
    pose proof (Hfail 0%nat ltac:(lia)) as H0. rewrite Nat.add_0_r in H0.
    failed_round q Hscript H0 Ha' Hnext.
Qed.

Lemma fetch_loop_gives_up :
  let q := SnowflakeQuery fetch_sql in
  follows_script session self q script ->
  forall m a t,
    (forall j, (j <= m)%nat ->
       retriable (script (calls (to_url self q) t + j)%nat) = true) ->
    (a + m = max_retries self)%nat ->
    fetch_loop session self (seq a (S m)) t
    = (inl (last_error session (script (calls (to_url self q) t + m)%nat)),
       t ++ attempts_trace self q a m).
Proof.
  intros q Hscript. induction m as [|m IH]; intros a t Hfail Ha;
    pose proof (Hfail 0%nat ltac:(lia)) as H0; rewrite Nat.add_0_r in H0.
  - assert (Ha' : (a <? max_retries self)%nat = false)
      by (apply Nat.ltb_ge; lia).
    cbn [seq fetch_loop attempts_trace]. rewrite Nat.add_0_r.
    last_round q Hscript H0 Ha'.
  - assert (Ha' : (a <? max_retries self)%nat = true)
      by (apply Nat.ltb_lt; lia).
    assert (Hnext := IH (S a) ((t ++ [Call q]) ++ [Sleep (backoff_time self a)])
              ltac:(intros j Hj; rewrite script_shift; apply Hfail; lia)
              ltac:(lia)).
    rewrite script_shift in Hnext.
    rewrite <- !app_assoc in Hnext. cbn [app] in Hnext.
    change (seq a (S (S m))) with (a :: seq (S a) (S m)).
    revert Hnext. generalize (seq (S a) (S m)). intros rest Hnext.
    cbn [fetch_loop attempts_trace]. failed_round q Hscript H0 Ha' Hnext.
Qed.

Lemma score_loop_gives_up (opportunities : list Opportunity) :
  let q := DatabricksScore "prod_fin_sales_v2" opportunities in
  follows_script session self q script ->
  forall m a t,
    (forall j, (j <= m)%nat ->
       retriable (script (calls (to_url self q) t + j)%nat) = true) ->
    (a + m = max_retries self)%nat ->
    score_loop session self opportunities (seq a (S m)) t
    = (inl (last_score_error (script (calls (to_url self q) t + m)%nat)),
       t ++ attempts_trace self q a m).
Proof.
  intros q Hscript. induction m as [|m IH]; intros a t Hfail Ha;
    pose proof (Hfail 0%nat ltac:(lia)) as H0; rewrite Nat.add_0_r in H0.
  - assert (Ha' : (a <? max_retries self)%nat = false)
      by (apply Nat.ltb_ge; lia).
    cbn [seq score_loop attempts_trace]. rewrite Nat.add_0_r.
    last_round q Hscript H0 Ha'.
  - assert (Ha' : (a <? max_retries self)%nat = true)
      by (apply Nat.ltb_lt; lia).
    assert (Hnext := IH (S a) ((t ++ [Call q]) ++ [Sleep (backoff_time self a)])
              ltac:(intros j Hj; rewrite script_shift; apply Hfail; lia)
              ltac:(lia)).
    rewrite script_shift in Hnext.
    rewrite <- !app_assoc in Hnext. cbn [app] in Hnext.
    change (seq a (S (S m))) with (a :: seq (S a) (S m)).
    revert Hnext. generalize (seq (S a) (S m)). intros rest Hnext.
    cbn [score_loop attempts_trace]. failed_round q Hscript H0 Ha' Hnext.
Qed.

Lemma write_loop_gives_up (summary_data : SfResults) :
  let q := summary_request today summary_data in
  follows_script session self q script ->
  forall m a t,
    (forall j, (j <= m)%nat ->
       retriable (script (calls (to_url self q) t + j)%nat) = true) ->
    (a + m = max_retries self)%nat ->
    write_loop session today self summary_data (seq a (S m)) t
    = (inl (last_error session (script (calls (to_url self q) t + m)%nat)),
       t ++ attempts_trace self q a m).
Proof.
  intros q Hscript. induction m as [|m IH]; intros a t Hfail Ha;
    pose proof (Hfail 0%nat ltac:(lia)) as H0; rewrite Nat.add_0_r in H0.
  - assert (Ha' : (a <? max_retries self)%nat = false)
      by (apply Nat.ltb_ge; lia).
    cbn [seq write_loop attempts_trace]. rewrite Nat.add_0_r.
    last_round q Hscript H0 Ha'.
  - assert (Ha' : (a <? max_retries self)%nat = true)
      by (apply Nat.ltb_lt; lia).
    assert (Hnext := IH (S a) ((t ++ [Call q]) ++ [Sleep (backoff_time self a)])
              ltac:(intros j Hj; rewrite script_shift; apply Hfail; lia)
              ltac:(lia)).
    rewrite script_shift in Hnext.
    rewrite <- !app_assoc in Hnext. cbn [app] in Hnext.
    change (seq a (S (S m))) with (a :: seq (S a) (S m)).
    revert Hnext. generalize (seq (S a) (S m)). intros rest Hnext.
    cbn [write_loop attempts_trace]. failed_round q Hscript H0 Ha' Hnext.
Qed.

End Scripted.

(** C3. Behind each of the three retry wrappers (Fetch, Score, WriteSummary):
    when the request meets a retriable outcome k times, k no more than
    max_retries (so also for every k below it), and is then answered 200,
    the wrapper returns that answer, has sent the request k + 1 times, and
    has slept backoff_factor * 2 ^ i seconds before retry i, for i from 0
    to k - 1; when every one of the max_retries + 1 attempts meets a
    retriable outcome, the wrapper raises, after max_retries + 1 requests
    and the same sleeps before its max_retries retries, whatever
    max_retries is, 0 included. Score is behind its wrapper for a non-empty
    list of opportunities. *)
Theorem retry_policy :
  forall (session : Session) (today : string) (self : Self) (t : Trace),
    let backoffs := fun k : nat =>
      map (fun i => backoff_factor self * inject_Z (2 ^ Z.of_nat i))
        (seq 0 k) in
    (forall (k : nat) rows,
        (k <= max_retries self)%nat ->
        fails_then_answers session self (SnowflakeQuery fetch_sql) t k
          (Response 200 (Some (Rows rows))) ->
        let run := fetch_opportunities session self t in
        retried self is_query k t run rows /\
        sleeps (snd run) = sleeps t ++ backoffs k) /\
    (forall (k : nat) opportunities scored,
        (k <= max_retries self)%nat ->
        opportunities <> [] ->
        fails_then_answers session self
          (DatabricksScore "prod_fin_sales_v2" opportunities) t k
          (Response 200 (Some (Scored scored))) ->
        let run := score_opportunities session self opportunities t in
        retried self is_score k t run scored /\
        sleeps (snd run) = sleeps t ++ backoffs k) /\
    (forall (k : nat) summary_data data,
        (k <= max_retries self)%nat ->
        fails_then_answers session self (summary_request today summary_data)
          t k (Response 200 (Some data)) ->
        let run := write_summary session today self summary_data t in
        retried self is_insert k t run data /\
        sleeps (snd run) = sleeps t ++ backoffs k) /\
    (keeps_failing session self (SnowflakeQuery fetch_sql) t
       (max_retries self + 1) ->
     let run := fetch_opportunities session self t in
     gave_up self is_query t run /\
     sleeps (snd run) = sleeps t ++ backoffs (max_retries self)) /\
    (forall opportunities,
        opportunities <> [] ->
        keeps_failing session self
          (DatabricksScore "prod_fin_sales_v2" opportunities) t
          (max_retries self + 1) ->
        let run := score_opportunities session self opportunities t in
        gave_up self is_score t run /\
        sleeps (snd run) = sleeps t ++ backoffs (max_retries self)) /\
    (forall summary_data,
        keeps_failing session self (summary_request today summary_data) t
          (max_retries self + 1) ->
        let run := write_summary session today self summary_data t in
        gave_up self is_insert t run /\
        sleeps (snd run) = sleeps t ++ backoffs (max_retries self)).
Proof.
  intros session today self t backoffs.
  assert (Hr : forall A p k (run : (string + A) * Trace) result,
             retried self p k t run result ->
             retried self p k t run result /\
             sleeps (snd run) = sleeps t ++ backoffs k).
  { intros A p k run result H. split; [exact H | apply H]. }
  assert (Hg : forall A p (run : (string + A) * Trace),
             gave_up self p t run ->
             gave_up self p t run /\
             sleeps (snd run) = sleeps t ++ backoffs (max_retries self)).
  { intros A p run H. split; [exact H | apply H]. }
  split; [| split; [| split; [| split; [| split]]]].
  - intros k rows Hk (script & Hscript & Hfail & Hok). cbv zeta. apply Hr.
    unfold fetch_opportunities.
    rewrite (fetch_loop_recovers session self script rows Hscript k 0
               (max_retries self + 1) t Hfail Hok) by lia.
    apply retried_of_trace. reflexivity.
  - intros k opportunities scored Hk Hne (script & Hscript & Hfail & Hok).
    cbv zeta. apply Hr.
    unfold score_opportunities.
    destruct opportunities as [|o rest]; [congruence |].
    rewrite (score_loop_recovers session self script (o :: rest) scored
               Hscript k 0 (max_retries self + 1) t Hfail Hok) by lia.
    apply retried_of_trace. reflexivity.
  - intros k summary_data data Hk (script & Hscript & Hfail & Hok).
    cbv zeta. apply Hr.
    unfold write_summary.
    rewrite (write_loop_recovers session today self script summary_data data
               Hscript k 0 (max_retries self + 1) t Hfail Hok) by lia.
    apply retried_of_trace. reflexivity.
  - intros (script & Hscript & Hfail). cbv zeta. apply Hg.
    unfold fetch_opportunities. rewrite Nat.add_1_r.
    rewrite (fetch_loop_gives_up session self script Hscript
               (max_retries self) 0 t)
      by (try (intros j Hj; apply Hfail); lia).
    apply gave_up_of_trace. reflexivity.
  - intros opportunities Hne (script & Hscript & Hfail). cbv zeta. apply Hg.
    unfold score_opportunities.
    destruct opportunities as [|o rest]; [congruence |].
    rewrite Nat.add_1_r.
    rewrite (score_loop_gives_up session self script (o :: rest) Hscript
               (max_retries self) 0 t)
      by (try (intros j Hj; apply Hfail); lia).
    apply gave_up_of_trace. reflexivity.
  - intros summary_data (script & Hscript & Hfail). cbv zeta. apply Hg.
    unfold write_summary. rewrite Nat.add_1_r.
    rewrite (write_loop_gives_up session today self script summary_data
               Hscript (max_retries self) 0 t)
      by (try (intros j Hj; apply Hfail); lia).
    apply gave_up_of_trace. reflexivity.
Qed.

(** A stub session follows its script. *)
Lemma stub_fails_then_answers (self : Self) (script : Request -> nat -> Reply)
  (request : Request) (k : nat) :
  (forall j, (j < k)%nat -> retriable (script request j) = true) ->
  fails_then_answers (stub_session self script) self request [] k
    (script request k).
Proof.
  intro Hfail. exists (script request). split; [| split].
  - intro t. reflexivity.
  - intros j Hj. apply Hfail. exact Hj.
  - reflexivity.
Qed.

Lemma stub_keeps_failing (self : Self) (script : Request -> nat -> Reply)
  (request : Request) (n : nat) :
  (forall j, (j < n)%nat -> retriable (script request j) = true) ->
  keeps_failing (stub_session self script) self request [] n.
Proof.
  intro Hfail. exists (script request). split.
  - intro t. reflexivity.
  - intros j Hj. apply Hfail. exact Hj.
Qed.

Lemma retry_policy_witness :
  let recovered :=
    fetch_opportunities (stub_session Samples.agent (Samples.flaky 2))
      Samples.agent [] in
  let failed :=
    fetch_opportunities (stub_session Samples.agent Samples.down)
      Samples.agent [] in
  (fst recovered = inr Samples.SAMPLE_OPPORTUNITIES /\
   calls is_query (snd recovered) = 3%nat /\
   sleeps (snd recovered) = [1.5 * 1; 1.5 * 2]%Q) /\
  ((exists e, fst failed = inl e) /\
   calls is_query (snd failed) = 3%nat /\
   sleeps (snd failed) = [1.5 * 1; 1.5 * 2]%Q).
Proof.
  intros recovered failed. split.
  - destruct (proj1 (retry_policy
                       (stub_session Samples.agent (Samples.flaky 2))
                       "2026-01-01" Samples.agent [])
                2%nat Samples.SAMPLE_OPPORTUNITIES)
      as ((Hresult & Hcalls & _) & Hsleeps).
    + cbn. lia.
    + apply (stub_fails_then_answers Samples.agent (Samples.flaky 2)
               (SnowflakeQuery fetch_sql) 2).
      intros j Hj. destruct j as [|[|j]]; [reflexivity | reflexivity | lia].
    + split; [exact Hresult | split; [exact Hcalls | exact Hsleeps]].
  - destruct (proj1 (proj2 (proj2 (proj2
                (retry_policy (stub_session Samples.agent Samples.down)
                   "2026-01-01" Samples.agent [])))))
      as ((Herror & Hcalls & _) & Hsleeps).
    + apply stub_keeps_failing. intros j Hj. reflexivity.
    + split; [exact Herror | split; [exact Hcalls | exact Hsleeps]].
Defined.

Lemma score_failure_aborts_run_witness :
  let session := stub_session Samples.agent Samples.score_rejected in
  let run := run_workflow session "2026-01-01" "2026-01-02" Samples.agent [] in
  get "status" (fst run) = Some (VScalar (VStr "error")) /\
  get "message" (fst run)
  = Some (VScalar (VStr
      "Critical error in Databricks: Critical error: Databricks scoring failed with status 400")) /\
  calls is_update (snd run) = 0%nat /\
  calls is_task (snd run) = 0%nat /\
  calls is_insert (snd run) = 0%nat.
Proof.
  intros session run.
  edestruct (score_failure_aborts_run session "2026-01-01" "2026-01-02"
               Samples.agent [])
    as (Hrun & Hstatus & Hmessage & Hupdate & Htask & Hinsert).
  - vm_compute. reflexivity.
  - vm_compute. reflexivity.
  - unfold run. rewrite Hrun. cbn [fst snd].
    rewrite Hupdate, Htask, Hinsert. repeat split; reflexivity.
Defined.

End PipelineProofs.

(** ** The update stage *)

Module UpdateProofs.

Import OrchestratorAgent.
Import PipelineProofs.
Open Scope Q_scope.
Open Scope list_scope.

Section Stateless.

Variable session : Session.
Variable tomorrow : string.
Variable self : Self.

(** The update service answers by the opportunity alone, and creating a
    follow-up task raises nothing. *)
Variable upd : ScoredOpportunity -> Reply.
Hypothesis Hupd : forall t o, reply session t (update_request o) = upd o.
Hypothesis Htask :
  forall t o, answered (reply session t (task_request tomorrow o)) = true.

Lemma retry_update_stateless (o : ScoredOpportunity) (locals : SfResults) :
  not_200 (upd o) = true ->
  forall retries t,
    exists new,
      retry_update session self o retries locals t
      = ((add_error (id o) locals, None), t ++ new) /\
      calls is_task new = 0%nat.
Proof.
  intro H5. induction retries as [|retry rest IH]; intro t.
  - exists []. rewrite app_nil_r. split; reflexivity.
  - cbn [retry_update]. unfold send_in. rewrite Hupd.
    destruct (upd o) as [status json | e]; cbn [not_200] in H5;
      [| discriminate].
    apply negb_true_iff in H5. rewrite H5.
    destruct (IH ((t ++ [Sleep (backoff_time self retry)])
                    ++ [Call (update_request o)])) as (new & Hrun & Hcalls).
    exists ([Sleep (backoff_time self retry); Call (update_request o)] ++ new).
    split.
    + rewrite Hrun. rewrite <- !app_assoc. reflexivity.
    + rewrite calls_app, Hcalls. reflexivity.
Qed.

Ltac close_iteration :=
  unfold iteration, track_high_priority, high_priority;
  repeat match goal with
  | H : upd _ = _ |- _ => rewrite H
  end;
  cbn [update_ok update_failed update_result andb orb
       updated_records error_records high_priority_count
       total_pipeline_value created_tasks add_updated add_task add_error];
  repeat match goal with
  | H : (?s =? 200)%Z = _ |- _ => rewrite H
  | H : is_4xx _ = _ |- _ => rewrite H
  | H : is_5xx _ = _ |- _ => rewrite H
  end;
  cbn [andb orb];
  repeat match goal with
  | |- context [Qltb ?a ?b] => destruct (Qltb a b)
  end;
  cbn [updated_records error_records high_priority_count
       total_pipeline_value created_tasks add_updated add_task add_error];
  rewrite ?app_nil_r;
  repeat split;
  try reflexivity; try lia; try lra; try discriminate;
  try (intros _; apply in_or_app; right; simpl; tauto);
  try (eexists; rewrite <- ?app_assoc; reflexivity).

Lemma update_one_stateless (o : ScoredOpportunity) (l : SfResults) (t : Trace) :
  iteration tomorrow upd o l (fst (update_one session tomorrow self o l t))
    t (snd (update_one session tomorrow self o l t)).
Proof.
  unfold update_one, try_update, send_in. rewrite Hupd.
  destruct (upd o) as [status [result |] | e] eqn:Eupd;
    [destruct (status =? 200)%Z eqn:E200 .. |].
  - (* 200 with a body: the follow-up task is created *)
    pose proof (Htask (t ++ [Call (update_request o)]) o) as Ht.
    destruct (reply session (t ++ [Call (update_request o)])
                (task_request tomorrow o)) as [ts [tj |] | te];
      cbn [answered] in Ht; try discriminate;
      destruct (ts =? 200)%Z eqn:Ets; cbn in Ht; try discriminate;
      cbn [fst snd]; close_iteration.
  - (* another status, with a body *)
    destruct (is_4xx status) eqn:E4; [cbn [fst snd]; close_iteration |].
    destruct (is_5xx status) eqn:E5; [| cbn [fst snd]; close_iteration].
    destruct (retry_update_stateless o l
                ltac:(rewrite Eupd; cbn; rewrite E200; reflexivity)
                (seq 0 (max_retries self)) (t ++ [Call (update_request o)]))
      as (new & Hrun & _).
    cbn beta iota zeta. rewrite Hrun. cbn [fst snd]. close_iteration.
  - (* 200 and a body that does not decode *)
    cbn [fst snd]. close_iteration.
  - (* another status, no body *)
    destruct (is_4xx status) eqn:E4; [cbn [fst snd]; close_iteration |].
    destruct (is_5xx status) eqn:E5; [| cbn [fst snd]; close_iteration].
    destruct (retry_update_stateless o l
                ltac:(rewrite Eupd; cbn; rewrite E200; reflexivity)
                (seq 0 (max_retries self)) (t ++ [Call (update_request o)]))
      as (new & Hrun & _).
    cbn beta iota zeta. rewrite Hrun. cbn [fst snd]. close_iteration.
  - (* the client raised *)
    cbn [fst snd]. close_iteration.
Qed.

Lemma update_loop_stateless :
  forall (opps : list ScoredOpportunity) (l : SfResults) (t : Trace),
    let l' := fst (update_loop session tomorrow self opps l t) in
    let t' := snd (update_loop session tomorrow self opps l t) in
    updated_records l'
    = updated_records l ++ flat_map (fun o => update_result (upd o)) opps /\
    error_records l'
    = error_records l
        ++ map id (filter (fun o => update_failed (upd o)) opps) /\
    high_priority_count l'
    = (high_priority_count l
       + Z.of_nat (List.length (filter (counted upd) opps)))%Z /\
    total_pipeline_value l'
    == total_pipeline_value l + sum_amounts (filter (counted upd) opps) /\
    (forall o, In o opps -> update_ok (upd o) = true ->
               In (Call (task_request tomorrow o)) t') /\
    (exists new, t' = t ++ new).
Proof.
  induction opps as [|o rest IH]; intros l t l' t'.
  - subst l' t'. cbn. rewrite !app_nil_r.
    repeat split; try reflexivity; try lra; try lia; try tauto.
    exists []. rewrite app_nil_r. reflexivity.
  - pose proof (update_one_stateless o l t) as Hone.
    subst l' t'. cbn [update_loop].
    destruct (update_one session tomorrow self o l t) as [l1 t1].
    cbn [fst snd] in Hone.
    destruct Hone as (Hu & He & Hh & Ht & Htask1 & new1 & Hnew1).
    specialize (IH l1 t1). cbv zeta in IH.
    destruct (update_loop session tomorrow self rest l1 t1) as [l2 t2].
    cbn [fst snd] in *.
    destruct IH as (Hu2 & He2 & Hh2 & Ht2 & Htask2 & new2 & Hnew2).
    split; [| split; [| split; [| split; [| split]]]].
    + rewrite Hu2, Hu. cbn [flat_map]. rewrite app_assoc. reflexivity.
    + rewrite He2, He. cbn [filter].
      destruct (update_failed (upd o)); cbn [map];
        rewrite <- app_assoc; reflexivity.
    + rewrite Hh2, Hh. cbn [filter]. unfold counted at 2.
      destruct (update_ok (upd o) && high_priority o);
        cbn [List.length]; lia.
    + rewrite Ht2, Ht. cbn [filter]. unfold counted at 2.
      destruct (update_ok (upd o) && high_priority o);
        cbn [sum_amounts]; lra.
    + intros o' [Ho | Ho] Hok.
      * subst o'. rewrite Hnew2. apply in_or_app. left. auto.
      * auto.
    + exists (new1 ++ new2). rewrite Hnew2, Hnew1, app_assoc. reflexivity.
Qed.

End Stateless.

(** *** The whole run *)

Lemma update_salesforce_loop (session : Session) (tomorrow : string)
  (self : Self) (scored : list ScoredOpportunity) (t : Trace) :
  scored <> [] ->
  update_salesforce session tomorrow self scored t
  = (inr (Results (fst (update_loop session tomorrow self scored
                          initial_locals t))),
     snd (update_loop session tomorrow self scored initial_locals t)).
Proof.
  intro Hne. unfold update_salesforce.
  destruct scored as [|o rest]; [congruence |].
  destruct (update_loop session tomorrow self (o :: rest) initial_locals t).
  reflexivity.
Qed.

(** A successful result comes from four successful stages. *)
Lemma run_workflow_success (session : Session) (today tomorrow : string)
  (self : Self) (t t' : Trace) (result : Dict) :
  run_workflow session today tomorrow self t = (result, t') ->
  get "status" result = Some (VScalar (VStr "success")) ->
  exists rows t1 scored t2 sf t3 data,
    fetch_opportunities session self t = (inr rows, t1) /\
    score_opportunities session self rows t1 = (inr scored, t2) /\
    update_salesforce session tomorrow self scored t2
    = (inr (Results sf), t3) /\
    write_summary session today self sf t3 = (inr data, t') /\
    result = success_result today scored sf.
Proof.
  unfold run_workflow, workflow_steps, bind. intros Hrun Hstatus.
  destruct (fetch_opportunities session self t) as [[e | rows] t1] eqn:E1;
    [inversion Hrun; subst; discriminate |].
  destruct (score_opportunities session self rows t1) as [[e | scored] t2]
    eqn:E2;
    [inversion Hrun; subst; discriminate |].
  destruct (update_salesforce session tomorrow self scored t2)
    as [[e | [| sf]] t3] eqn:E3;
    [inversion Hrun; subst; discriminate
    | cbn in Hrun; inversion Hrun; subst; discriminate |].
  cbn [subscript ret] in Hrun.
  destruct (write_summary session today self sf t3) as [[e | data] t4] eqn:E4;
    [inversion Hrun; subst; discriminate |].
  inversion Hrun; subst.
  exists rows, t1, scored, t2, sf, t3, data.
  repeat split; assumption || reflexivity.
Qed.


(** *** Lists *)


Lemma flat_map_none {A B} (g : A -> list B) (l : list A) :
  (forall x, In x l -> g x = []) -> flat_map g l = [].
Proof.
  induction l as [|x l IH]; intro H; [reflexivity |].
  cbn. rewrite (H x (or_introl eq_refl)). apply IH.
  intros y Hy. apply H. right. exact Hy.
Qed.






(** *** Rows as dictionaries *)

(** On a row that has the four keys the stage does what
    [OrchestratorAgent] says. *)
Lemma retry_update_complete (session : Session) (self : Self)
  (o : ScoredOpportunity) (l : SfResults) :
  forall retries t,
    ScoredRows.retry_update session self (id o) (update_request o) retries l t
    = retry_update session self o retries l t.
Proof.
  induction retries as [|retry rest IH]; intro t; [reflexivity |].
  cbn [ScoredRows.retry_update retry_update].
  destruct (send_in session (update_request o)
              (t ++ [Sleep (backoff_time self retry)])) as [r t2].
  destruct r as [status json | e]; [| reflexivity].
  destruct (status =? 200)%Z; [reflexivity | apply IH].
Qed.

Lemma track_complete (o : ScoredOpportunity) (l : SfResults) :
  ScoredRows.track_high_priority (winProbability o) (ScoredRows.complete o) l
  = (track_high_priority o l, None).
Proof.
  unfold ScoredRows.track_high_priority, track_high_priority.
  cbn [ScoredRows.amount ScoredRows.complete].
  destruct (Qltb 0.8 (winProbability o)); reflexivity.
Qed.

Lemma try_update_complete (session : Session) (tomorrow : string)
  (self : Self) (o : ScoredOpportunity) (l : SfResults) (t : Trace) :
  ScoredRows.try_update session tomorrow self (ScoredRows.complete o) (id o)
    (winProbability o) (nextBestProduct o) l t
  = try_update session tomorrow self o l t.
Proof.
  unfold ScoredRows.try_update, try_update.
  change (SalesforceUpdate (id o) (winProbability o) (nextBestProduct o))
    with (update_request o).
  change (SalesforceTask (id o) "Follow up on high-priority deal" tomorrow)
    with (task_request tomorrow o).
  destruct (send_in session (update_request o) t) as [r t1].
  destruct r as [status json | e]; [| reflexivity].
  destruct (status =? 200)%Z.
  - destruct json as [result |]; [| reflexivity].
    destruct (send_in session (task_request tomorrow o) t1) as [r2 t2].
    destruct r2 as [ts tj | e]; [| reflexivity].
    destruct (ts =? 200)%Z; [destruct tj; [| reflexivity] |];
      rewrite track_complete; reflexivity.
  - destruct (is_4xx status); [reflexivity |].
    destruct (is_5xx status); [| reflexivity].
    apply retry_update_complete.
Qed.

Lemma update_one_complete (session : Session) (tomorrow : string)
  (self : Self) (o : ScoredOpportunity) (l : SfResults) (t : Trace) :
  ScoredRows.update_one session tomorrow self (ScoredRows.complete o) l t
  = (inr (fst (update_one session tomorrow self o l t)),
     snd (update_one session tomorrow self o l t)).
Proof.
  unfold ScoredRows.update_one, update_one. cbn [ScoredRows.subscripts
    ScoredRows.complete ScoredRows.id ScoredRows.winProbability
    ScoredRows.nextBestProduct].
  fold (ScoredRows.complete o). rewrite try_update_complete.
  destruct (try_update session tomorrow self o l t) as [[l' [e |]] t'];
    reflexivity.
Qed.

Lemma update_loop_complete (session : Session) (tomorrow : string)
  (self : Self) (scored : list ScoredOpportunity) :
  forall l t,
    ScoredRows.update_loop session tomorrow self
      (map ScoredRows.complete scored) l t
    = (inr (fst (update_loop session tomorrow self scored l t)),
       snd (update_loop session tomorrow self scored l t)).
Proof.
  induction scored as [|o rest IH]; intros l t; [reflexivity |].
  cbn [map ScoredRows.update_loop update_loop]. unfold bind.
  rewrite update_one_complete.
  destruct (update_one session tomorrow self o l t) as [l' t'].
  cbn [fst snd]. apply IH.
Qed.

(** The stage on rows that have the four keys. *)
Lemma update_salesforce_complete (session : Session) (tomorrow : string)
  (self : Self) (scored : list ScoredOpportunity) (t : Trace) :
  ScoredRows.update_salesforce session tomorrow self
    (map ScoredRows.complete scored) t
  = update_salesforce session tomorrow self scored t.
Proof.
  destruct scored as [|o rest]; [reflexivity |].
  unfold ScoredRows.update_salesforce, update_salesforce.
  cbn [map]. change (ScoredRows.complete o :: map ScoredRows.complete rest)
    with (map ScoredRows.complete (o :: rest)).
  unfold bind. rewrite update_loop_complete.
  destruct (update_loop session tomorrow self (o :: rest) initial_locals t).
  reflexivity.
Qed.

Lemma score_loop_complete (session : Session) (self : Self)
  (opportunities : list Opportunity) :
  forall attempts t,
    ScoredRows.score_loop session (ScoredRows.complete_scoring session) self
      opportunities attempts t
    = match score_loop session self opportunities attempts t with
      | (inr scored, t') => (inr (map ScoredRows.complete scored), t')
      | (inl e, t') => (inl e, t')
      end.
Proof.
  induction attempts as [|attempt rest IH]; intro t; [reflexivity |].
  cbn [ScoredRows.score_loop score_loop].
  unfold bind, ScoredRows.send_score, send, ScoredRows.complete_scoring.
  destruct (reply session t (DatabricksScore "prod_fin_sales_v2" opportunities))
    as [status json | e].
  - destruct json as [[rows | scored | i u | i c | st] |];
      destruct (status =? 200)%Z; try reflexivity;
      try (destruct (is_5xx status && (attempt <? max_retries self)%nat);
           unfold except_clause, bind, sleep;
           try destruct (attempt <? max_retries self)%nat;
           try apply IH; reflexivity);
      unfold except_clause, bind, sleep;
      destruct (attempt <? max_retries self)%nat;
      try apply IH; reflexivity.
  - unfold except_clause, bind, sleep.
    destruct (attempt <? max_retries self)%nat; [apply IH | reflexivity].
Qed.

(** A run of [OrchestratorAgent] is the run on dictionaries against a
    scoring service whose rows have the four keys. *)
Lemma run_workflow_complete (session : Session) (today tomorrow : string)
  (self : Self) (t : Trace) :
  ScoredRows.run_workflow session (ScoredRows.complete_scoring session)
    today tomorrow self t
  = (ScoredRows.complete_result
       (fst (run_workflow session today tomorrow self t)),
     snd (run_workflow session today tomorrow self t)).
Proof.
  unfold ScoredRows.run_workflow, ScoredRows.workflow_steps, run_workflow,
    workflow_steps, bind.
  destruct (fetch_opportunities session self t) as [[e | rows] t1];
    [reflexivity |].
  assert (Hscore :
    ScoredRows.score_opportunities session
      (ScoredRows.complete_scoring session) self rows t1
    = match score_opportunities session self rows t1 with
      | (inr scored, t') => (inr (map ScoredRows.complete scored), t')
      | (inl e, t') => (inl e, t')
      end).
  { unfold ScoredRows.score_opportunities, score_opportunities.
    destruct rows; [reflexivity | apply score_loop_complete]. }
  rewrite Hscore. clear Hscore.
  destruct (score_opportunities session self rows t1) as [[e | scored] t2];
    [reflexivity |].
  rewrite update_salesforce_complete.
  destruct (update_salesforce session tomorrow self scored t2)
    as [[e | [| sf]] t3]; try reflexivity.
  cbn [subscript ret].
  destruct (write_summary session today self sf t3) as [[e | data] t4];
    reflexivity.
Qed.








(** The wording of the specification fails where an update is rejected:
    with the sample rows and the update of opp_001 (win probability 0.9)
    answered 404, the run succeeds and reports one high-priority deal,
    while two scored opportunities are above 0.8. *)
Lemma rejected_update_is_not_counted :
  let session :=
    stub_session Samples.agent (Samples.update_rejected "opp_001") in
  let result :=
    fst (run_workflow session "2026-01-01" "2026-01-02" Samples.agent []) in
  get "status" result = Some (VScalar (VStr "success")) /\
  ~ counts_all_high_priority result.
Proof.
  intros session result. split; [vm_compute; reflexivity |].
  intros (scored & summary & n & Hopps & Hsummary & Hcount & Hn).
  vm_compute in Hopps. inversion Hopps; subst scored; clear Hopps.
  vm_compute in Hsummary. inversion Hsummary; subst summary; clear Hsummary.
  vm_compute in Hcount. inversion Hcount as [Hone]; clear Hcount.
  rewrite <- Hone in Hn. vm_compute in Hn. discriminate.
Qed.

(** C4, as the code has it. When the update service answers by the
    opportunity alone and follow-up requests raise nothing, the summary of
    a successful run has: as highPriorityCount the number of scored
    opportunities whose update succeeded and whose win probability is above
    0.8, and as totalPipelineValue the sum of the amounts of the same
    opportunities. *)
Theorem aggregate_counts_updated_high_priority :
  forall (session : Session) (today tomorrow : string) (self : Self)
         (upd : ScoredOpportunity -> Reply) (t t' : Trace) (result : Dict),
    (forall t o, reply session t (update_request o) = upd o) ->
    (forall t o,
       answered (reply session t (task_request tomorrow o)) = true) ->
    run_workflow session today tomorrow self t = (result, t') ->
    get "status" result = Some (VScalar (VStr "success")) ->
    exists scored summary n total,
      get "opportunities" result = Some (VOpportunities scored) /\
      get "summary" result = Some (VDict summary) /\
      get "highPriorityCount" summary = Some (VInt n) /\
      get "totalPipelineValue" summary = Some (VNum total) /\
      n = Z.of_nat (List.length (filter (counted upd) scored)) /\
      total == sum_amounts (filter (counted upd) scored).
Proof.
  intros session today tomorrow self upd t t' result Hupd Htask Hrun Hstatus.
  destruct (run_workflow_success session today tomorrow self t t' result
              Hrun Hstatus)
    as (rows & t1 & scored & t2 & sf & t3 & data
        & _ & _ & Hstage & _ & Hresult).
  assert (Hne : scored <> []).
  { intro E. subst scored. cbn in Hstage. discriminate. }
  rewrite (update_salesforce_loop session tomorrow self scored t2 Hne)
    in Hstage.
  pose proof (update_loop_stateless session tomorrow self upd Hupd Htask
                scored initial_locals t2) as Hloop.
  cbv zeta in Hloop.
  destruct (update_loop session tomorrow self scored initial_locals t2)
    as [sf' t3'].
  cbn [fst snd] in Hloop, Hstage. inversion Hstage; subst sf' t3'.
  destruct Hloop as (_ & _ & Hh & Ht & _ & _).
  cbn [initial_locals high_priority_count total_pipeline_value] in Hh, Ht.
  exists scored,
    [ ("runDate", VStr today);
      ("highPriorityCount", VInt (high_priority_count sf));
      ("totalPipelineValue", VNum (total_pipeline_value sf)) ],
    (high_priority_count sf), (total_pipeline_value sf).
  subst result. repeat split; try reflexivity.
  - rewrite Hh. lia.
  - rewrite Ht. lra.
Qed.

Lemma aggregate_counts_updated_high_priority_witness :
  let session := stub_session Samples.agent Samples.healthy in
  let result :=
    fst (run_workflow session "2026-01-01" "2026-01-02" Samples.agent []) in
  exists summary,
    get "summary" result = Some (VDict summary) /\
    get "highPriorityCount" summary = Some (VInt 2).
Proof.
  intros session result.
  destruct (aggregate_counts_updated_high_priority session "2026-01-01"
              "2026-01-02" Samples.agent
              (fun o => Response 200 (Some (UpdateResult (id o) true)))
              [] (snd (run_workflow session "2026-01-01" "2026-01-02"
                         Samples.agent []))
              result)
    as (scored & summary & n & total & Hopps & Hsummary & Hn & _ & Hcount & _).
  - intros t o. reflexivity.
  - intros t o. reflexivity.
  - apply surjective_pairing.
  - vm_compute. reflexivity.
  - exists summary. split; [exact Hsummary |].
    rewrite Hn, Hcount. vm_compute in Hopps.
    inversion Hopps; subst scored. reflexivity.
Defined.

(** *** An update that succeeds on a retry *)

Section RetriedUpdate.

Variable session : Session.
Variable tomorrow : string.
Variable self : Self.
Variable o : ScoredOpportunity.
Variable script : nat -> Reply.

Let u : Request := update_request o.

Hypothesis Hscript : follows_script session self u script.

Lemma retry_update_recovers (l : SfResults) (result : Json) :
  forall j first n t,
    (forall i, (i < j)%nat ->
       not_200 (script (calls (to_url self u) t + i)%nat) = true) ->
    script (calls (to_url self u) t + j)%nat = Response 200 (Some result) ->
    (j < n)%nat ->
    retry_update session self o (seq first n) l t
    = ((add_updated result l, None), t ++ retries_trace self u first j).
Proof.
  induction j as [|j IH]; intros first n t Hfail Hok Hn;
    (destruct n as [|n]; [lia |]);
    cbn [seq retry_update retries_trace]; unfold send_in; fold u;
    rewrite Hscript, calls_sleep.
  - rewrite Nat.add_0_r in Hok. rewrite Hok. cbn.
    rewrite <- app_assoc. reflexivity.
  - pose proof (Hfail 0%nat ltac:(lia)) as H0. rewrite Nat.add_0_r in H0.
    destruct (script (calls (to_url self u) t)) as [status json | e];
      cbn [not_200] in H0; [| discriminate].
    apply negb_true_iff in H0. rewrite H0.
    rewrite (IH (S first) n).
    + rewrite <- !app_assoc. reflexivity.
    + intros i Hi. rewrite calls_call, calls_sleep, to_url_refl.
      replace (calls (to_url self u) t + 1 + i)%nat
        with (calls (to_url self u) t + S i)%nat by lia.
      apply Hfail. lia.
    + rewrite calls_call, calls_sleep, to_url_refl.
      replace (calls (to_url self u) t + 1 + j)%nat
        with (calls (to_url self u) t + S j)%nat by lia.
      exact Hok.
    + lia.
Qed.

Lemma retries_trace_no_task (first j : nat) :
  calls is_task (retries_trace self u first j) = 0%nat.
Proof.
  revert first. induction j as [|j IH]; intro first; [reflexivity |].
  cbn [retries_trace]. change (calls is_task (?a :: ?b :: ?r))
    with (calls is_task r). apply IH.
Qed.

End RetriedUpdate.

(** C10. An opportunity whose update is answered 5xx and then, on an inline
    retry, 200: its record joins updated_records, and nothing else changes;
    no follow-up request is sent and neither aggregate moves, whatever its
    win probability. An opportunity whose update is answered 200 at once
    gets its follow-up request and, above 0.8, enters both aggregates. *)
Theorem retried_update_is_left_out :
  forall (session : Session) (tomorrow : string) (self : Self)
         (o : ScoredOpportunity) (l : SfResults) (t : Trace),
    (forall (script : nat -> Reply) (j : nat) (result : Json),
        let n0 := calls (to_url self (update_request o)) t in
        follows_script session self (update_request o) script ->
        (exists status json,
            script n0 = Response status json /\ is_5xx status = true) ->
        (forall i, (i < j)%nat -> not_200 (script (n0 + 1 + i)%nat) = true) ->
        script (n0 + 1 + j)%nat = Response 200 (Some result) ->
        (j < max_retries self)%nat ->
        let run := update_one session tomorrow self o l t in
        updated_records (fst run) = updated_records l ++ [result] /\
        created_tasks (fst run) = created_tasks l /\
        error_records (fst run) = error_records l /\
        high_priority_count (fst run) = high_priority_count l /\
        total_pipeline_value (fst run) = total_pipeline_value l /\
        calls is_task (snd run) = calls is_task t) /\
    (forall (result : Json),
        reply session t (update_request o) = Response 200 (Some result) ->
        answered (reply session (t ++ [Call (update_request o)])
                    (task_request tomorrow o)) = true ->
        let run := update_one session tomorrow self o l t in
        updated_records (fst run) = updated_records l ++ [result] /\
        calls is_task (snd run) = (calls is_task t + 1)%nat /\
        (high_priority o = true ->
         high_priority_count (fst run) = (high_priority_count l + 1)%Z /\
         total_pipeline_value (fst run)
         = total_pipeline_value l + amount o)).
Proof.
  intros session tomorrow self o l t. split.
  - intros script j result n0 Hscript (status & json & E0 & E5) Hfail Hok Hj run.
    assert (Hrun : run = (add_updated result l,
                          (t ++ [Call (update_request o)])
                            ++ retries_trace self (update_request o) 0 j)).
    { unfold run, update_one, try_update, send_in.
      rewrite Hscript. fold n0. rewrite E0.
      rewrite (is_5xx_not_200 _ E5), (is_5xx_not_4xx _ E5), E5.
      rewrite (retry_update_recovers session self o script Hscript l result
                 j 0 (max_retries self)); [reflexivity | | | exact Hj].
      - intros i Hi. rewrite calls_call, to_url_refl. apply Hfail. exact Hi.
      - rewrite calls_call, to_url_refl. exact Hok. }
    rewrite Hrun. cbn [fst snd add_updated updated_records created_tasks
                         error_records high_priority_count
                         total_pipeline_value].
    repeat split.
    rewrite calls_app, calls_call, retries_trace_no_task. cbn. lia.
  - intros result Hreply Htask run.
    unfold run, update_one, try_update, send_in. rewrite Hreply.
    cbn [Z.eqb Pos.eqb].
    destruct (reply session (t ++ [Call (update_request o)])
                (task_request tomorrow o)) as [ts [tj |] | te];
      cbn [answered] in Htask; try discriminate;
      destruct (ts =? 200)%Z eqn:Ets; cbn in Htask; try discriminate;
      cbn [fst snd]; unfold track_high_priority, high_priority;
      destruct (Qltb 0.8 (winProbability o));
      cbn [updated_records high_priority_count total_pipeline_value
           add_updated add_task];
      rewrite !calls_call; cbn [is_task update_request task_request];
      repeat split; try reflexivity; try lia; try discriminate.
Qed.

Lemma retried_update_is_left_out_witness :
  let session := stub_session Samples.agent (Samples.flaky 1) in
  let o := mkScored "opp_001" 250000 0.9 "Trading Platform" in
  let run := update_one session "2026-01-02" Samples.agent o initial_locals [] in
  updated_records (fst run) = [UpdateResult "opp_001" true] /\
  created_tasks (fst run) = [] /\
  high_priority_count (fst run) = 0%Z /\
  calls is_task (snd run) = 0%nat.
Proof.
  intros session o run.
  destruct (proj1 (retried_update_is_left_out session "2026-01-02"
                     Samples.agent o initial_locals [])
              (Samples.flaky 1 (update_request o)) 0%nat
              (UpdateResult "opp_001" true))
    as (Hu & Hc & _ & Hh & _ & Ht).
  - intro t. reflexivity.
  - exists 503%Z, None. split; reflexivity.
  - intros i Hi. lia.
  - reflexivity.
  - cbn. lia.
  - repeat split; assumption.
Defined.

(** The wording of the specification fails: the result of a successful run
    on the sample rows has the five keys status, opportunities, tasks,
    summary and errors, and its summary has the three keys runDate,
    highPriorityCount and totalPipelineValue; no average win probability is
    in it, under any name. *)
Lemma success_result_has_no_average :
  let session := stub_session Samples.agent Samples.healthy in
  let result :=
    fst (run_workflow session "2026-01-01" "2026-01-02" Samples.agent []) in
  get "status" result = Some (VScalar (VStr "success")) /\
  keys result = ["status"; "opportunities"; "tasks"; "summary"; "errors"] /\
  exists summary,
    get "summary" result = Some (VDict summary) /\
    keys summary = ["runDate"; "highPriorityCount"; "totalPipelineValue"] /\
    get "avgWinProbability" summary = None.
Proof.
  intros session result. split; [vm_compute; reflexivity |].
  split; [vm_compute; reflexivity |].
  eexists. split; [vm_compute; reflexivity |].
  split; reflexivity.
Qed.

(** C9, as the code has it. The result of every successful run has exactly
    the keys status, opportunities, tasks, summary and errors: status is
    success, opportunities is the list the scoring stage returned, tasks
    the follow-up results and errors the per-record error identifiers the
    update stage collected, and summary has exactly the keys runDate,
    highPriorityCount and totalPipelineValue, the last two being the
    aggregates of the update stage. No average win probability is computed
    or returned. *)
Theorem success_result_contents :
  forall (session : Session) (today tomorrow : string) (self : Self)
         (t t' : Trace) (result : Dict),
    run_workflow session today tomorrow self t = (result, t') ->
    get "status" result = Some (VScalar (VStr "success")) ->
    exists rows t1 scored t2 sf t3,
      fetch_opportunities session self t = (inr rows, t1) /\
      score_opportunities session self rows t1 = (inr scored, t2) /\
      update_salesforce session tomorrow self scored t2
      = (inr (Results sf), t3) /\
      keys result = ["status"; "opportunities"; "tasks"; "summary"; "errors"] /\
      get "opportunities" result = Some (VOpportunities scored) /\
      get "tasks" result = Some (VJsons (created_tasks sf)) /\
      get "errors" result = Some (VStrs (error_records sf)) /\
      get "summary" result
      = Some (VDict
          [ ("runDate", VStr today);
            ("highPriorityCount", VInt (high_priority_count sf));
            ("totalPipelineValue", VNum (total_pipeline_value sf)) ]) /\
      (forall summary,
          get "summary" result = Some (VDict summary) ->
          keys summary = ["runDate"; "highPriorityCount"; "totalPipelineValue"] /\
          get "avgWinProbability" summary = None).
Proof.
  intros session today tomorrow self t t' result Hrun Hstatus.
  destruct (run_workflow_success session today tomorrow self t t' result
              Hrun Hstatus)
    as (rows & t1 & scored & t2 & sf & t3 & data
        & Hfetch & Hscore & Hupdate & _ & Hresult).
  exists rows, t1, scored, t2, sf, t3. subst result.
  repeat (split; [assumption || reflexivity |]).
  intros summary Hsummary. cbn in Hsummary. inversion Hsummary; subst summary.
  split; reflexivity.
Qed.

Lemma success_result_contents_witness :
  let session := stub_session Samples.agent Samples.healthy in
  let result :=
    fst (run_workflow session "2026-01-01" "2026-01-02" Samples.agent []) in
  get "opportunities" result = Some (VOpportunities Samples.sample_scored) /\
  get "errors" result = Some (VStrs []) /\
  get "summary" result
  = Some (VDict [ ("runDate", VStr "2026-01-01");
                  ("highPriorityCount", VInt 2);
                  ("totalPipelineValue", VNum (0 + 250000 + 75000)) ]).
Proof.
  intros session result.
  destruct (success_result_contents session "2026-01-01" "2026-01-02"
              Samples.agent []
              (snd (run_workflow session "2026-01-01" "2026-01-02"
                      Samples.agent []))
              result)
    as (rows & t1 & scored & t2 & sf & t3 & Hfetch & Hscore & Hupdate
        & _ & Hopps & _ & Herrors & Hsummary & _).
  - apply surjective_pairing.
  - vm_compute. reflexivity.
  - vm_compute in Hfetch. inversion Hfetch; subst rows t1.
    vm_compute in Hscore. inversion Hscore; subst scored t2.
    rewrite Hopps, Herrors, Hsummary.
    vm_compute in Hupdate. inversion Hupdate; subst sf.
    repeat split; reflexivity.
Defined.

End UpdateProofs.

(** ** The router *)

Module RouterProofs.

Import Api.
Open Scope list_scope.

Section Dispatch.

Variables coordinator_agent route_optimizer_agent fleet_monitor_agent
  data_retriever_agent notification_agent : Handler.

Let dispatch :=
  process_with_agents coordinator_agent route_optimizer_agent
    fleet_monitor_agent data_retriever_agent notification_agent.

Let handlers : list Handler :=
  [coordinator_agent; route_optimizer_agent; fleet_monitor_agent;
   data_retriever_agent; notification_agent].

Lemma specialist_in (next_agent : string) :
  In (snd (specialist route_optimizer_agent fleet_monitor_agent
             data_retriever_agent notification_agent next_agent)) handlers.
Proof.
  unfold specialist, handlers.
  repeat match goal with
  | |- context [String.eqb ?a ?b] => destruct (String.eqb a b)
  end; cbn; tauto.
Qed.

Lemma step4_shape (state : State) (invoked : list string) :
  let run := step4 notification_agent state invoked in
  (exists notif, snd run = invoked ++ notif /\
     (notif = [] \/ notif = ["notification_agent"])) /\
  (forall e c, fst run = ErrorResult e c ->
     exists handler st, In handler handlers /\ handler st = Raised e c) /\
  (returns notification_agent ->
   exists st, fst run = FinalResult st (context st)).
Proof.
  unfold step4. destruct (String.eqb (next state) "notification").
  - destruct (notification_agent state) as [st | e c] eqn:E; cbn [fst snd].
    + split; [exists ["notification_agent"]; auto |].
      split; [intros ? ? H; discriminate | eauto].
    + split; [exists ["notification_agent"]; auto |]. split.
      * intros e' c' H. inversion H; subst.
        exists notification_agent, state. split; [cbn; tauto | exact E].
      * intro Hr. destruct (Hr state) as [st Hst]. congruence.
  - cbn [fst snd]. split; [exists []; rewrite app_nil_r; auto |].
    split; [intros ? ? H; discriminate | eauto].
Qed.

Lemma step3_shape (state : State) (invoked : list string) :
  let run := step3 data_retriever_agent notification_agent state invoked in
  (exists data notif, snd run = invoked ++ data ++ notif /\
     (data = [] \/ data = ["data_retriever_agent"]) /\
     (notif = [] \/ notif = ["notification_agent"])) /\
  (forall e c, fst run = ErrorResult e c ->
     exists handler st, In handler handlers /\ handler st = Raised e c) /\
  (returns data_retriever_agent -> returns notification_agent ->
   exists st, fst run = FinalResult st (context st)).
Proof.
  unfold step3. destruct (String.eqb (next state) "data_retriever").
  - destruct (data_retriever_agent state) as [st | e c] eqn:E.
    + destruct (step4_shape st (invoked ++ ["data_retriever_agent"]))
        as ((notif & Hs & Hn) & He & Hr).
      split; [| split; [exact He | intros _ H; exact (Hr H)]].
      exists ["data_retriever_agent"], notif.
      rewrite Hs, <- app_assoc. auto.
    + cbn [fst snd]. split; [| split].
      * exists ["data_retriever_agent"], []. rewrite app_nil_r. auto.
      * intros e' c' H. inversion H; subst.
        exists data_retriever_agent, state. split; [cbn; tauto | exact E].
      * intros Hr _. destruct (Hr state) as [st Hst]. congruence.
  - destruct (step4_shape state invoked) as ((notif & Hs & Hn) & He & Hr).
    split; [| split; [exact He | intros _ H; exact (Hr H)]].
    exists [], notif. cbn [app]. auto.
Qed.

Lemma dispatch_shape (user_input : string) (context0 : Context) :
  let run := dispatch user_input context0 in
  chain_shape (snd run) /\
  (forall e c, fst run = ErrorResult e c ->
     exists handler st, In handler handlers /\ handler st = Raised e c) /\
  ((forall handler, In handler handlers -> returns handler) ->
   exists st, fst run = FinalResult st (context st)).
Proof.
  unfold dispatch, process_with_agents.
  set (state0 := {| input := user_input; context := context0; next := "" |}).
  destruct (coordinator_agent state0) as [st | e c] eqn:E.
  - pose proof (specialist_in (next st)) as Hin.
    destruct (specialist route_optimizer_agent fleet_monitor_agent
                data_retriever_agent notification_agent (next st))
      as [name agent].
    cbn [snd] in Hin.
    destruct (agent st) as [st' | e c] eqn:E'.
    + destruct (step3_shape st' ["coordinator_agent"; name])
        as ((data & notif & Hs & Hd & Hn) & He & Hr).
      split; [| split; [exact He |]].
      * right. exists name, data, notif. auto.
      * intro Hall. apply Hr; apply Hall; cbn; tauto.
    + cbn [fst snd]. split; [| split].
      * right. exists name, [], []. auto.
      * intros e' c' H. inversion H; subst. exists agent, st. auto.
      * intro Hall. destruct (Hall agent Hin st) as [st' Hst]. congruence.
  - cbn [fst snd]. split; [left; reflexivity | split].
    + intros e' c' H. inversion H; subst.
      exists coordinator_agent, state0. split; [cbn; tauto | exact E].
    + intro Hall.
      destruct (Hall coordinator_agent ltac:(cbn; tauto) state0) as [st Hst].
      congruence.
Qed.

Lemma chain_shape_length (invoked : list string) :
  chain_shape invoked -> (List.length invoked <= 4)%nat.
Proof.
  intros [-> | (name & data & notif & -> & [-> | ->] & [-> | ->])];
    cbn; lia.
Qed.

End Dispatch.

(** The wording of the specification fails: handlers that always hand over
    to the notifier make the dispatcher return the last state as its
    result, with a non-terminal next and no error. *)
Lemma redirecting_handlers_end_without_error :
  let h := Stubs.redirecting "notification" in
  ~ ends_terminal_or_error
      (process_with_agents h h h h h "hello" Stubs.empty_context).
Proof. intros h H. vm_compute in H. discriminate. Qed.

Lemma specialist_named
  (co ro fm dr nt : Handler) (next_agent : string) :
  handler_named co ro fm dr nt (fst (specialist ro fm dr nt next_agent))
  = snd (specialist ro fm dr nt next_agent).
Proof.
  unfold specialist.
  repeat match goal with
  | |- context [String.eqb next_agent ?b] => destruct (String.eqb next_agent b)
  end; reflexivity.
Qed.

(** C7, as the code has it. For every input and every five handlers the
    dispatcher invokes between one and four of them: the coordinator, then
    the specialist the coordinator's next names (the route optimizer when it
    names none), then the data retriever when the state then says
    data_retriever, then the notifier when the state then says
    notification. Each is called on the state the one before returned, a
    handler is called only after those before it returned, and the result
    is what the last one gave: its state, whatever its next, or its
    exception. The dispatcher has no error of its own and no hop counter:
    an error result carries the exception of a handler that raised, and
    when the handlers all return the result is the state the last invoked
    handler returned. *)
Theorem dispatcher_chain_is_bounded :
  forall (coordinator_agent route_optimizer_agent fleet_monitor_agent
            data_retriever_agent notification_agent : Handler)
         (user_input : string) (context0 : Context),
    let handlers :=
      [coordinator_agent; route_optimizer_agent; fleet_monitor_agent;
       data_retriever_agent; notification_agent] in
    let run :=
      process_with_agents coordinator_agent route_optimizer_agent
        fleet_monitor_agent data_retriever_agent notification_agent
        user_input context0 in
    let state0 := {| input := user_input; context := context0; next := "" |} in
    let invoked := snd run in
    let outcome :=
      chain coordinator_agent route_optimizer_agent fleet_monitor_agent
        data_retriever_agent notification_agent state0 in
    (1 <= List.length invoked <= 4)%nat /\
    chain_shape invoked /\
    (forall n, (n < List.length invoked)%nat ->
       exists state, outcome (firstn n invoked) = Returned state) /\
    match outcome invoked with
    | Returned state => fst run = FinalResult state (context state)
    | Raised e c => fst run = ErrorResult e c
    end /\
    (forall state, coordinator_agent state0 = Returned state ->
       exists rest,
         invoked
         = "coordinator_agent"
             :: fst (specialist route_optimizer_agent fleet_monitor_agent
                       data_retriever_agent notification_agent (next state))
             :: rest) /\
    (forall n state, (2 <= n < List.length invoked)%nat ->
       outcome (firstn n invoked) = Returned state ->
       (n = 2%nat /\ nth n invoked "" = "data_retriever_agent" /\
        next state = "data_retriever") \/
       (nth n invoked "" = "notification_agent" /\
        next state = "notification")) /\
    (forall state c, fst run = FinalResult state c ->
       (2 <= List.length invoked)%nat /\
       (next state = "data_retriever" -> (3 <= List.length invoked)%nat) /\
       (next state = "notification" ->
        (3 <= List.length invoked)%nat /\
        last invoked "" = "notification_agent")) /\
    (forall e c, fst run = ErrorResult e c ->
       exists handler state,
         In handler handlers /\ handler state = Raised e c) /\
    ((forall handler, In handler handlers -> returns handler) ->
     exists state,
       fst run = FinalResult state (context state) /\
       outcome invoked = Returned state).
Proof.
  intros co ro fm dr nt user_input context0 handlers run state0 invoked
    outcome.
  destruct (dispatch_shape co ro fm dr nt user_input context0)
    as (Hshape & Herr & Hret).
  fold run in Hshape, Herr, Hret. fold invoked in Hshape.
  assert (Hco : handler_named co ro fm dr nt "coordinator_agent" = co)
    by reflexivity.
  assert (Hdr : handler_named co ro fm dr nt "data_retriever_agent" = dr)
    by reflexivity.
  assert (Hnt : handler_named co ro fm dr nt "notification_agent" = nt)
    by reflexivity.
  assert (Hall :
    (1 <= List.length invoked)%nat /\
    (forall n, (n < List.length invoked)%nat ->
       exists state, outcome (firstn n invoked) = Returned state) /\
    match outcome invoked with
    | Returned state => fst run = FinalResult state (context state)
    | Raised e c => fst run = ErrorResult e c
    end /\
    (forall state, co state0 = Returned state ->
       exists rest,
         invoked
         = "coordinator_agent"
             :: fst (specialist ro fm dr nt (next state)) :: rest) /\
    (forall n state, (2 <= n < List.length invoked)%nat ->
       outcome (firstn n invoked) = Returned state ->
       (n = 2%nat /\ nth n invoked "" = "data_retriever_agent" /\
        next state = "data_retriever") \/
       (nth n invoked "" = "notification_agent" /\
        next state = "notification")) /\
    (forall state c, fst run = FinalResult state c ->
       (2 <= List.length invoked)%nat /\
       (next state = "data_retriever" -> (3 <= List.length invoked)%nat) /\
       (next state = "notification" ->
        (3 <= List.length invoked)%nat /\
        last invoked "" = "notification_agent"))).
  { subst invoked outcome run. unfold process_with_agents. fold state0.
    destruct (co state0) as [st1 | e1 c1] eqn:E1.
    2: { cbn [fst snd List.length].
         split; [lia |]. split.
         { intros n Hn. assert (n = 0)%nat by lia. subst n. cbn. eauto. }
         split; [cbn [chain]; rewrite Hco, E1; reflexivity |].
         split; [intros st H; discriminate H |].
         split; [intros n st Hn; lia |].
         intros st c H; discriminate H. }
    pose proof (specialist_named co ro fm dr nt (next st1)) as Hname.
    destruct (specialist ro fm dr nt (next st1)) as [name agent] eqn:Es.
    cbn [fst snd] in Hname.
    destruct (agent st1) as [st2 | e2 c2] eqn:E2.
    2: { cbn [fst snd List.length].
         split; [lia |]. split.
         { intros n Hn. destruct n as [|[|n]]; [| | lia]; cbn [firstn chain];
             rewrite ?Hco, ?E1; eauto. }
         split; [cbn [chain]; rewrite Hco, E1, Hname, E2; reflexivity |].
         split; [intros st H; inversion H; subst;
                rewrite ?Es; cbn [fst]; eexists; reflexivity |].
         split; [intros n st Hn; lia |].
         intros st c H; discriminate H. }
    unfold step3, step4.
    destruct (String.eqb_spec (next st2) "data_retriever") as [D | D];
      [destruct (dr st2) as [st3 | e3 c3] eqn:E3 |];
      repeat match goal with
      | |- context [String.eqb (next ?s) "notification"] =>
          destruct (String.eqb_spec (next s) "notification") as [N | N]
      end;
      repeat match goal with
      | |- context [match nt ?s with _ => _ end] =>
          let E := fresh "E4" in destruct (nt s) eqn:E
      end;
      cbn [fst snd List.length app];
      (split; [lia |]);
      (split;
       [intros n Hn; destruct n as [|[|[|[|n]]]]; try lia;
        cbn [firstn chain];
        rewrite ?Hco, ?E1, ?Hname, ?E2, ?Hdr, ?E3, ?Hnt; eauto |]);
      (split;
       [cbn [chain];
        repeat (rewrite ?Hco, ?E1, ?Hname, ?E2, ?Hdr, ?E3, ?Hnt;
                try match goal with H : nt _ = _ |- _ => rewrite H end);
        reflexivity |]);
      (split; [intros st H; inversion H; subst;
               rewrite ?Es; cbn [fst]; eexists; reflexivity |]);
      (split;
       [intros n st Hn; destruct n as [|[|[|[|n]]]]; try lia;
        cbn [firstn chain nth];
        rewrite ?Hco, ?E1, ?Hname, ?E2, ?Hdr, ?E3, ?Hnt;
        intro H; inversion H; subst; auto |]);
      intros st c H; try discriminate H; inversion H; subst;
      (split; [lia |]); split; intro Hn; try contradiction; try lia;
      try (split; [lia | reflexivity]). }
  destruct Hall as (H1 & H2 & H3 & H4 & H5 & H6).
  split; [split; [exact H1 | apply chain_shape_length; exact Hshape] |].
  split; [exact Hshape |]. split; [exact H2 |]. split; [exact H3 |].
  split; [exact H4 |]. split; [exact H5 |]. split; [exact H6 |].
  split; [exact Herr |].
  intro Hreturns. destruct (Hret Hreturns) as (st & Hst).
  exists st. split; [exact Hst |].
  rewrite Hst in H3. destruct (outcome invoked); inversion H3; reflexivity.
Qed.

Lemma dispatcher_chain_is_bounded_witness :
  let h := Stubs.redirecting "notification" in
  let run := process_with_agents h h h h h "hello" Stubs.empty_context in
  snd run = ["coordinator_agent"; "notification_agent"; "notification_agent"] /\
  exists state,
    fst run = FinalResult state (context state) /\
    chain h h h h h (Stubs.first_state "hello") (snd run) = Returned state /\
    next state = "notification".
Proof.
  intros h run. split; [reflexivity |].
  destruct (dispatcher_chain_is_bounded h h h h h "hello" Stubs.empty_context)
    as (_ & _ & _ & _ & _ & _ & _ & _ & Hreturns).
  destruct Hreturns as (state & Hresult & Hchain).
  - intros handler Hin state. cbn in Hin.
    repeat (destruct Hin as [<- | Hin]; [eexists; reflexivity |]).
    contradiction.
  - exists state. split; [exact Hresult | split; [exact Hchain |]].
    vm_compute in Hchain. inversion Hchain. reflexivity.
Defined.

(** *** The fallback *)

Lemma route_known (content : string) :
  In (Coordinator.route content)
     ["route_optimizer"; "fleet_monitor"; "data_retriever"; "notification"].
Proof.
  unfold Coordinator.route.
  repeat match goal with
  | |- context [contains ?a ?b] => destruct (contains a b)
  end; cbn; tauto.
Qed.

Lemma specialist_default
  (route_optimizer_agent fleet_monitor_agent data_retriever_agent
     notification_agent : Handler) (next_agent : string) :
  next_agent <> "fleet_monitor" ->
  next_agent <> "data_retriever" ->
  next_agent <> "notification" ->
  specialist route_optimizer_agent fleet_monitor_agent data_retriever_agent
    notification_agent next_agent
  = ("route_optimizer_agent", route_optimizer_agent).
Proof.
  intros H1 H2 H3. unfold specialist.
  apply String.eqb_neq in H1, H2, H3. rewrite H1, H2, H3.
  destruct (String.eqb next_agent "route_optimizer"); reflexivity.
Qed.

(** C8. When the completion text holds none of the four capability names
    (read in lower case, as the coordinator reads it), the coordinator sets
    next to route_optimizer; whatever the text, next is one of the four
    names; and the dispatcher invokes the route optimizer for every next
    value that is not one of the other three. *)
Theorem routing_defaults_to_route_optimizer :
  (forall (client : list Message -> string + string) (state : State)
          (content : string),
      client (Coordinator.messages_for state) = inr content ->
      exists state',
        Coordinator.coordinator_agent client state = Returned state' /\
        In (next state')
           ["route_optimizer"; "fleet_monitor"; "data_retriever";
            "notification"] /\
        next_agent (context state') = Some (next state') /\
        (contains "route_optimizer" (lower content) = false ->
         contains "fleet_monitor" (lower content) = false ->
         contains "data_retriever" (lower content) = false ->
         contains "notification" (lower content) = false ->
         next state' = "route_optimizer")) /\
  (forall (coordinator_agent route_optimizer_agent fleet_monitor_agent
             data_retriever_agent notification_agent : Handler)
          (user_input : string) (context0 : Context) (state : State),
      coordinator_agent
        {| input := user_input; context := context0; next := "" |}
      = Returned state ->
      next state <> "fleet_monitor" ->
      next state <> "data_retriever" ->
      next state <> "notification" ->
      specialist route_optimizer_agent fleet_monitor_agent
        data_retriever_agent notification_agent (next state)
      = ("route_optimizer_agent", route_optimizer_agent) /\
      exists rest,
        snd (process_with_agents coordinator_agent route_optimizer_agent
               fleet_monitor_agent data_retriever_agent notification_agent
               user_input context0)
        = "coordinator_agent" :: "route_optimizer_agent" :: rest).
Proof.
  split.
  - intros client state content Hclient.
    unfold Coordinator.coordinator_agent. rewrite Hclient.
    eexists. split; [reflexivity |]. cbn [next context next_agent].
    split; [apply route_known | split; [reflexivity |]].
    intros H1 H2 H3 H4. unfold Coordinator.route.
    rewrite H1, H2, H3, H4. reflexivity.
  - intros co ro fm dr nt user_input context0 state Hco H1 H2 H3.
    pose proof (specialist_default ro fm dr nt (next state) H1 H2 H3) as Hsp.
    split; [exact Hsp |].
    unfold process_with_agents. rewrite Hco, Hsp.
    destruct (ro state) as [state' | e c].
    + destruct (step3_shape co ro fm dr nt state'
                  ["coordinator_agent"; "route_optimizer_agent"])
        as ((data & notif & Hs & _) & _).
      rewrite Hs. cbn [app]. eauto.
    + cbn [snd]. eauto.
Qed.

Lemma routing_defaults_to_route_optimizer_witness :
  exists state',
    Coordinator.coordinator_agent (Stubs.fixed_client "I cannot tell.")
      (Stubs.first_state "hello")
    = Returned state' /\
    next state' = "route_optimizer".
Proof.
  destruct (proj1 routing_defaults_to_route_optimizer
              (Stubs.fixed_client "I cannot tell.")
              (Stubs.first_state "hello") "I cannot tell." eq_refl)
    as (state' & Hrun & _ & _ & Hdefault).
  exists state'. split; [exact Hrun |].
  apply Hdefault; reflexivity.
Defined.

End RouterProofs.

(** ** Retry wrappers: every failure, every session *)

Module RetryProofs.

Import OrchestratorAgent.
Import PipelineProofs.
Import Readings.
Open Scope Q_scope.
Open Scope list_scope.

Lemma ge_400_not_200 (status : Z) :
  (400 <=? status)%Z = true -> (status =? 200)%Z = false.
Proof. lia. Qed.

(** *** A service that keeps rejecting *)

Section Rejected.

Variable session : Session.
Variable today : string.
Variable self : Self.
Variable status : Z.
Variable json : option Json.

Lemma fetch_loop_rejected :
  let q := SnowflakeQuery fetch_sql in
  (400 <=? status)%Z = true ->
  (forall t, reply session t q = Response status json) ->
  forall m a t,
    (a + m = max_retries self)%nat ->
    fetch_loop session self (seq a (S m)) t
    = (inl (status_error session status), t ++ attempts_trace self q a m).
Proof.
  intros q H4 Hreply. pose proof (ge_400_not_200 _ H4) as H2.
  induction m as [|m IH]; intros a t Ha.
  - assert (Ha' : (a <? max_retries self)%nat = false)
      by (apply Nat.ltb_ge; lia).
    cbn [seq fetch_loop attempts_trace]. unfold_round. fold q.
    rewrite Hreply, H2, Ha', H4, andb_false_r. reflexivity.
  - assert (Ha' : (a <? max_retries self)%nat = true)
      by (apply Nat.ltb_lt; lia).
    pose proof (IH (S a) ((t ++ [Call q]) ++ [Sleep (backoff_time self a)])
                  ltac:(lia)) as Hnext.
    rewrite <- !app_assoc in Hnext. cbn [app] in Hnext.
    change (seq a (S (S m))) with (a :: seq (S a) (S m)).
    revert Hnext. generalize (seq (S a) (S m)). intros rest Hnext.
    cbn [fetch_loop attempts_trace]. unfold_round. fold q.
    rewrite Hreply, H2, Ha', H4, andb_true_r.
    destruct (is_5xx status); rewrite <- !app_assoc; cbn [app]; exact Hnext.
Qed.

Lemma write_loop_rejected (summary_data : SfResults) :
  let q := summary_request today summary_data in
  (400 <=? status)%Z = true ->
  (forall t, reply session t q = Response status json) ->
  forall m a t,
    (a + m = max_retries self)%nat ->
    write_loop session today self summary_data (seq a (S m)) t
    = (inl (status_error session status), t ++ attempts_trace self q a m).
Proof.
  intros q H4 Hreply. pose proof (ge_400_not_200 _ H4) as H2.
  induction m as [|m IH]; intros a t Ha.
  - assert (Ha' : (a <? max_retries self)%nat = false)
      by (apply Nat.ltb_ge; lia).
    cbn [seq write_loop attempts_trace]. unfold_round. fold q.
    rewrite Hreply, H2, Ha', H4, andb_false_r. reflexivity.
  - assert (Ha' : (a <? max_retries self)%nat = true)
      by (apply Nat.ltb_lt; lia).
    pose proof (IH (S a) ((t ++ [Call q]) ++ [Sleep (backoff_time self a)])
                  ltac:(lia)) as Hnext.
    rewrite <- !app_assoc in Hnext. cbn [app] in Hnext.
    change (seq a (S (S m))) with (a :: seq (S a) (S m)).
    revert Hnext. generalize (seq (S a) (S m)). intros rest Hnext.
    cbn [write_loop attempts_trace]. unfold_round. fold q.
    rewrite Hreply, H2, Ha', H4, andb_true_r.
    destruct (is_5xx status); rewrite <- !app_assoc; cbn [app]; exact Hnext.
Qed.

Lemma score_loop_rejected (opportunities : list Opportunity) :
  let q := DatabricksScore "prod_fin_sales_v2" opportunities in
  (status =? 200)%Z = false ->
  (forall t, reply session t q = Response status json) ->
  forall m a t,
    (a + m = max_retries self)%nat ->
    score_loop session self opportunities (seq a (S m)) t
    = (inl (score_critical (score_failed status)),
       t ++ attempts_trace self q a m).
Proof.
  intros q H2 Hreply.
  induction m as [|m IH]; intros a t Ha.
  - assert (Ha' : (a <? max_retries self)%nat = false)
      by (apply Nat.ltb_ge; lia).
    cbn [seq score_loop attempts_trace]. unfold_round. fold q.
    rewrite Hreply, H2, Ha', andb_false_r. reflexivity.
  - assert (Ha' : (a <? max_retries self)%nat = true)
      by (apply Nat.ltb_lt; lia).
    pose proof (IH (S a) ((t ++ [Call q]) ++ [Sleep (backoff_time self a)])
                  ltac:(lia)) as Hnext.
    rewrite <- !app_assoc in Hnext. cbn [app] in Hnext.
    change (seq a (S (S m))) with (a :: seq (S a) (S m)).
    revert Hnext. generalize (seq (S a) (S m)). intros rest Hnext.
    cbn [score_loop attempts_trace]. unfold_round. fold q.
    rewrite Hreply, H2, Ha', andb_true_r.
    destruct (is_5xx status); rewrite <- !app_assoc; cbn [app]; exact Hnext.
Qed.

(** A status below 400 other than 200: [raise_for_status] lets it pass and
    the loop goes round at once. *)
Lemma fetch_loop_passed_over :
  let q := SnowflakeQuery fetch_sql in
  (status =? 200)%Z = false -> (400 <=? status)%Z = false ->
  (forall t, reply session t q = Response status json) ->
  forall attempts t,
    fetch_loop session self attempts t
    = (inl "Failed to fetch opportunities from Snowflake",
       t ++ repeat (Call q) (List.length attempts)).
Proof.
  intros q H2 H4 Hreply.
  assert (H5 : is_5xx status = false)
    by (unfold is_5xx; apply andb_false_iff; lia).
  induction attempts as [|a rest IH]; intro t.
  - cbn. rewrite app_nil_r. reflexivity.
  - cbn [fetch_loop List.length repeat]. unfold_round. fold q.
    rewrite Hreply, H2, H5, H4. cbn [andb]. rewrite IH, <- app_assoc.
    reflexivity.
Qed.

Lemma write_loop_passed_over (summary_data : SfResults) :
  let q := summary_request today summary_data in
  (status =? 200)%Z = false -> (400 <=? status)%Z = false ->
  (forall t, reply session t q = Response status json) ->
  forall attempts t,
    write_loop session today self summary_data attempts t
    = (inl "Failed to write summary to Snowflake",
       t ++ repeat (Call q) (List.length attempts)).
Proof.
  intros q H2 H4 Hreply.
  assert (H5 : is_5xx status = false)
    by (unfold is_5xx; apply andb_false_iff; lia).
  induction attempts as [|a rest IH]; intro t.
  - cbn. rewrite app_nil_r. reflexivity.
  - cbn [write_loop List.length repeat]. unfold_round. fold q.
    rewrite Hreply, H2, H5, H4. cbn [andb]. rewrite IH, <- app_assoc.
    reflexivity.
Qed.

End Rejected.

(** *** What any exception of the scoring wrapper says *)

Lemma score_loop_raises_critical (session : Session) (self : Self)
  (opportunities : list Opportunity) :
  forall m a t e t',
    (a + m = max_retries self)%nat ->
    score_loop session self opportunities (seq a (S m)) t = (inl e, t') ->
    exists cause, e = score_critical cause.
Proof.
  induction m as [|m IH]; intros a t e t' Ha.
  - assert (Ha' : (a <? max_retries self)%nat = false)
      by (apply Nat.ltb_ge; lia).
    cbn [seq score_loop]. unfold_round.
    destruct (reply session t _) as [status [[]|]|]; rewrite ?Ha', ?andb_false_r;
      split_reply; intro H; inversion H; eauto.
  - assert (Ha' : (a <? max_retries self)%nat = true)
      by (apply Nat.ltb_lt; lia).
    change (seq a (S (S m))) with (a :: seq (S a) (S m)).
    cbn [score_loop]. unfold_round.
    destruct (reply session t _) as [status [[]|]|]; rewrite ?Ha', ?andb_true_r;
      split_reply; intro H; try discriminate H;
      (eapply (IH (S a)); [lia | exact H]).
Qed.

(** *** The cost of a wrapper, whatever the session answers *)

Lemma ascending_weaken (hi : nat) (l : list nat) :
  forall lo lo', (lo <= lo')%nat -> ascending lo' hi l -> ascending lo hi l.
Proof.
  destruct l as [|x rest]; intros lo lo' Hlo H; [exact I |].
  cbn in *. destruct H as [Hx Hrest]. split; [lia | exact Hrest].
Qed.

Lemma ascending_length (hi : nat) (l : list nat) :
  forall lo, ascending lo hi l -> (List.length l <= hi - lo)%nat.
Proof.
  induction l as [|x rest IH]; intros lo H; cbn in *; [lia |].
  destruct H as [Hx Hrest]. specialize (IH _ Hrest). lia.
Qed.

Lemma pow_sum_ascending (hi : nat) (l : list nat) :
  forall lo, (lo <= hi)%nat -> ascending lo hi l ->
    (pow_sum l <= 2 ^ Z.of_nat hi - 2 ^ Z.of_nat lo)%Z.
Proof.
  induction l as [|x rest IH]; intros lo Hlo H; cbn [pow_sum].
  - assert (2 ^ Z.of_nat lo <= 2 ^ Z.of_nat hi)%Z
      by (apply Z.pow_le_mono_r; lia).
    lia.
  - destruct H as [Hx Hrest]. specialize (IH (S x) ltac:(lia) Hrest).
    assert (2 ^ Z.of_nat lo <= 2 ^ Z.of_nat x)%Z
      by (apply Z.pow_le_mono_r; lia).
    replace (Z.of_nat (S x)) with (Z.of_nat x + 1)%Z in IH by lia.
    rewrite Z.pow_add_r in IH by lia. lia.
Qed.

Lemma total_backoffs (self : Self) (l : list nat) :
  total (map (backoff_time self) l)
  == backoff_factor self * inject_Z (pow_sum l).
Proof.
  induction l as [|x rest IH]; cbn [map total pow_sum].
  - change (inject_Z 0) with 0. ring.
  - rewrite IH, inject_Z_plus. unfold backoff_time. ring.
Qed.

Lemma total_ascending (self : Self) (l : list nat) :
  0 <= backoff_factor self ->
  ascending 0 (max_retries self) l ->
  total (map (backoff_time self) l) <= max_sleep self.
Proof.
  intros HB H. rewrite total_backoffs. unfold max_sleep.
  pose proof (pow_sum_ascending _ _ 0%nat ltac:(lia) H) as Hsum.
  change (2 ^ Z.of_nat 0)%Z with 1%Z in Hsum.
  rewrite Zle_Qle in Hsum.
  rewrite !(Qmult_comm (backoff_factor self)).
  apply Qmult_le_compat_r; assumption.
Qed.

Section Rounds.

Variable A : Type.
Variable self : Self.
Variable q : Request.
Variable p : Request -> bool.
Hypothesis Hp : p q = true.

(** A retry loop over the attempts left. *)
Variable loop : list nat -> M A.

Hypothesis loop_nil : forall t, snd (loop [] t) = t.

(** One round sends the request and then stops, or sleeps the backoff of
    its attempt and goes round, or goes round at once. *)
Hypothesis loop_round : forall a rest t,
  snd (loop (a :: rest) t) = t ++ [Call q] \/
  ((a < max_retries self)%nat /\
   loop (a :: rest) t
   = loop rest ((t ++ [Call q]) ++ [Sleep (backoff_time self a)])) \/
  loop (a :: rest) t = loop rest (t ++ [Call q]).

Lemma loop_effort :
  forall n a t, exists new slept,
    snd (loop (seq a n) t) = t ++ new /\
    (calls p new <= n)%nat /\
    ((1 <= n)%nat -> (1 <= calls p new)%nat) /\
    List.length new = (calls p new + List.length (sleeps new))%nat /\
    sleeps new = map (backoff_time self) slept /\
    ascending a (max_retries self) slept.
Proof.
  induction n as [|n IH]; intros a t.
  - exists [], []. cbn [seq]. rewrite loop_nil, app_nil_r.
    repeat split; cbn; lia.
  - cbn [seq].
    destruct (loop_round a (seq (S a) n) t) as [Hstop | [[Ha Hgo] | Hgo]].
    + exists [Call q], []. rewrite Hstop.
      unfold calls. cbn. rewrite Hp. cbn. repeat split; lia.
    + destruct (IH (S a) ((t ++ [Call q]) ++ [Sleep (backoff_time self a)]))
        as (new & slept & Hnew & Hle & Hge & Hlen & Hsl & Hasc).
      exists (Call q :: Sleep (backoff_time self a) :: new), (a :: slept).
      assert (Hc : calls p (Call q :: Sleep (backoff_time self a) :: new)
                   = S (calls p new))
        by (unfold calls; cbn; rewrite Hp; reflexivity).
      rewrite Hgo, Hnew, <- !app_assoc, Hc. cbn [app sleeps List.length map].
      split; [reflexivity |]. split; [lia |]. split; [lia |].
      split; [lia |]. split; [rewrite Hsl; reflexivity |].
      cbn [ascending]. split; [lia | exact Hasc].
    + destruct (IH (S a) (t ++ [Call q]))
        as (new & slept & Hnew & Hle & Hge & Hlen & Hsl & Hasc).
      exists (Call q :: new), slept.
      assert (Hc : calls p (Call q :: new) = S (calls p new))
        by (unfold calls; cbn; rewrite Hp; reflexivity).
      rewrite Hgo, Hnew, <- !app_assoc, Hc. cbn [app sleeps List.length].
      split; [reflexivity |]. split; [lia |]. split; [lia |].
      split; [lia |]. split; [exact Hsl |].
      apply (ascending_weaken _ _ a (S a)); [lia | exact Hasc].
Qed.

Lemma loop_within_budget (t : Trace) :
  0 <= backoff_factor self ->
  within_budget self p t (snd (loop (seq 0 (max_retries self + 1)) t)).
Proof.
  intro HB.
  destruct (loop_effort (max_retries self + 1) 0 t)
    as (new & slept & Hnew & Hle & Hge & Hlen & Hsl & Hasc).
  exists new. split; [exact Hnew |]. split; [split; [apply Hge; lia | exact Hle] |].
  split; [exact Hlen |]. rewrite Hsl, length_map. split.
  - pose proof (ascending_length _ _ _ Hasc). lia.
  - apply total_ascending; assumption.
Qed.

End Rounds.

Ltac one_round :=
  intros a rest t; unfold_round;
  destruct (a <? max_retries _)%nat eqn:Ha;
  [apply Nat.ltb_lt in Ha | ];
  rewrite ?andb_true_r, ?andb_false_r;
  split_reply; cbn [snd];
  try match goal with
      | H : _ && false = true |- _ =>
          rewrite andb_false_r in H; discriminate H
      end;
  auto.

Lemma fetch_loop_round (session : Session) (self : Self) :
  forall a rest t,
  let q := SnowflakeQuery fetch_sql in
  let loop := fetch_loop session self in
  snd (loop (a :: rest) t) = t ++ [Call q] \/
  ((a < max_retries self)%nat /\
   loop (a :: rest) t
   = loop rest ((t ++ [Call q]) ++ [Sleep (backoff_time self a)])) \/
  loop (a :: rest) t = loop rest (t ++ [Call q]).
Proof. cbn zeta. cbn [fetch_loop]. one_round. Qed.

Lemma score_loop_round (session : Session) (self : Self)
  (opportunities : list Opportunity) :
  forall a rest t,
  let q := DatabricksScore "prod_fin_sales_v2" opportunities in
  let loop := score_loop session self opportunities in
  snd (loop (a :: rest) t) = t ++ [Call q] \/
  ((a < max_retries self)%nat /\
   loop (a :: rest) t
   = loop rest ((t ++ [Call q]) ++ [Sleep (backoff_time self a)])) \/
  loop (a :: rest) t = loop rest (t ++ [Call q]).
Proof. cbn zeta. cbn [score_loop]. one_round. Qed.

Lemma write_loop_round (session : Session) (today : string) (self : Self)
  (summary_data : SfResults) :
  forall a rest t,
  let q := summary_request today summary_data in
  let loop := write_loop session today self summary_data in
  snd (loop (a :: rest) t) = t ++ [Call q] \/
  ((a < max_retries self)%nat /\
   loop (a :: rest) t
   = loop rest ((t ++ [Call q]) ++ [Sleep (backoff_time self a)])) \/
  loop (a :: rest) t = loop rest (t ++ [Call q]).
Proof. cbn zeta. cbn [write_loop]. one_round. Qed.

End RetryProofs.

(** ** The update stage, whatever the services answer *)

Module UpdateInvariants.

Import OrchestratorAgent.
Import PipelineProofs.
Import Readings.
Open Scope Q_scope.
Open Scope list_scope.

Lemma retry_events_S (self : Self) (request : Request) (k : nat) :
  retry_events self request (S k)
  = retry_events self request k
      ++ [Sleep (backoff_time self k); Call request].
Proof.
  unfold retry_events. rewrite seq_S, flat_map_app. cbn. reflexivity.
Qed.

Section AnySession.

Variable session : Session.
Variable tomorrow : string.
Variable self : Self.

(** The inline retries from retry number [a] on, [a] of them made
    already. *)
Lemma retry_update_outcome (o : ScoredOpportunity) (l : SfResults) :
  forall n a t0 t,
    t = t0 ++ retry_events self (update_request o) a ->
    exists k,
      (a <= k <= a + n)%nat /\
      snd (retry_update session self o (seq a n) l t)
      = t0 ++ retry_events self (update_request o) k /\
      (fst (retry_update session self o (seq a n) l t)
       = (add_error (id o) l, None) \/
       (exists e, fst (retry_update session self o (seq a n) l t)
                  = (l, Some e)) \/
       ((a < k)%nat /\
        exists retry_result,
          fst (retry_update session self o (seq a n) l t)
          = (add_updated retry_result l, None))).
Proof.
  induction n as [|n IH]; intros a t0 t Ht.
  - exists a. cbn. split; [lia |]. split; [exact Ht | auto].
  - cbn [seq retry_update]. unfold send_in.
    assert (Ht' : (t ++ [Sleep (backoff_time self a)])
                    ++ [Call (update_request o)]
                  = t0 ++ retry_events self (update_request o) (S a)).
    { rewrite Ht, retry_events_S, <- !app_assoc. reflexivity. }
    destruct (reply session (t ++ [Sleep (backoff_time self a)])
                (update_request o)) as [status [retry_result |] | e].
    + destruct (status =? 200)%Z.
      * exists (S a). cbn [fst snd]. split; [lia |]. split; [exact Ht' |].
        right. right. split; [lia | eauto].
      * destruct (IH (S a) t0 _ Ht') as (k & Hk & Hrest).
        exists k. split; [lia |].
        destruct Hrest as (Htr & [H | [H | [Hlt H]]]);
          (split; [exact Htr |]); auto.
        right. right. split; [lia | exact H].
    + destruct (status =? 200)%Z.
      * exists (S a). cbn [fst snd]. split; [lia |]. split; [exact Ht' |].
        right. left. eauto.
      * destruct (IH (S a) t0 _ Ht') as (k & Hk & Hrest).
        exists k. split; [lia |].
        destruct Hrest as (Htr & [H | [H | [Hlt H]]]);
          (split; [exact Htr |]); auto.
        right. right. split; [lia | exact H].
    + exists (S a). cbn [fst snd]. split; [lia |]. split; [exact Ht' |].
      right. left. eauto.
Qed.

(** One iteration ends in one of the six ways. *)
Lemma update_one_outcome (o : ScoredOpportunity) (l : SfResults) (t : Trace) :
  exists new,
    snd (update_one session tomorrow self o l t) = t ++ new /\
    update_outcome tomorrow self o l
      (fst (update_one session tomorrow self o l t)) new.
Proof.
  unfold update_one, try_update, send_in.
  pose proof (Failed tomorrow self o l 0 ltac:(lia)) as Hfailed0.
  change (retry_events self (update_request o) 0) with (@nil Event) in Hfailed0.
  destruct (reply session t (update_request o)) as [status json | e];
    [| exists [Call (update_request o)]; cbn [fst snd]; auto].
  destruct (status =? 200)%Z eqn:E200.
  - destruct json as [result |];
      [| exists [Call (update_request o)]; cbn [fst snd]; auto].
    exists [Call (update_request o); Call (task_request tomorrow o)].
    destruct (reply session (t ++ [Call (update_request o)])
                (task_request tomorrow o)) as [ts [tj |] | te];
      [destruct (ts =? 200)%Z .. |];
      cbn [fst snd]; rewrite <- app_assoc;
      (split; [reflexivity | constructor]).
  - destruct (is_4xx status);
      [exists [Call (update_request o)]; cbn [fst snd]; auto |].
    destruct (is_5xx status);
      [| exists [Call (update_request o)]; cbn [fst snd];
         split; [reflexivity | constructor]].
    destruct (retry_update_outcome o l (max_retries self) 0
                (t ++ [Call (update_request o)]) (t ++ [Call (update_request o)]))
      as (k & Hk & Htr & Hres).
    { cbn. rewrite app_nil_r. reflexivity. }
    exists (Call (update_request o) :: retry_events self (update_request o) k).
    destruct (retry_update session self o (seq 0 (max_retries self)) l
                (t ++ [Call (update_request o)])) as [[l' exn] t'].
    cbn [fst snd] in *.
    destruct Hres as [H | [[e H] | [Hlt [r H]]]]; inversion H; subst;
      cbn [fst snd]; rewrite <- app_assoc;
      (split; [reflexivity |]).
    + apply Failed. lia.
    + apply Failed. lia.
    + apply Recovered. lia.
Qed.

(** *** From one iteration to the loop *)

Lemma calls_retry_events (p : Request -> bool) (request : Request) (k : nat) :
  calls p (retry_events self request k)
  = if p request then k else 0%nat.
Proof.
  induction k as [|k IH]; [destruct (p request); reflexivity |].
  rewrite retry_events_S, calls_app, IH. unfold calls. cbn.
  destruct (p request); cbn; lia.
Qed.

Lemma calls_cons_call (p : Request -> bool) (r : Request) (t : Trace) :
  calls p (Call r :: t) = ((if p r then 1 else 0) + calls p t)%nat.
Proof. unfold calls. cbn. destruct (p r); reflexivity. Qed.

Lemma picks_app {A} (m1 m2 : list bool) (l1 l2 : list A) :
  List.length m1 = List.length l1 ->
  picks (m1 ++ m2) (l1 ++ l2) = picks m1 l1 ++ picks m2 l2.
Proof.
  revert l1. induction m1 as [|b m1 IH]; intros [|x l1] H; cbn in *;
    try discriminate; [reflexivity |].
  rewrite IH by lia. destruct b; reflexivity.
Qed.

Lemma sum_amounts_app (l1 l2 : list ScoredOpportunity) :
  sum_amounts (l1 ++ l2) == sum_amounts l1 + sum_amounts l2.
Proof.
  induction l1 as [|x l1 IH]; cbn [app sum_amounts]; [ring |].
  rewrite IH. ring.
Qed.

Ltac count_calls :=
  rewrite ?calls_cons_call, ?calls_retry_events;
  cbn [is_update is_task is_query is_score is_insert update_request
       task_request];
  change (calls _ []) with 0%nat.

Lemma outcome_invariant (o : ScoredOpportunity) (l l' : SfResults)
  (new : Trace) :
  update_outcome tomorrow self o l l' new ->
  loop_invariant self [o] l l' new.
Proof.
  assert (Hincl : incl [id o] (map id [o])) by (cbn; apply incl_refl).
  assert (Hnil : incl (@nil string) (map id [o])) by (intros x []).
  intro H. destruct H as [| k Hk | k r Hk | r | r | r tr];
    unfold loop_invariant, track_high_priority.
  - exists [], [], [], [false]. count_calls. cbn. rewrite !app_nil_r.
    repeat split; try reflexivity; try lia; try ring; assumption.
  - exists [], [], [id o], [false]. count_calls. cbn. rewrite !app_nil_r.
    repeat split; try reflexivity; try lia; try ring; assumption.
  - exists [r], [], [], [false]. count_calls. cbn. rewrite !app_nil_r.
    repeat split; try reflexivity; try lia; try ring; assumption.
  - exists [r], [], [id o], [false]. count_calls. cbn. rewrite !app_nil_r.
    repeat split; try reflexivity; try lia; try ring; assumption.
  - exists [r], [], [], [high_priority o]. count_calls.
    unfold high_priority. destruct (Qltb 0.8 (winProbability o)) eqn:E;
      cbn; rewrite ?E, ?app_nil_r;
      repeat split; try reflexivity; try lia; try ring; assumption.
  - exists [r], [tr], [], [high_priority o]. count_calls.
    unfold high_priority. destruct (Qltb 0.8 (winProbability o)) eqn:E;
      cbn; rewrite ?E, ?app_nil_r;
      repeat split; try reflexivity; try lia; try ring; assumption.
Qed.

Lemma invariant_trans (opps1 opps2 : list ScoredOpportunity)
  (l l1 l2 : SfResults) (new1 new2 : Trace) :
  loop_invariant self opps1 l l1 new1 ->
  loop_invariant self opps2 l1 l2 new2 ->
  loop_invariant self (opps1 ++ opps2) l l2 (new1 ++ new2).
Proof.
  intros (u1 & c1 & e1 & m1 & Hu1 & Hc1 & He1 & Hh1 & Ht1 & Hm1 & Hp1 & Hk1
          & Htk1 & Hi1 & Hel1 & Hup1 & Hq1 & Hs1 & Hin1)
         (u2 & c2 & e2 & m2 & Hu2 & Hc2 & He2 & Hh2 & Ht2 & Hm2 & Hp2 & Hk2
          & Htk2 & Hi2 & Hel2 & Hup2 & Hq2 & Hs2 & Hin2).
  exists (u1 ++ u2), (c1 ++ c2), (e1 ++ e2), (m1 ++ m2).
  rewrite picks_app by exact Hm1.
  rewrite !calls_app, !length_app, map_app, forallb_app, sum_amounts_app.
  rewrite Hu2, Hu1, Hc2, Hc1, He2, He1, Hh2, Hh1, Ht2, Ht1, Hp1, Hp2,
    Hq1, Hq2, Hs1, Hs2, Hin1, Hin2, <- !app_assoc.
  repeat split; try reflexivity; try lia; try ring.
  - apply incl_app; [apply incl_appl | apply incl_appr]; assumption.
Qed.

Lemma update_loop_invariant :
  forall (opps : list ScoredOpportunity) (l : SfResults) (t : Trace),
  exists new,
    snd (update_loop session tomorrow self opps l t) = t ++ new /\
    loop_invariant self opps l
      (fst (update_loop session tomorrow self opps l t)) new.
Proof.
  induction opps as [|o rest IH]; intros l t.
  - exists []. cbn. rewrite app_nil_r. split; [reflexivity |].
    exists [], [], [], []. cbn. rewrite !app_nil_r.
    repeat split; try reflexivity; try lia; try ring. intros x [].
  - cbn [update_loop].
    destruct (update_one_outcome o l t) as (new1 & Ht1 & Hout).
    destruct (update_one session tomorrow self o l t) as [l1 t1].
    cbn [fst snd] in *. subst t1.
    destruct (IH l1 (t ++ new1)) as (new2 & Ht2 & Hinv).
    exists (new1 ++ new2). rewrite Ht2, app_assoc. split; [reflexivity |].
    change (o :: rest) with ([o] ++ rest).
    eapply invariant_trans; [apply outcome_invariant; exact Hout | exact Hinv].
Qed.

End AnySession.

End UpdateInvariants.

(** ** Statements about the wrappers and the run *)

Module RunProofs.

Import OrchestratorAgent.
Import PipelineProofs.
Import UpdateProofs.
Import Readings.
Import RetryProofs.
Import UpdateInvariants.
Open Scope Q_scope.
Open Scope list_scope.

Lemma sleeps_repeat_call (r : Request) (n : nat) :
  sleeps (repeat (Call r) n) = [].
Proof. induction n as [|n IH]; [reflexivity | exact IH]. Qed.

(** X1. A run whose query finds no row, or whose rows are scored to an empty
    list, does not end with status success: [update_salesforce] returns an
    empty list for it, subscripting that list raises, and the run returns
    the error dictionary with the text of that TypeError, having sent no
    update, task or insert request. *)
Theorem empty_run_ends_in_type_error :
  forall (session : Session) (today tomorrow : string) (self : Self)
         (t t1 : Trace),
    (fetch_opportunities session self t = (inr [], t1) ->
     run_workflow session today tomorrow self t
     = (error_result list_index_error, t1) /\
     calls is_score t1 = calls is_score t /\
     calls is_update t1 = calls is_update t /\
     calls is_task t1 = calls is_task t /\
     calls is_insert t1 = calls is_insert t) /\
    (forall rows t2,
        fetch_opportunities session self t = (inr rows, t1) ->
        score_opportunities session self rows t1 = (inr [], t2) ->
        run_workflow session today tomorrow self t
        = (error_result list_index_error, t2) /\
        calls is_update t2 = calls is_update t /\
        calls is_task t2 = calls is_task t /\
        calls is_insert t2 = calls is_insert t).
Proof.
  intros session today tomorrow self t t1.
  assert (Hframe : forall rows p,
             fetch_opportunities session self t = (inr rows, t1) ->
             p (SnowflakeQuery fetch_sql) = false -> calls p t1 = calls p t).
  { intros rows p Hfetch Hq.
    pose proof (fetch_loop_frame session self p Hq
                  (seq 0 (max_retries self + 1)) t) as H1.
    unfold fetch_opportunities in Hfetch. rewrite Hfetch in H1. exact H1. }
  split.
  - intro Hfetch.
    split; [| repeat split; apply (Hframe [] _ Hfetch eq_refl)].
    unfold run_workflow, workflow_steps, bind. rewrite Hfetch. reflexivity.
  - intros rows t2 Hfetch Hscore.
    assert (Hframe2 : forall p,
               p (SnowflakeQuery fetch_sql) = false ->
               p (DatabricksScore "prod_fin_sales_v2" rows) = false ->
               calls p t2 = calls p t).
    { intros p Hq Hs.
      pose proof (score_opportunities_frame session self p rows Hs t1) as H2.
      rewrite Hscore in H2. cbn [snd] in H2.
      rewrite H2. apply (Hframe rows p Hfetch Hq). }
    split; [| repeat split; apply Hframe2; reflexivity].
    unfold run_workflow, workflow_steps, bind. rewrite Hfetch, Hscore.
    reflexivity.
Qed.

Lemma empty_run_ends_in_type_error_witness :
  let session := stub_session Samples.agent no_rows in
  let run := run_workflow session "2026-01-01" "2026-01-02" Samples.agent [] in
  get "status" (fst run) = Some (VScalar (VStr "error")) /\
  get "message" (fst run)
  = Some (VScalar (VStr "list indices must be integers or slices, not str")) /\
  snd run = [Call (SnowflakeQuery fetch_sql)].
Proof.
  intros session run.
  destruct (empty_run_ends_in_type_error session "2026-01-01" "2026-01-02"
              Samples.agent [] [Call (SnowflakeQuery fetch_sql)])
    as [Hempty _].
  destruct Hempty as [Hrun _]; [vm_compute; reflexivity |].
  unfold run. rewrite Hrun. repeat split; reflexivity.
Defined.

(** X2. A rejection is retried like an outage. When the service answers
    every request of a wrapper with one status - 400 or above for Fetch and
    WriteSummary, any status but 200 for Score - the wrapper sends its
    request [max_retries + 1] times, sleeps [backoff_factor * 2 ** i] after
    attempt [i], and only then raises: the text of [raise_for_status], or
    the scoring failure for that status. *)
Theorem rejections_are_retried_with_backoff :
  forall (session : Session) (today : string) (self : Self) (t : Trace)
         (status : Z) (json : option Json),
    ((400 <= status)%Z ->
     (forall t', reply session t' (SnowflakeQuery fetch_sql)
                 = Response status json) ->
     fetch_opportunities session self t
     = (inl (status_error session status),
        t ++ attempts_trace self (SnowflakeQuery fetch_sql) 0 (max_retries self))
     /\ gave_up self is_query t (fetch_opportunities session self t)) /\
    (forall opportunities,
        opportunities <> [] ->
        status <> 200%Z ->
        (forall t', reply session t'
                      (DatabricksScore "prod_fin_sales_v2" opportunities)
                    = Response status json) ->
        score_opportunities session self opportunities t
        = (inl (score_critical (score_failed status)),
           t ++ attempts_trace self
                  (DatabricksScore "prod_fin_sales_v2" opportunities) 0
                  (max_retries self))
        /\ gave_up self is_score t
             (score_opportunities session self opportunities t)) /\
    (forall summary_data,
        (400 <= status)%Z ->
        (forall t', reply session t' (summary_request today summary_data)
                    = Response status json) ->
        write_summary session today self summary_data t
        = (inl (status_error session status),
           t ++ attempts_trace self (summary_request today summary_data) 0
                  (max_retries self))
        /\ gave_up self is_insert t
             (write_summary session today self summary_data t)).
Proof.
  intros session today self t status json.
  split; [| split].
  - intros H4 Hreply.
    assert (Hrun : fetch_opportunities session self t
                   = (inl (status_error session status),
                      t ++ attempts_trace self (SnowflakeQuery fetch_sql) 0
                             (max_retries self))).
    { unfold fetch_opportunities. rewrite Nat.add_1_r.
      apply (fetch_loop_rejected session self status json); [lia | exact Hreply | lia]. }
    split; [exact Hrun |]. rewrite Hrun. apply gave_up_of_trace. reflexivity.
  - intros opportunities Hne H2 Hreply.
    assert (Hrun : score_opportunities session self opportunities t
                   = (inl (score_critical (score_failed status)),
                      t ++ attempts_trace self
                             (DatabricksScore "prod_fin_sales_v2" opportunities)
                             0 (max_retries self))).
    { unfold score_opportunities.
      destruct opportunities as [|o rest]; [congruence |].
      rewrite Nat.add_1_r.
      apply (score_loop_rejected session self status json); [lia | exact Hreply | lia]. }
    split; [exact Hrun |]. rewrite Hrun. apply gave_up_of_trace. reflexivity.
  - intros summary_data H4 Hreply.
    assert (Hrun : write_summary session today self summary_data t
                   = (inl (status_error session status),
                      t ++ attempts_trace self
                             (summary_request today summary_data) 0
                             (max_retries self))).
    { unfold write_summary. rewrite Nat.add_1_r.
      apply (write_loop_rejected session today self status json); [lia | exact Hreply | lia]. }
    split; [exact Hrun |]. rewrite Hrun. apply gave_up_of_trace. reflexivity.
Qed.

Lemma rejections_are_retried_with_backoff_witness :
  let session := stub_session Samples.agent (answering 404) in
  sleeps (snd (fetch_opportunities session Samples.agent [])) = [1.5; 1.5 * 2] /\
  fst (score_opportunities session Samples.agent Samples.SAMPLE_OPPORTUNITIES [])
  = inl "Critical error in Databricks: Critical error: Databricks scoring failed with status 404" /\
  calls is_insert
    (snd (write_summary session "2026-01-01" Samples.agent initial_locals []))
  = 3%nat.
Proof.
  intro session.
  destruct (rejections_are_retried_with_backoff session "2026-01-01"
              Samples.agent [] 404 None) as (Hfetch & Hscore & Hwrite).
  destruct Hfetch as [Hf _]; [lia | intro; reflexivity |].
  destruct (Hscore Samples.SAMPLE_OPPORTUNITIES) as [Hs _];
    [discriminate | lia | intro; reflexivity |].
  destruct (Hwrite initial_locals) as [Hw _]; [lia | intro; reflexivity |].
  rewrite Hf, Hs, Hw. repeat split; reflexivity.
Defined.

(** X3. A status below 400 other than 200 (a redirect, say) is neither an
    answer nor an error to Fetch and WriteSummary: [raise_for_status] lets
    it pass, the loop goes round at once, and after [max_retries + 1]
    requests without a single sleep the wrapper raises its closing
    exception, "Failed to ...". *)
Theorem unchecked_status_is_retried_at_once :
  forall (session : Session) (today : string) (self : Self) (t : Trace)
         (status : Z) (json : option Json),
    status <> 200%Z -> (status < 400)%Z ->
    ((forall t', reply session t' (SnowflakeQuery fetch_sql)
                 = Response status json) ->
     fetch_opportunities session self t
     = (inl "Failed to fetch opportunities from Snowflake",
        t ++ repeat (Call (SnowflakeQuery fetch_sql)) (max_retries self + 1))
     /\ sleeps (snd (fetch_opportunities session self t)) = sleeps t) /\
    (forall summary_data,
        (forall t', reply session t' (summary_request today summary_data)
                    = Response status json) ->
        write_summary session today self summary_data t
        = (inl "Failed to write summary to Snowflake",
           t ++ repeat (Call (summary_request today summary_data))
                  (max_retries self + 1))
        /\ sleeps (snd (write_summary session today self summary_data t))
           = sleeps t).
Proof.
  intros session today self t status json H2 H4. split.
  - intro Hreply.
    assert (Hrun : fetch_opportunities session self t
                   = (inl "Failed to fetch opportunities from Snowflake",
                      t ++ repeat (Call (SnowflakeQuery fetch_sql))
                             (max_retries self + 1))).
    { unfold fetch_opportunities.
      rewrite (fetch_loop_passed_over session self status json)
        by (lia || exact Hreply).
      rewrite length_seq. reflexivity. }
    split; [exact Hrun |]. rewrite Hrun. cbn [snd].
    rewrite sleeps_app, sleeps_repeat_call, app_nil_r. reflexivity.
  - intros summary_data Hreply.
    assert (Hrun : write_summary session today self summary_data t
                   = (inl "Failed to write summary to Snowflake",
                      t ++ repeat (Call (summary_request today summary_data))
                             (max_retries self + 1))).
    { unfold write_summary.
      rewrite (write_loop_passed_over session today self status json)
        by (lia || exact Hreply).
      rewrite length_seq. reflexivity. }
    split; [exact Hrun |]. rewrite Hrun. cbn [snd].
    rewrite sleeps_app, sleeps_repeat_call, app_nil_r. reflexivity.
Qed.

Lemma unchecked_status_is_retried_at_once_witness :
  let session := stub_session Samples.agent (answering 302) in
  fetch_opportunities session Samples.agent []
  = (inl "Failed to fetch opportunities from Snowflake",
     [Call (SnowflakeQuery fetch_sql); Call (SnowflakeQuery fetch_sql);
      Call (SnowflakeQuery fetch_sql)]).
Proof.
  intro session.
  destruct (unchecked_status_is_retried_at_once session "2026-01-01"
              Samples.agent [] 302 None) as [Hfetch _]; [lia | lia |].
  destruct Hfetch as [Hf _]; [intro; reflexivity |].
  rewrite Hf. reflexivity.
Defined.

(** X4. Whatever the scoring service does, an exception that leaves
    [score_opportunities] reads "Critical error in Databricks: ..."; the
    closing exception after the loop is never the one raised. *)
Theorem score_errors_are_critical :
  forall (session : Session) (self : Self) (opportunities : list Opportunity)
         (t t' : Trace) (e : string),
    score_opportunities session self opportunities t = (inl e, t') ->
    (exists cause, e = score_critical cause) /\
    e <> "Failed to score opportunities in Databricks".
Proof.
  intros session self opportunities t t' e Hrun.
  assert (Hcause : exists cause, e = score_critical cause).
  { unfold score_opportunities in Hrun.
    destruct opportunities as [|o rest]; [discriminate Hrun |].
    rewrite Nat.add_1_r in Hrun.
    apply (score_loop_raises_critical session self (o :: rest)
             (max_retries self) 0 t e t'); [lia | exact Hrun]. }
  split; [exact Hcause |].
  destruct Hcause as [cause ->]. unfold score_critical. cbn. discriminate.
Qed.

Lemma score_errors_are_critical_witness :
  exists cause,
    "Critical error in Databricks: invalid response body" = score_critical cause.
Proof.
  apply (score_errors_are_critical
           (stub_session Samples.agent (answering 200)) Samples.agent
           Samples.SAMPLE_OPPORTUNITIES []
           (attempts_trace Samples.agent
              (DatabricksScore "prod_fin_sales_v2" Samples.SAMPLE_OPPORTUNITIES)
              0 2)
           "Critical error in Databricks: invalid response body").
  vm_compute. reflexivity.
Defined.

(** X5. The cost of a retry wrapper is bounded whatever the services answer:
    with a non-negative backoff factor, Fetch, Score (of a non-empty list)
    and WriteSummary each send between one and [max_retries + 1] requests,
    all of their own kind, and sleep at most [max_retries] times and at most
    [backoff_factor * (2 ** max_retries - 1)] seconds in all - three
    requests and 4.5 seconds with the configuration of [__init__]. *)
Theorem retry_effort_is_bounded :
  forall (session : Session) (today : string) (self : Self) (t : Trace),
    0 <= backoff_factor self ->
    within_budget self is_query t (snd (fetch_opportunities session self t)) /\
    (forall opportunities,
        opportunities <> [] ->
        within_budget self is_score t
          (snd (score_opportunities session self opportunities t))) /\
    (forall summary_data,
        within_budget self is_insert t
          (snd (write_summary session today self summary_data t))) /\
    (forall base_url,
        (max_retries (__init__ base_url) + 1)%nat = 3%nat /\
        max_sleep (__init__ base_url) == 4.5).
Proof.
  intros session today self t HB. split; [| split; [| split]].
  - unfold fetch_opportunities.
    apply (loop_within_budget _ self (SnowflakeQuery fetch_sql) is_query
             eq_refl (fetch_loop session self));
      [reflexivity | apply fetch_loop_round | exact HB].
  - intros opportunities Hne. unfold score_opportunities.
    destruct opportunities as [|o rest]; [congruence |].
    apply (loop_within_budget _ self
             (DatabricksScore "prod_fin_sales_v2" (o :: rest)) is_score
             eq_refl (score_loop session self (o :: rest)));
      [reflexivity | apply score_loop_round | exact HB].
  - intro summary_data. unfold write_summary.
    apply (loop_within_budget _ self (summary_request today summary_data)
             is_insert eq_refl (write_loop session today self summary_data));
      [reflexivity | apply write_loop_round | exact HB].
  - intro base_url. split; reflexivity.
Qed.

Lemma retry_effort_is_bounded_witness :
  within_budget Samples.agent is_query []
    (snd (fetch_opportunities (stub_session Samples.agent Samples.down)
            Samples.agent [])).
Proof.
  apply (retry_effort_is_bounded (stub_session Samples.agent Samples.down)
           "2026-01-01" Samples.agent []).
  vm_compute. discriminate.
Defined.

End RunProofs.

(** ** Statements about the update stage *)

Module UpdateStageProofs.

Import OrchestratorAgent.
Import PipelineProofs.
Import UpdateProofs.
Import Readings.
Import RetryProofs.
Import UpdateInvariants.
Open Scope Q_scope.
Open Scope list_scope.

(** X6. On rows that have the four keys id, amount, winProbability and
    nextBestProduct, whatever the services answer, the update stage returns
    for a non-empty list, and its result keeps these relations: there are
    no more updated records and no more error records than opportunities;
    every error record is the identifier of a scored opportunity; the two
    aggregates are the number and the summed amount of one selection of
    scored opportunities, all above 0.8 and no more than were updated; a
    task is requested at most once for an updated record; every opportunity
    costs between one and [max_retries + 1] update requests; and the stage
    sends nothing else. *)
Theorem update_stage_invariants :
  forall (session : Session) (tomorrow : string) (self : Self)
         (scored : list ScoredOpportunity) (t : Trace),
    scored <> [] ->
    exists sf new mask,
      ScoredRows.update_salesforce session tomorrow self
        (map ScoredRows.complete scored) t
      = (inr (Results sf), t ++ new) /\
      List.length mask = List.length scored /\
      forallb high_priority (picks mask scored) = true /\
      high_priority_count sf = Z.of_nat (List.length (picks mask scored)) /\
      total_pipeline_value sf == sum_amounts (picks mask scored) /\
      (List.length (picks mask scored) <= List.length (updated_records sf)
       <= List.length scored)%nat /\
      (List.length (created_tasks sf) <= calls is_task new
       <= List.length (updated_records sf))%nat /\
      incl (error_records sf) (map id scored) /\
      (List.length (error_records sf) <= List.length scored)%nat /\
      (List.length scored <= calls is_update new
       <= List.length scored * (max_retries self + 1))%nat /\
      calls is_query new = 0%nat /\
      calls is_score new = 0%nat /\
      calls is_insert new = 0%nat.
Proof.
  intros session tomorrow self scored t Hne.
  rewrite update_salesforce_complete.
  rewrite (update_salesforce_loop session tomorrow self scored t Hne).
  destruct (update_loop_invariant session tomorrow self scored initial_locals t)
    as (new & Htrace
        & u & c & e & mask & Hu & Hc & He & Hh & Ht & Hm & Hp & Hk & Htk
        & Hi & Hel & Hup & Hq & Hs & Hin).
  exists (fst (update_loop session tomorrow self scored initial_locals t)),
    new, mask.
  cbn [initial_locals updated_records created_tasks error_records
       high_priority_count total_pipeline_value app] in *.
  rewrite Htrace, Hu, Hc, He, Hh, Ht.
  repeat split; try assumption; try lia; try ring.
Qed.

Lemma update_stage_invariants_witness :
  exists sf new mask,
    ScoredRows.update_salesforce (stub_session Samples.agent Samples.down)
      "2026-01-02" Samples.agent
      (map ScoredRows.complete Samples.sample_scored) []
    = (inr (Results sf), [] ++ new) /\
    List.length mask = 5%nat /\
    high_priority_count sf
    = Z.of_nat (List.length (picks mask Samples.sample_scored)) /\
    (5 <= calls is_update new <= 15)%nat.
Proof.
  destruct (update_stage_invariants (stub_session Samples.agent Samples.down)
              "2026-01-02" Samples.agent Samples.sample_scored [])
    as (sf & new & mask & Hrun & Hm & _ & Hh & _ & _ & _ & _ & _ & Hup & _).
  - discriminate.
  - exists sf, new, mask. repeat split; try assumption; apply Hup.
Defined.

(** X27. A row above 0.8 that lacks its amount is counted and not summed,
    and does not abort the stage. When its update is answered 200 and its
    follow-up request raises nothing, the KeyError of [opp["amount"]] is
    raised inside the [try], once the counter is incremented: the record is
    in [updated_records] and its identifier in [error_records],
    [high_priority_count] is one more and [total_pipeline_value] is what it
    was; the follow-up result is recorded when the request was answered
    200. *)
Theorem missing_amount_is_counted_not_summed :
  forall (session : Session) (tomorrow : string) (self : Self)
         (row : ScoredRows.Row) (opp_id : string) (p : Q) (product : string)
         (l : SfResults) (t : Trace) (result : Json),
    let update := SalesforceUpdate opp_id p product in
    let task :=
      SalesforceTask opp_id "Follow up on high-priority deal" tomorrow in
    ScoredRows.subscripts row = inr (opp_id, p, product) ->
    ScoredRows.amount row = None ->
    0.8 < p ->
    reply session t update = Response 200 (Some result) ->
    answered (reply session (t ++ [Call update]) task) = true ->
    exists l',
      ScoredRows.update_one session tomorrow self row l t
      = (inr l', t ++ [Call update; Call task]) /\
      updated_records l' = updated_records l ++ [result] /\
      error_records l' = error_records l ++ [opp_id] /\
      high_priority_count l' = (high_priority_count l + 1)%Z /\
      total_pipeline_value l' = total_pipeline_value l /\
      created_tasks l'
      = created_tasks l
          ++ update_result (reply session (t ++ [Call update]) task).
Proof.
  intros session tomorrow self row opp_id p product l t result update task
    Hkeys Hamount Hp Hupd Htask.
  unfold ScoredRows.update_one. rewrite Hkeys.
  unfold ScoredRows.try_update, send_in. fold update. rewrite Hupd.
  cbn [Z.eqb Pos.eqb]. fold task.
  unfold ScoredRows.track_high_priority. rewrite Hamount.
  apply ScoringProofs.Qltb_true in Hp. rewrite Hp.
  destruct (reply session (t ++ [Call update]) task) as [ts [tj |] | te];
    cbn [answered] in Htask; try discriminate Htask;
    destruct (ts =? 200)%Z eqn:Ets; cbn in Htask; try discriminate Htask;
    eexists; (split; [rewrite <- app_assoc; reflexivity |]);
    cbn [update_result]; rewrite ?Ets;
    cbn [updated_records error_records high_priority_count
         total_pipeline_value created_tasks add_error add_updated add_task];
    rewrite ?app_nil_r; repeat split; reflexivity.
Qed.

Lemma missing_amount_is_counted_not_summed_witness :
  let session := stub_session Samples.agent Samples.healthy in
  exists l',
    ScoredRows.update_one session "2026-01-02" Samples.agent
      ScoredRows.sample_without_amount initial_locals []
    = (inr l',
       [Call (SalesforceUpdate "opp_001" 0.9 "Trading Platform");
        Call (SalesforceTask "opp_001" "Follow up on high-priority deal"
                "2026-01-02")]) /\
    error_records l' = ["opp_001"] /\
    high_priority_count l' = 1%Z /\
    total_pipeline_value l' = 0.
Proof.
  intro session.
  destruct (missing_amount_is_counted_not_summed session "2026-01-02"
              Samples.agent ScoredRows.sample_without_amount "opp_001" 0.9
              "Trading Platform" initial_locals []
              (UpdateResult "opp_001" true))
    as (l' & Hrun & _ & He & Hh & Ht & _);
    [reflexivity | reflexivity | vm_compute; reflexivity | reflexivity
    | reflexivity |].
  exists l'. split; [exact Hrun |].
  split; [exact He | split; [exact Hh | exact Ht]].
Defined.

(** X7. An opportunity can be in both lists. When its update is answered
    200 and the request for its follow-up task then raises - an exception of
    the client or a body that does not decode - the record stays in
    [updated_records], its identifier is added to [error_records], no task
    is recorded and the opportunity enters neither aggregate, whatever its
    win probability. *)
Theorem raised_followup_lists_record_twice :
  forall (session : Session) (tomorrow : string) (self : Self)
         (o : ScoredOpportunity) (l : SfResults) (t : Trace) (result : Json),
    reply session t (update_request o) = Response 200 (Some result) ->
    raises (reply session (t ++ [Call (update_request o)])
              (task_request tomorrow o)) = true ->
    let l' := fst (update_one session tomorrow self o l t) in
    snd (update_one session tomorrow self o l t)
    = t ++ [Call (update_request o); Call (task_request tomorrow o)] /\
    updated_records l' = updated_records l ++ [result] /\
    error_records l' = error_records l ++ [id o] /\
    created_tasks l' = created_tasks l /\
    high_priority_count l' = high_priority_count l /\
    total_pipeline_value l' = total_pipeline_value l.
Proof.
  intros session tomorrow self o l t result Hupd Hraise.
  unfold update_one, try_update, send_in. rewrite Hupd. cbn [Z.eqb Pos.eqb].
  destruct (reply session (t ++ [Call (update_request o)])
              (task_request tomorrow o)) as [ts [tj |] | te];
    cbn [raises] in Hraise; try discriminate Hraise;
    rewrite ?Hraise; cbn [fst snd]; rewrite <- app_assoc;
    repeat split; reflexivity.
Qed.

Lemma raised_followup_lists_record_twice_witness :
  let session := stub_session Samples.agent task_garbled in
  let o := mkScored "opp_001" 250000 0.9 "Trading Platform" in
  let l' := fst (update_one session "2026-01-02" Samples.agent o
                   initial_locals []) in
  updated_records l' = [UpdateResult "opp_001" true] /\
  error_records l' = ["opp_001"] /\
  high_priority_count l' = 0%Z.
Proof.
  intros session o l'.
  destruct (raised_followup_lists_record_twice session "2026-01-02"
              Samples.agent o initial_locals [] (UpdateResult "opp_001" true))
    as (_ & Hu & He & _ & Hh & _); [reflexivity | reflexivity |].
  repeat split; assumption.
Defined.

(** X8. An update answered with a status that is neither 200 nor 4xx nor
    5xx is dropped without a trace in the result: one request is sent, the
    opportunity enters neither [updated_records] nor [error_records], and
    when every update is answered so the stage returns the locals it
    started with. *)
Theorem unhandled_update_status_is_dropped :
  forall (session : Session) (tomorrow : string) (self : Self)
         (status : Z) (json : option Json),
    unhandled status = true ->
    (forall t o, reply session t (update_request o) = Response status json) ->
    (forall o l t,
        update_one session tomorrow self o l t
        = (l, t ++ [Call (update_request o)])) /\
    (forall scored l t,
        update_loop session tomorrow self scored l t
        = (l, t ++ map (fun o => Call (update_request o)) scored)).
Proof.
  intros session tomorrow self status json Hun Hreply.
  unfold unhandled in Hun.
  apply andb_prop in Hun. destruct Hun as [Hun H5].
  apply andb_prop in Hun. destruct Hun as [H2 H4].
  apply negb_true_iff in H2, H4, H5.
  assert (Hone : forall o l t,
             update_one session tomorrow self o l t
             = (l, t ++ [Call (update_request o)])).
  { intros o l t. unfold update_one, try_update, send_in.
    rewrite Hreply, H2, H4, H5. reflexivity. }
  split; [exact Hone |].
  induction scored as [|o rest IH]; intros l t.
  - cbn. rewrite app_nil_r. reflexivity.
  - cbn [update_loop map]. rewrite Hone, IH, <- app_assoc. reflexivity.
Qed.

Lemma unhandled_update_status_is_dropped_witness :
  let session := stub_session Samples.agent update_redirected in
  update_loop session "2026-01-02" Samples.agent Samples.sample_scored
    initial_locals []
  = (initial_locals,
     map (fun o => Call (update_request o)) Samples.sample_scored).
Proof.
  intro session.
  destruct (unhandled_update_status_is_dropped session "2026-01-02"
              Samples.agent 302 None) as [_ Hloop];
    [reflexivity | intros; reflexivity |].
  rewrite Hloop. reflexivity.
Defined.

Lemma update_loop_sends_all (session : Session) (tomorrow : string)
  (self : Self) :
  forall (opps : list ScoredOpportunity) (l : SfResults) (t : Trace)
         (o : ScoredOpportunity),
    In o opps ->
    In (Call (update_request o))
       (snd (update_loop session tomorrow self opps l t)).
Proof.
  induction opps as [|x rest IH]; intros l t o Hin; [contradiction |].
  cbn [update_loop].
  destruct (update_one_outcome session tomorrow self x l t)
    as (new1 & Ht1 & Hout).
  destruct (update_one session tomorrow self x l t) as [l1 t1].
  cbn [fst snd] in *. subst t1.
  destruct Hin as [-> | Hin]; [| apply IH; exact Hin].
  destruct (update_loop_invariant session tomorrow self rest l1 (t ++ new1))
    as (new2 & Ht2 & _).
  rewrite Ht2. apply in_or_app. left. apply in_or_app. right.
  destruct Hout; left; reflexivity.
Qed.

(** X9. Nothing is undone when the summary cannot be written. If the
    update stage has run and [write_summary] then raises, the run returns
    the error dictionary - status and message, no list of updated or failed
    records - although an update request has been sent for every scored
    opportunity. *)
Theorem summary_failure_keeps_updates :
  forall (session : Session) (today tomorrow : string) (self : Self)
         (t t1 t2 t3 t4 : Trace) (rows : list Opportunity)
         (scored : list ScoredOpportunity) (sf : SfResults) (e : string),
    fetch_opportunities session self t = (inr rows, t1) ->
    score_opportunities session self rows t1 = (inr scored, t2) ->
    update_salesforce session tomorrow self scored t2
    = (inr (Results sf), t3) ->
    write_summary session today self sf t3 = (inl e, t4) ->
    run_workflow session today tomorrow self t = (error_result e, t4) /\
    keys (error_result e) = ["status"; "message"] /\
    (forall o, In o scored -> In (Call (update_request o)) t4).
Proof.
  intros session today tomorrow self t t1 t2 t3 t4 rows scored sf e
    Hfetch Hscore Hupdate Hwrite.
  split; [| split; [reflexivity |]].
  - unfold run_workflow, workflow_steps, bind.
    rewrite Hfetch, Hscore, Hupdate. cbn [subscript ret]. rewrite Hwrite.
    reflexivity.
  - intros o Hin.
    assert (Hne : scored <> []) by (intro E; subst; contradiction).
    rewrite (update_salesforce_loop session tomorrow self scored t2 Hne)
      in Hupdate.
    inversion Hupdate as [[Hsf Ht3]].
    destruct (loop_effort _ self (summary_request today sf) is_insert eq_refl
                (write_loop session today self sf)
                ltac:(reflexivity)
                (write_loop_round session today self sf)
                (max_retries self + 1) 0 t3) as (new & _ & Hnew & _).
    unfold write_summary in Hwrite. rewrite Hwrite in Hnew. cbn [snd] in Hnew.
    rewrite Hnew, <- Ht3. apply in_or_app. left.
    apply update_loop_sends_all. exact Hin.
Qed.

Lemma summary_failure_keeps_updates_witness :
  let session := stub_session Samples.agent insert_down in
  let run := run_workflow session "2026-01-01" "2026-01-02" Samples.agent [] in
  fst run = error_result "503, message='error'" /\
  calls is_update (snd run) = 5%nat.
Proof.
  intros session run.
  edestruct (summary_failure_keeps_updates session "2026-01-01" "2026-01-02"
               Samples.agent []) as (Hrun & _ & _).
  - vm_compute. reflexivity.
  - vm_compute. reflexivity.
  - vm_compute. reflexivity.
  - vm_compute. reflexivity.
  - unfold run. rewrite Hrun. split; reflexivity.
Defined.

(** *** An update service that is down *)

Lemma sleeps_retry_events (self : Self) (request : Request) (k : nat) :
  sleeps (retry_events self request k) = map (backoff_time self) (seq 0 k).
Proof.
  induction k as [|k IH]; [reflexivity |].
  rewrite retry_events_S, sleeps_app, IH, seq_S, map_app. reflexivity.
Qed.

Lemma retry_update_exhausts (session : Session) (self : Self)
  (o : ScoredOpportunity) (l : SfResults) (status : Z) (json : option Json) :
  is_5xx status = true ->
  (forall t, reply session t (update_request o) = Response status json) ->
  forall n a t0 t,
    t = t0 ++ retry_events self (update_request o) a ->
    retry_update session self o (seq a n) l t
    = ((add_error (id o) l, None),
       t0 ++ retry_events self (update_request o) (a + n)).
Proof.
  intros H5 Hreply. pose proof (is_5xx_not_200 _ H5) as H2.
  induction n as [|n IH]; intros a t0 t Ht.
  - cbn. rewrite Nat.add_0_r, Ht. reflexivity.
  - cbn [seq retry_update]. unfold send_in. rewrite Hreply, H2.
    rewrite (IH (S a) t0).
    + replace (S a + n)%nat with (a + S n)%nat by lia. reflexivity.
    + rewrite Ht, retry_events_S, <- !app_assoc. reflexivity.
Qed.

(** X24. An update service that is down costs one opportunity
    [max_retries + 1] requests and nothing more. When every update request
    for an opportunity is answered with one 5xx status, the loop iteration
    sends the request once, then sleeps [backoff_factor * 2 ** retry] and
    sends it again for each of the [max_retries] retries, asks for no task,
    and records the identifier in [error_records], the other locals
    untouched. *)
Theorem update_outage_is_retried_then_recorded :
  forall (session : Session) (tomorrow : string) (self : Self)
         (o : ScoredOpportunity) (l : SfResults) (t : Trace)
         (status : Z) (json : option Json),
    is_5xx status = true ->
    (forall t', reply session t' (update_request o) = Response status json) ->
    let new := Call (update_request o)
               :: retry_events self (update_request o) (max_retries self) in
    update_one session tomorrow self o l t = (add_error (id o) l, t ++ new) /\
    calls is_update new = (max_retries self + 1)%nat /\
    calls is_task new = 0%nat /\
    sleeps new = map (backoff_time self) (seq 0 (max_retries self)).
Proof.
  intros session tomorrow self o l t status json H5 Hreply new.
  split; [| split; [| split]].
  - unfold update_one, try_update, send_in.
    rewrite Hreply, (is_5xx_not_200 _ H5), (is_5xx_not_4xx _ H5), H5.
    rewrite (retry_update_exhausts session self o l status json H5 Hreply
               (max_retries self) 0 (t ++ [Call (update_request o)])
               (t ++ [Call (update_request o)]))
      by (cbn; rewrite app_nil_r; reflexivity).
    subst new. rewrite <- app_assoc. reflexivity.
  - subst new. rewrite calls_cons_call, calls_retry_events. cbn. lia.
  - subst new. rewrite calls_cons_call, calls_retry_events. reflexivity.
  - subst new. cbn [sleeps]. apply sleeps_retry_events.
Qed.

Lemma update_outage_is_retried_then_recorded_witness :
  let session := stub_session Samples.agent update_down in
  let o := mkScored "opp_001" 250000 0.9 "Trading Platform" in
  let run := update_one session "2026-01-02" Samples.agent o initial_locals [] in
  error_records (fst run) = ["opp_001"] /\
  sleeps (snd run) = [1.5; 1.5 * 2] /\
  calls is_update (snd run) = 3%nat.
Proof.
  intros session o run.
  destruct (update_outage_is_retried_then_recorded session "2026-01-02"
              Samples.agent o initial_locals [] 503 None)
    as (Hrun & _); [reflexivity | intro; reflexivity |].
  subst run. rewrite Hrun. repeat split; reflexivity.
Defined.

(** *** The aggregates never count too much *)

Lemma picks_length_filter {A} (p : A -> bool) (mask : list bool) :
  forall l : list A,
    forallb p (picks mask l) = true ->
    (List.length (picks mask l) <= List.length (filter p l))%nat.
Proof.
  induction mask as [|keep mask IH]; intros [|x l] H; cbn in *; try lia.
  destruct keep; cbn in *.
  - apply andb_prop in H. destruct H as [Hx H]. rewrite Hx. cbn.
    specialize (IH l H). lia.
  - specialize (IH l H). destruct (p x); cbn; lia.
Qed.

Lemma sum_amounts_nonneg (l : list ScoredOpportunity) :
  (forall o, In o l -> 0 <= amount o) -> 0 <= sum_amounts l.
Proof.
  induction l as [|x l IH]; intro H; cbn [sum_amounts]; [lra |].
  assert (0 <= amount x) by (apply H; left; reflexivity).
  assert (0 <= sum_amounts l) by (apply IH; intros o Ho; apply H; right; exact Ho).
  lra.
Qed.

Lemma picks_incl {A} (mask : list bool) :
  forall (l : list A) (x : A), In x (picks mask l) -> In x l.
Proof.
  induction mask as [|keep mask IH]; intros [|y l] x H; cbn in *;
    try contradiction.
  destruct keep; [destruct H as [-> | H]; [left; reflexivity |] |];
    right; apply IH; exact H.
Qed.

(** X25. The summary of a successful run never counts too much. Whatever
    the services answer, a result with status success carries a
    [highPriorityCount] between 0 and the number of scored opportunities
    above 0.8, no more tasks than opportunities, and error identifiers that
    are all identifiers of scored opportunities; its [totalPipelineValue]
    is 0 when its [highPriorityCount] is 0, so when no scored opportunity
    is above 0.8, and is not negative when no amount is. *)
Theorem summary_never_overcounts :
  forall (session : Session) (today tomorrow : string) (self : Self)
         (t t' : Trace) (result : Dict),
    run_workflow session today tomorrow self t = (result, t') ->
    get "status" result = Some (VScalar (VStr "success")) ->
    exists scored sf,
      result = success_result today scored sf /\
      (0 <= high_priority_count sf
       <= Z.of_nat (List.length (filter high_priority scored)))%Z /\
      (List.length (created_tasks sf) <= List.length scored)%nat /\
      incl (error_records sf) (map id scored) /\
      (high_priority_count sf = 0%Z -> total_pipeline_value sf == 0) /\
      (filter high_priority scored = [] -> total_pipeline_value sf == 0) /\
      ((forall o, In o scored -> 0 <= amount o) ->
       0 <= total_pipeline_value sf).
Proof.
  intros session today tomorrow self t t' result Hrun Hstatus.
  destruct (run_workflow_success session today tomorrow self t t' result
              Hrun Hstatus)
    as (rows & t1 & scored & t2 & sf & t3 & data & _ & _ & Hupdate & _ & ->).
  assert (Hne : scored <> []).
  { intro E. subst scored. cbn in Hupdate. discriminate Hupdate. }
  rewrite (update_salesforce_loop session tomorrow self scored t2 Hne)
    in Hupdate.
  inversion Hupdate as [[Hsf Ht3]].
  destruct (update_loop_invariant session tomorrow self scored initial_locals t2)
    as (new & _ & u & c & e & mask & Hu & Hc & He & Hh & Ht & Hm & Hp & Hk
        & Htk & Hi & _).
  rewrite Hsf in *.
  cbn [initial_locals updated_records created_tasks error_records
       high_priority_count total_pipeline_value app] in *.
  pose proof (picks_length_filter high_priority mask scored Hp) as Hlen.
  assert (Hzero : (high_priority_count sf = 0)%Z ->
                  total_pipeline_value sf == 0).
  { intro H0. rewrite Ht.
    destruct (picks mask scored) as [|o rest]; [cbn; lra |].
    rewrite Hh in H0. cbn [List.length] in H0. lia. }
  exists scored, sf. split; [reflexivity |].
  split; [rewrite Hh; lia |]. split; [rewrite Hc; lia |].
  split; [rewrite He; exact Hi |].
  split; [exact Hzero |]. split.
  - intro Hnone. apply Hzero. rewrite Hnone in Hlen. cbn in Hlen.
    rewrite Hh. lia.
  - intro Hpos. rewrite Ht.
    assert (0 <= sum_amounts (picks mask scored)).
    { apply sum_amounts_nonneg. intros o Ho. apply Hpos.
      apply (picks_incl mask). exact Ho. }
    lra.
Qed.

Lemma summary_never_overcounts_witness :
  let session := stub_session Samples.agent (Samples.update_rejected "opp_001") in
  exists scored sf,
    fst (run_workflow session "2026-01-01" "2026-01-02" Samples.agent [])
    = success_result "2026-01-01" scored sf /\
    (high_priority_count sf
     <= Z.of_nat (List.length (filter high_priority scored)))%Z /\
    0 <= total_pipeline_value sf.
Proof.
  intro session.
  edestruct (summary_never_overcounts session "2026-01-01" "2026-01-02"
               Samples.agent [])
    as (scored & sf & Hresult & [_ Hh] & _ & _ & _ & _ & Hpos).
  - vm_compute. reflexivity.
  - reflexivity.
  - exists scored, sf. split; [| split; [exact Hh |]].
    + rewrite <- Hresult. vm_compute. reflexivity.
    + apply Hpos. intros o Ho.
      assert (Hs : scored = Samples.sample_scored).
      { vm_compute in Hresult. inversion Hresult. reflexivity. }
      rewrite Hs in Ho. cbn in Ho.
      repeat (destruct Ho as [<- | Ho]; [vm_compute; discriminate |]).
      contradiction.
Defined.

(** *** The stages in order *)

Lemma calls_sleeps_length (p : Request -> bool) (t : Trace) :
  (calls p t + List.length (sleeps t) <= List.length t)%nat.
Proof.
  induction t as [|[r | d] t IH]; cbn [sleeps List.length].
  - cbn. lia.
  - rewrite calls_cons_call. destruct (p r); lia.
  - change (calls p (Sleep d :: t)) with (calls p t). lia.
Qed.

Lemma counted_all (p : Request -> bool) (t : Trace) :
  List.length t = (calls p t + List.length (sleeps t))%nat -> only p t.
Proof.
  induction t as [|[r | d] t IH]; intros H r' Hin.
  - contradiction.
  - cbn [sleeps List.length] in H. rewrite calls_cons_call in H.
    pose proof (calls_sleeps_length p t) as Hle.
    destruct (p r) eqn:Hr; [| lia].
    destruct Hin as [E | Hin]; [inversion E; subst; exact Hr |].
    apply IH; [lia | exact Hin].
  - cbn [sleeps List.length] in H.
    change (calls p (Sleep d :: t)) with (calls p t) in H.
    destruct Hin as [E | Hin]; [discriminate E |].
    apply IH; [lia | exact Hin].
Qed.

Lemma no_calls (p : Request -> bool) (t : Trace) :
  calls p t = 0%nat -> forall r, In (Call r) t -> p r = false.
Proof.
  induction t as [|[r | d] t IH]; intros H r' Hin.
  - contradiction.
  - rewrite calls_cons_call in H. destruct (p r) eqn:Hr; [lia |].
    destruct Hin as [E | Hin]; [inversion E; subst; exact Hr |].
    apply IH; [lia | exact Hin].
  - change (calls p (Sleep d :: t)) with (calls p t) in H.
    destruct Hin as [E | Hin]; [discriminate E |].
    apply IH; assumption.
Qed.

Lemma only_nil (p : Request -> bool) : only p [].
Proof. intros r []. Qed.

Section Stages.

Variable session : Session.
Variables today tomorrow : string.
Variable self : Self.

Lemma fetch_stage (t : Trace) :
  exists new,
    snd (fetch_opportunities session self t) = t ++ new /\
    only is_query new.
Proof.
  destruct (loop_effort _ self (SnowflakeQuery fetch_sql) is_query eq_refl
              (fetch_loop session self) ltac:(reflexivity)
              (fetch_loop_round session self) (max_retries self + 1) 0 t)
    as (new & slept & Hnew & _ & _ & Hlen & _).
  exists new. split; [exact Hnew | apply counted_all; exact Hlen].
Qed.

Lemma score_stage (opportunities : list Opportunity) (t : Trace) :
  exists new,
    snd (score_opportunities session self opportunities t) = t ++ new /\
    only is_score new.
Proof.
  unfold score_opportunities. destruct opportunities as [|o rest].
  - exists []. rewrite app_nil_r. split; [reflexivity | apply only_nil].
  - destruct (loop_effort _ self
                (DatabricksScore "prod_fin_sales_v2" (o :: rest)) is_score
                eq_refl (score_loop session self (o :: rest))
                ltac:(reflexivity)
                (score_loop_round session self (o :: rest))
                (max_retries self + 1) 0 t)
      as (new & slept & Hnew & _ & _ & Hlen & _).
    exists new. split; [exact Hnew | apply counted_all; exact Hlen].
Qed.

Lemma write_stage (sf : SfResults) (t : Trace) :
  exists new,
    snd (write_summary session today self sf t) = t ++ new /\
    only is_insert new.
Proof.
  destruct (loop_effort _ self (summary_request today sf) is_insert eq_refl
              (write_loop session today self sf) ltac:(reflexivity)
              (write_loop_round session today self sf)
              (max_retries self + 1) 0 t)
    as (new & slept & Hnew & _ & _ & Hlen & _).
  exists new. split; [exact Hnew | apply counted_all; exact Hlen].
Qed.

Lemma update_stage (scored : list ScoredOpportunity) (t : Trace) :
  exists new,
    snd (update_salesforce session tomorrow self scored t) = t ++ new /\
    only is_update_or_task new.
Proof.
  destruct scored as [|o rest].
  - exists []. cbn. rewrite app_nil_r. split; [reflexivity | apply only_nil].
  - rewrite (update_salesforce_loop session tomorrow self (o :: rest) t)
      by discriminate.
    destruct (update_loop_invariant session tomorrow self (o :: rest)
                initial_locals t)
      as (new & Htrace & u & c & e & mask & _ & _ & _ & _ & _ & _ & _ & _
          & _ & _ & _ & _ & Hq & Hs & Hi).
    exists new. split; [exact Htrace |].
    intros r Hin.
    pose proof (no_calls _ _ Hq r Hin) as Hq'.
    pose proof (no_calls _ _ Hs r Hin) as Hs'.
    pose proof (no_calls _ _ Hi r Hin) as Hi'.
    destruct r; cbn in *; congruence.
Qed.

(** X26. The stages of a run never interleave. Whatever the services
    answer and wherever the run stops, its trace is made of four parts in
    this order: requests to the query address only, then scoring requests
    only, then update and task requests only, then insert requests only
    (sleeps apart); a stage the run did not reach has an empty part. *)
Theorem stages_run_in_order :
  forall (t : Trace),
    exists fetched scored updated written,
      snd (run_workflow session today tomorrow self t)
      = t ++ fetched ++ scored ++ updated ++ written /\
      only is_query fetched /\
      only is_score scored /\
      only is_update_or_task updated /\
      only is_insert written.
Proof.
  intro t. unfold run_workflow, workflow_steps, bind.
  destruct (fetch_stage t) as (f & Hf & Hfo).
  destruct (fetch_opportunities session self t) as [[e | rows] t1];
    cbn [snd] in Hf; subst t1.
  { exists f, [], [], []. rewrite !app_nil_r.
    repeat split; auto using only_nil. }
  destruct (score_stage rows (t ++ f)) as (s & Hs & Hso).
  destruct (score_opportunities session self rows (t ++ f)) as [[e | scored] t2];
    cbn [snd] in Hs; subst t2.
  { exists f, s, [], []. rewrite !app_nil_r, <- app_assoc.
    repeat split; auto using only_nil. }
  destruct (update_stage scored ((t ++ f) ++ s)) as (u & Hu & Huo).
  destruct (update_salesforce session tomorrow self scored ((t ++ f) ++ s))
    as [[e | [| sf]] t3]; cbn [snd] in Hu; subst t3.
  { exists f, s, u, []. rewrite !app_nil_r, <- !app_assoc.
    repeat split; auto using only_nil. }
  { exists f, s, u, []. cbn. rewrite !app_nil_r, <- !app_assoc.
    repeat split; auto using only_nil. }
  cbn [subscript ret].
  destruct (write_stage sf (((t ++ f) ++ s) ++ u)) as (w & Hw & Hwo).
  destruct (write_summary session today self sf (((t ++ f) ++ s) ++ u))
    as [[e | data] t4]; cbn [snd] in Hw; subst t4;
    exists f, s, u, w; cbn; rewrite <- !app_assoc;
    repeat split; assumption.
Qed.

End Stages.

End UpdateStageProofs.

(** ** Scoring: what the rule can and cannot give *)

Module ScoringRange.

Import DatabricksAgent.
Import ScoringProofs.
Open Scope Q_scope.

Lemma amount_factor_full (a : Q) : a <= 700000 -> amount_factor a == 0.3.
Proof.
  intro H. unfold amount_factor.
  assert (Hdiv : a / 1000000 <= 0.7).
  { apply Qle_shift_div_r; [reflexivity | lra]. }
  revert Hdiv. generalize (a / 1000000). intros q Hdiv.
  cases_min_max; lra.
Qed.

Lemma amount_factor_zero_inv (a : Q) : amount_factor a <= 0 -> 1000000 <= a.
Proof.
  unfold amount_factor. intro H.
  destruct (Qlt_le_dec a 1000000) as [Hlt | Hge]; [| exact Hge].
  exfalso.
  assert (Hdiv : a / 1000000 < 1).
  { apply Qlt_shift_div_r; [reflexivity | lra]. }
  revert H Hdiv. generalize (a / 1000000). intros q H Hdiv.
  revert H. cases_min_max; lra.
Qed.

Lemma industry_bonus_cases (i : string) :
  (i = "Technology" /\ industry_bonus i = 0.2) \/
  (i = "Healthcare" /\ industry_bonus i = 0.15) \/
  (i = "Finance" /\ industry_bonus i = 0.1) \/
  (i = "Retail" /\ industry_bonus i = 0.05) \/
  (i <> "Technology" /\ i <> "Healthcare" /\ i <> "Finance" /\
   industry_bonus i = 0).
Proof.
  unfold industry_bonus.
  destruct (String.eqb_spec i "Technology"); [auto |].
  destruct (String.eqb_spec i "Healthcare"); [auto |].
  destruct (String.eqb_spec i "Finance"); [auto 6 |].
  destruct (String.eqb_spec i "Retail"); [auto 6 |].
  auto 10.
Qed.

Lemma round2_monotone (x y : Q) : x <= y -> round2 x <= round2 y.
Proof.
  intro Hxy. unfold round2.
  assert (Hn : (Qfloor (x * 100) <= Qfloor (y * 100))%Z)
    by (apply Qfloor_resp_le; lra).
  pose proof (Qfloor_le (x * 100)) as Hx1.
  pose proof (Qlt_floor (x * 100)) as Hx2.
  pose proof (Qfloor_le (y * 100)) as Hy1.
  pose proof (Qlt_floor (y * 100)) as Hy2.
  revert Hn Hx1 Hx2 Hy1 Hy2.
  generalize (Qfloor (x * 100)) (Qfloor (y * 100)). intros nx ny Hn Hx1 Hx2 Hy1 Hy2.
  rewrite inject_Z_plus in Hx2, Hy2.
  change (inject_Z 1) with 1 in Hx2, Hy2.
  assert (Hdiv : forall a b : Z, (a <= b)%Z -> inject_Z a / 100 <= inject_Z b / 100).
  { intros a b Hab. unfold Qdiv. apply Qmult_le_compat_r; [| discriminate].
    rewrite <- Zle_Qle. exact Hab. }
  destruct (Z.eq_dec nx ny) as [E | E].
  - subst ny. cases_Qltb; try (apply Hdiv; lia); try lra;
      destruct (Z.even nx); apply Hdiv; lia.
  - assert (Hlt : (nx + 1 <= ny)%Z) by lia.
    cases_Qltb; repeat match goal with
                       | |- context [Z.even ?n] => destruct (Z.even n)
                       end; apply Hdiv; lia.
Qed.

Lemma win_prob_sum (opportunity : Opportunity) (noise : Q) :
  win_prob opportunity noise
  = py_max 0.1 (py_min 0.9
      (0.5 + amount_factor (amount_of opportunity)
       + industry_bonus (industry_of opportunity) + noise)).
Proof. reflexivity. Qed.

Lemma tier_cases (p : Q) :
  (0.7 < p /\ tier p = 0%nat) \/
  (p <= 0.7 /\ 0.4 < p /\ tier p = 1%nat) \/
  (p <= 0.4 /\ tier p = 2%nat).
Proof.
  unfold tier.
  destruct (Qltb 0.7 p) eqn:E1;
    [apply Qltb_true in E1; auto | apply Qltb_false in E1].
  destruct (Qltb 0.4 p) eqn:E2;
    [apply Qltb_true in E2; auto | apply Qltb_false in E2].
  right. right. split; [exact E2 | reflexivity].
Qed.

Lemma default_products (i : string) :
  i <> "Technology" -> i <> "Healthcare" -> i <> "Finance" ->
  products i = ["CRM Enterprise"; "Analytics Suite"; "Support Package"].
Proof.
  intros H1 H2 H3. unfold products.
  apply String.eqb_neq in H1, H2, H3. rewrite H1, H2, H3. reflexivity.
Qed.

(** The three entries a list has at ranks 0 and 1 never include the
    entry-level products of the three named industries. *)
Lemma upper_ranks (i : string) (k : nat) :
  (k < 2)%nat ->
  nth k (products i) "" <> "Data Warehouse" /\
  nth k (products i) "" <> "Compliance Suite" /\
  nth k (products i) "" <> "Fraud Detection" /\
  nth k (products i) "" <> "Support Package".
Proof.
  intro Hk. unfold products.
  destruct k as [|[|k]]; [| | lia];
    repeat match goal with
    | |- context [String.eqb ?x ?y] => destruct (String.eqb x y)
    end; cbn; repeat split; discriminate.
Qed.

(** X10. With the random term in the range [random.uniform(-0.1, 0.1)]
    draws from, the mock score is never below 0.4, and an entry-level
    product is out of reach but for a narrow corner: "Data Warehouse",
    "Compliance Suite" and "Fraud Detection" are never recommended, and
    "Support Package" never when the random term is -0.099 or more, never
    for an opportunity of 999000 or less, and never in an industry with a
    bonus. The margins are wide of any rounding of the sum. *)
Theorem entry_level_products_are_out_of_reach :
  forall (opportunity : Opportunity) (noise : Q),
    -0.1 <= noise -> noise <= 0.1 ->
    let scored := _mock_score_opportunity opportunity noise in
    (0.4 <= winProbability scored /\ winProbability scored <= 0.9) /\
    nextBestProduct scored <> "Data Warehouse" /\
    nextBestProduct scored <> "Compliance Suite" /\
    nextBestProduct scored <> "Fraud Detection" /\
    (-0.099 <= noise -> nextBestProduct scored <> "Support Package") /\
    (amount_of opportunity <= 999000 ->
     nextBestProduct scored <> "Support Package") /\
    (0 < industry_bonus (industry_of opportunity) ->
     nextBestProduct scored <> "Support Package").
Proof.
  intros opportunity noise Hlo Hhi scored.
  pose proof (amount_factor_bounds (amount_of opportunity)) as [Haf0 Haf1].
  assert (Hb0 : 0 <= industry_bonus (industry_of opportunity)).
  { destruct (industry_bonus_cases (industry_of opportunity))
      as [[_ E] | [[_ E] | [[_ E] | [[_ E] | [_ [_ [_ E]]]]]]];
      rewrite E; lra. }
  assert (Hw : 0.4 <= win_prob opportunity noise /\
               win_prob opportunity noise <= 0.9).
  { rewrite win_prob_sum.
    revert Haf0 Hb0.
    generalize (amount_factor (amount_of opportunity))
               (industry_bonus (industry_of opportunity)).
    intros af b Haf0 Hb0. cases_min_max; lra. }
  assert (Hbottom : win_prob opportunity noise <= 0.4 ->
            1000000 <= amount_of opportunity /\
            industry_bonus (industry_of opportunity) = 0 /\
            noise == -0.1).
  { intro Hle. rewrite win_prob_sum in Hle.
    assert (Hb : industry_bonus (industry_of opportunity) = 0 /\
                 amount_factor (amount_of opportunity) <= 0 /\
                 noise == -0.1).
    { destruct (industry_bonus_cases (industry_of opportunity))
        as [[_ E] | [[_ E] | [[_ E] | [[_ E] | [_ [_ [_ E]]]]]]];
        rewrite E in Hle |- *; revert Hle Haf0;
        generalize (amount_factor (amount_of opportunity)); intros af Hle Haf0;
        revert Hle; cases_min_max; intro Hle;
        try (exfalso; lra); repeat split; try reflexivity; lra. }
    destruct Hb as (Hb & Haf & Hn).
    repeat split; try assumption. apply amount_factor_zero_inv. exact Haf. }
  assert (Hsel : nextBestProduct scored
                 = nth (tier (win_prob opportunity noise))
                       (products (industry_of opportunity)) "") by reflexivity.
  assert (Hstored : winProbability scored = round2 (win_prob opportunity noise))
    by reflexivity.
  split; [| destruct (tier_cases (win_prob opportunity noise))
              as [[Hp Ht] | [[Hp1 [Hp2 Ht]] | [Hp Ht]]]].
  - rewrite Hstored. destruct Hw as [Hw1 Hw2]. split.
    + apply (Qle_trans _ (round2 0.4)); [vm_compute; discriminate |].
      apply round2_monotone. exact Hw1.
    + apply (Qle_trans _ (round2 0.9)); [| vm_compute; discriminate].
      apply round2_monotone. exact Hw2.
  - rewrite Hsel, Ht.
    destruct (upper_ranks (industry_of opportunity) 0 ltac:(lia))
      as (H1 & H2 & H3 & H4).
    repeat split; try assumption; intros _; exact H4.
  - rewrite Hsel, Ht.
    destruct (upper_ranks (industry_of opportunity) 1 ltac:(lia))
      as (H1 & H2 & H3 & H4).
    repeat split; try assumption; intros _; exact H4.
  - destruct (Hbottom Hp) as (Ha & Hb & Hn).
    assert (Hdefault : products (industry_of opportunity)
                       = ["CRM Enterprise"; "Analytics Suite"; "Support Package"]).
    { destruct (industry_bonus_cases (industry_of opportunity))
        as [[_ E] | [[_ E] | [[_ E] | [[_ E] | [N1 [N2 [N3 _]]]]]]];
        try (rewrite E in Hb; discriminate Hb).
      apply default_products; assumption. }
    rewrite Hsel, Ht, Hdefault. cbn [nth].
    split; [discriminate | split; [discriminate | split; [discriminate |]]].
    split; [intro H; exfalso; lra |].
    split; [intro H; exfalso; lra |].
    intro H. exfalso. rewrite Hb in H. lra.
Qed.

Lemma entry_level_products_are_out_of_reach_witness :
  let scored := _mock_score_opportunity (row "opp_big" 2000000 "Tech") (-0.09) in
  0.4 <= winProbability scored /\
  nextBestProduct scored <> "Support Package" /\
  nextBestProduct scored <> "Data Warehouse".
Proof.
  intro scored.
  destruct (entry_level_products_are_out_of_reach
              (row "opp_big" 2000000 "Tech") (-0.09))
    as ([Hlo _] & Hdw & _ & _ & Hsp & _); [vm_compute; discriminate .. |].
  split; [exact Hlo | split; [| exact Hdw]].
  apply Hsp. vm_compute. discriminate.
Defined.

Lemma mock_score_bounds_range (opportunity : Opportunity) (noise : Q) :
  0.1 <= winProbability (_mock_score_opportunity opportunity noise) /\
  winProbability (_mock_score_opportunity opportunity noise) <= 0.9.
Proof.
  assert (H : 0.1 <= win_prob opportunity noise /\
              win_prob opportunity noise <= 0.9).
  { unfold win_prob. apply clamp_bounds. lra. }
  destruct H. apply round2_bounds; assumption.
Qed.

Lemma clamp_monotone (lo hi x y : Q) :
  x <= y -> py_max lo (py_min hi x) <= py_max lo (py_min hi y).
Proof. intro H. cases_min_max; lra. Qed.

Lemma tier_antitone (p q : Q) : q <= p -> (tier p <= tier q)%nat.
Proof.
  intro H.
  destruct (tier_cases p) as [[Hp ->] | [[Hp1 [Hp2 ->]] | [Hp ->]]];
    destruct (tier_cases q) as [[Hq ->] | [[Hq1 [Hq2 ->]] | [Hq ->]]];
    try lia; exfalso; lra.
Qed.

(** X11. Other things equal, a larger deal never scores higher and is never
    offered a product of a higher rank: for two opportunities of the same
    industry, the one with the larger amount (and a random term no larger)
    gets a stored win probability no higher, and a product no earlier in the
    industry's list. *)
Theorem larger_deal_never_scores_higher :
  forall (o1 o2 : Opportunity) (noise1 noise2 : Q),
    industry_of o1 = industry_of o2 ->
    amount_of o1 <= amount_of o2 ->
    noise2 <= noise1 ->
    winProbability (_mock_score_opportunity o2 noise2)
    <= winProbability (_mock_score_opportunity o1 noise1) /\
    (tier (win_prob o1 noise1) <= tier (win_prob o2 noise2))%nat /\
    nextBestProduct (_mock_score_opportunity o1 noise1)
    = nth (tier (win_prob o1 noise1)) (products (industry_of o1)) "" /\
    nextBestProduct (_mock_score_opportunity o2 noise2)
    = nth (tier (win_prob o2 noise2)) (products (industry_of o1)) "".
Proof.
  intros o1 o2 noise1 noise2 Hi Ha Hn.
  assert (Hw : win_prob o2 noise2 <= win_prob o1 noise1).
  { rewrite !win_prob_sum, Hi. apply clamp_monotone.
    pose proof (amount_factor_antitone _ _ Ha). lra. }
  split; [| split; [| split]].
  - apply round2_monotone. exact Hw.
  - apply tier_antitone. exact Hw.
  - reflexivity.
  - unfold _mock_score_opportunity, next_product. cbn. rewrite Hi. reflexivity.
Qed.

Lemma larger_deal_never_scores_higher_witness :
  winProbability (_mock_score_opportunity (row "b" 900000 "Finance") 0)
  <= winProbability (_mock_score_opportunity (row "a" 250000 "Finance") 0).
Proof.
  apply (larger_deal_never_scores_higher
           (row "a" 250000 "Finance") (row "b" 900000 "Finance") 0 0);
    [reflexivity | vm_compute; discriminate | vm_compute; discriminate].
Defined.

(** X12. The product goes by the unrounded probability, the stored
    probability is rounded to two decimals. Off the two thresholds the
    stored value still tells the product: above 0.7 the first of the
    industry's list, between 0.4 and 0.7 the second, below 0.4 the third.
    On a threshold it does not: one opportunity, two random terms within
    range, the same stored 0.7, two different products. *)
Theorem stored_probability_and_product :
  forall (opportunity : Opportunity) (noise : Q),
    let scored := _mock_score_opportunity opportunity noise in
    let l := products (industry_of opportunity) in
    (0.7 < winProbability scored -> nextBestProduct scored = nth 0 l "") /\
    (winProbability scored < 0.7 -> 0.4 < winProbability scored ->
     nextBestProduct scored = nth 1 l "") /\
    (winProbability scored < 0.4 -> nextBestProduct scored = nth 2 l "") /\
    (exists o n1 n2,
        (-0.1 <= n1 /\ n1 <= 0.1) /\ (-0.1 <= n2 /\ n2 <= 0.1) /\
        winProbability (_mock_score_opportunity o n1) == 0.7 /\
        winProbability (_mock_score_opportunity o n2) == 0.7 /\
        nextBestProduct (_mock_score_opportunity o n1)
        <> nextBestProduct (_mock_score_opportunity o n2)).
Proof.
  intros opportunity noise scored l.
  assert (Hsel : nextBestProduct scored
                 = nth (tier (win_prob opportunity noise)) l "") by reflexivity.
  assert (Hstored : winProbability scored = round2 (win_prob opportunity noise))
    by reflexivity.
  assert (H7 : round2 0.7 == 0.7) by reflexivity.
  assert (H4 : round2 0.4 == 0.4) by reflexivity.
  assert (Hup : forall c x, round2 c == c -> c < round2 x -> c < x).
  { intros c x Hc H. apply Qnot_le_lt. intro Hle.
    apply round2_monotone in Hle. lra. }
  assert (Hdown : forall c x, round2 c == c -> round2 x < c -> x < c).
  { intros c x Hc H. apply Qnot_le_lt. intro Hle.
    apply round2_monotone in Hle. lra. }
  rewrite Hsel, Hstored.
  split; [| split; [| split]].
  - intro H. apply (Hup _ _ H7) in H.
    destruct (tier_cases (win_prob opportunity noise))
      as [[Hp ->] | [[Hp1 [Hp2 ->]] | [Hp ->]]];
      [reflexivity | exfalso; lra | exfalso; lra].
  - intros Ha Hb. apply (Hdown _ _ H7) in Ha. apply (Hup _ _ H4) in Hb.
    destruct (tier_cases (win_prob opportunity noise))
      as [[Hp ->] | [[Hp1 [Hp2 ->]] | [Hp ->]]];
      [exfalso; lra | reflexivity | exfalso; lra].
  - intro H. apply (Hdown _ _ H4) in H.
    destruct (tier_cases (win_prob opportunity noise))
      as [[Hp ->] | [[Hp1 [Hp2 ->]] | [Hp ->]]];
      [exfalso; lra | exfalso; lra | reflexivity].
  - exists (row "opp_x" 900000 "Finance"), 0.004, 0.
    repeat split; try (vm_compute; discriminate); try reflexivity.
Qed.

Lemma stored_probability_and_product_witness :
  nextBestProduct (_mock_score_opportunity opp_001 0) = "Trading Platform".
Proof.
  destruct (stored_probability_and_product opp_001 0) as [H _].
  apply H. vm_compute. reflexivity.
Defined.

Lemma mock_scores_nth (opportunities : list Opportunity) :
  forall (noise : nat -> Q) (i : nat),
    nth_error (_mock_score_opportunities opportunities noise) i
    = option_map (fun o => _mock_score_opportunity o (noise i))
        (nth_error opportunities i).
Proof.
  induction opportunities as [|o rest IH]; intros noise i.
  - destruct i; reflexivity.
  - destruct i as [|i]; [reflexivity |].
    cbn [_mock_score_opportunities nth_error]. rewrite IH. reflexivity.
Qed.

(** X13. Batch scoring answers row for row: the list it returns has the
    length and the order of the list it was given, every row is the copy of
    its opportunity scored with its own draw of the random term, and every
    win probability lies in [0.1, 0.9] whatever the draws. *)
Theorem batch_scoring_keeps_rows :
  forall (opportunities : list Opportunity) (noise : nat -> Q),
    let scored := _mock_score_opportunities opportunities noise in
    List.length scored = List.length opportunities /\
    map source scored = opportunities /\
    (forall i opp,
        nth_error opportunities i = Some opp ->
        nth_error scored i = Some (_mock_score_opportunity opp (noise i))) /\
    (forall s, In s scored ->
               0.1 <= winProbability s /\ winProbability s <= 0.9).
Proof.
  intros opportunities noise scored. subst scored.
  split; [| split; [| split]].
  - revert noise. induction opportunities as [|o rest IH]; intro noise;
      [reflexivity |].
    cbn. rewrite IH. reflexivity.
  - revert noise. induction opportunities as [|o rest IH]; intro noise;
      [reflexivity |].
    cbn. rewrite IH. reflexivity.
  - intros i opp H. rewrite mock_scores_nth, H. reflexivity.
  - intros s Hin. apply In_nth_error in Hin. destruct Hin as [i Hi].
    rewrite mock_scores_nth in Hi.
    destruct (nth_error opportunities i) as [o |]; [| discriminate Hi].
    inversion Hi. apply mock_score_bounds_range.
Qed.

Lemma batch_scoring_keeps_rows_witness :
  nth_error (_mock_score_opportunities [opp_001; row "b" 900000 "Finance"]
               (fun i => if Nat.eqb i 0 then 0 else -0.1)) 1
  = Some (_mock_score_opportunity (row "b" 900000 "Finance") (-0.1)).
Proof.
  destruct (batch_scoring_keeps_rows [opp_001; row "b" 900000 "Finance"]
              (fun i => if Nat.eqb i 0 then 0 else -0.1)) as (_ & _ & H & _).
  apply (H 1%nat). reflexivity.
Defined.

(** X22. A small Technology deal scores the same whatever is drawn: for an
    opportunity of the Technology industry with an amount of 700000 or
    less - or with neither key, as both defaults qualify - and a random term
    of -0.1 or more, the win probability is clamped to 0.9, the stored
    value is 0.9, above the 0.8 the workflow calls high priority, and the
    product is "Cloud Security". *)
Theorem small_technology_deal_saturates :
  forall (opportunity : Opportunity) (noise : Q),
    industry_of opportunity = "Technology" ->
    amount_of opportunity <= 700000 ->
    -0.1 <= noise ->
    let scored := _mock_score_opportunity opportunity noise in
    win_prob opportunity noise = 0.9 /\
    winProbability scored == 0.9 /\
    Qltb 0.8 (winProbability scored) = true /\
    nextBestProduct scored = "Cloud Security" /\
    (amount opportunity = None -> amount_of opportunity <= 700000) /\
    (industry opportunity = None -> industry_of opportunity = "Technology").
Proof.
  intros opportunity noise Hi Ha Hn scored.
  assert (Hw : win_prob opportunity noise = 0.9).
  { rewrite win_prob_sum, Hi. pose proof (amount_factor_full _ Ha) as Haf.
    change (industry_bonus "Technology") with 0.2.
    assert (Hge : Qltb (0.5 + amount_factor (amount_of opportunity) + 0.2
                        + noise) 0.9 = false) by (apply Qltb_false; lra).
    unfold py_min. rewrite Hge. reflexivity. }
  assert (Hstored : winProbability scored = round2 0.9)
    by (subst scored; unfold _mock_score_opportunity; cbn; rewrite Hw;
        reflexivity).
  split; [exact Hw |]. split; [rewrite Hstored; reflexivity |].
  split; [rewrite Hstored; reflexivity |]. split.
  - subst scored. unfold _mock_score_opportunity, next_product. cbn.
    rewrite Hw, Hi. reflexivity.
  - split; intro H.
    + unfold amount_of. rewrite H. discriminate.
    + unfold industry_of. rewrite H. reflexivity.
Qed.

Lemma small_technology_deal_saturates_witness :
  let bare := {| id := Some "opp_bare"; amount := None; industry := None;
                 existing_customer := None; days_in_current_stage := None |} in
  nextBestProduct (_mock_score_opportunity bare (-0.1)) = "Cloud Security".
Proof.
  intro bare.
  destruct (small_technology_deal_saturates bare (-0.1))
    as (_ & _ & _ & H & _);
    [reflexivity | vm_compute; discriminate | vm_compute; discriminate |].
  exact H.
Defined.

End ScoringRange.

(** ** A conversation turn with the repository's handlers *)

Module TurnProofs.

Import Api.
Open Scope list_scope.

Lemma skipn_length_min {A} (l : list A) :
  List.length (Coordinator.last5 l) = Nat.min 5 (List.length l).
Proof. unfold Coordinator.last5. rewrite length_skipn. lia. Qed.

(** X14. The coordinator shows the model a bounded window: the messages it
    sends are the last five entries of the conversation history (all of
    them when there are fewer), in order, each with its content and with
    its role read as "user" or else "assistant", followed by one "user"
    message that carries the role of the user and the current request. *)
Theorem coordinator_window :
  forall (state : State),
    let history := conversation_history (context state) in
    let sent := Coordinator.messages_for state in
    List.length sent = (Nat.min 5 (List.length history) + 1)%nat /\
    (exists older recent,
        history = older ++ recent /\
        List.length recent = Nat.min 5 (List.length history) /\
        sent = map Coordinator.history_message recent
               ++ [Coordinator.current_request
                     (match user_role (context state) with
                      | Some r => r
                      | None => "unknown"
                      end) (input state)] /\
        map content (map Coordinator.history_message recent)
        = map content recent) /\
    (forall m, In m sent -> role m = "user" \/ role m = "assistant") /\
    role (last sent (Coordinator.current_request "" "")) = "user".
Proof.
  intros state history sent. subst sent. unfold Coordinator.messages_for.
  fold history.
  split; [| split; [| split]].
  - rewrite length_app, length_map, skipn_length_min. reflexivity.
  - exists (firstn (List.length history - 5) history),
      (Coordinator.last5 history).
    split; [unfold Coordinator.last5; rewrite firstn_skipn; reflexivity |].
    split; [apply skipn_length_min |]. split; [reflexivity |].
    rewrite map_map. reflexivity.
  - intros m Hin. apply in_app_or in Hin. destruct Hin as [Hin | [<- | []]].
    + apply in_map_iff in Hin. destruct Hin as (entry & <- & _).
      cbn. destruct (String.eqb (role entry) "user"); auto.
    + left. reflexivity.
  - rewrite last_last. reflexivity.
Qed.

Section Wired.

Variables coordinator_agent route_optimizer_agent fleet_monitor_agent
  data_retriever_agent notification_agent : Handler.

Hypothesis Hcoordinator : Server.keeps_conversation coordinator_agent.
Hypothesis Hroute : Server.answers_or_hands_over route_optimizer_agent.
Hypothesis Hfleet : Server.answers_or_hands_over fleet_monitor_agent.
Hypothesis Hdata : Server.answers data_retriever_agent.
Hypothesis Hnotification : Server.answers notification_agent.

Lemma answers_weaken (handler : Handler) :
  Server.answers handler -> Server.answers_or_hands_over handler.
Proof.
  intros H state. specialize (H state).
  destruct (handler state); [left; exact H | exact H].
Qed.

Lemma specialist_hands_over (next_agent : string) :
  Server.answers_or_hands_over
    (snd (specialist route_optimizer_agent fleet_monitor_agent
            data_retriever_agent notification_agent next_agent)).
Proof.
  unfold specialist.
  repeat match goal with
         | |- context [String.eqb ?x ?y] => destruct (String.eqb x y)
         end; cbn [snd]; auto using answers_weaken.
Qed.

Lemma wired_turn (user_input : string) (context0 : Context) :
  Server.turn_outcome context0
    (process_with_agents coordinator_agent route_optimizer_agent
       fleet_monitor_agent data_retriever_agent notification_agent
       user_input context0).
Proof.
  unfold process_with_agents, Server.turn_outcome.
  pose proof (Hcoordinator {| input := user_input; context := context0;
                              next := "" |}) as Hc.
  destruct (coordinator_agent _) as [st1 | e c1]; cbn [context] in Hc;
    [| cbn; split; [lia | exact Hc]].
  destruct Hc as [Hm1 Hh1].
  pose proof (specialist_hands_over (next st1) st1) as Hs.
  destruct (specialist _ _ _ _ (next st1)) as [name agent]. cbn [snd] in Hs.
  destruct (agent st1) as [st2 | e c2].
  2:{ cbn. subst c2. split; [lia | split; assumption]. }
  unfold step3, step4.
  destruct Hs as [[Hend [text Hctx]] | [[Hnext | Hnext] Hctx]].
  - rewrite Hend. cbn. rewrite Hctx. cbn. unfold messages_of. rewrite Hm1, Hh1.
    split; [lia |]. repeat split; eauto.
  - rewrite Hnext. cbn [String.eqb Ascii.eqb Bool.eqb].
    pose proof (Hdata st2) as Hd.
    destruct (data_retriever_agent st2) as [st3 | e c3].
    + destruct Hd as [Hend [text Hctx3]]. rewrite Hend. cbn.
      rewrite Hctx3, Hctx. cbn. unfold messages_of. rewrite Hm1, Hh1.
      split; [lia |]. repeat split; eauto.
    + cbn. subst c3. rewrite Hctx. split; [lia | split; assumption].
  - rewrite Hnext. cbn [String.eqb Ascii.eqb Bool.eqb].
    pose proof (Hnotification st2) as Hn.
    destruct (notification_agent st2) as [st3 | e c3].
    + destruct Hn as [Hend [text Hctx3]]. cbn.
      rewrite Hctx3, Hctx. cbn. unfold messages_of. rewrite Hm1, Hh1.
      split; [lia |]. repeat split; eauto.
    + cbn. subst c3. rewrite Hctx. split; [lia | split; assumption].
Qed.

End Wired.

(** *** The repository's handlers behave so *)

Lemma coordinator_keeps_conversation (client : list Message -> string + string) :
  Server.keeps_conversation (Coordinator.coordinator_agent client).
Proof.
  intro state. unfold Coordinator.coordinator_agent.
  destruct (client _); cbn; auto.
Qed.

Lemma route_optimizer_hands_over (model : State -> string + string) :
  Server.answers_or_hands_over (Specialists.route_optimizer_agent model).
Proof.
  intro state. unfold Specialists.route_optimizer_agent.
  destruct (model state) as [e | text]; [reflexivity |].
  unfold Specialists.next_step.
  repeat match goal with
         | |- context [contains ?a ?b] => destruct (contains a b)
         end; cbn; eauto.
Qed.

Lemma fleet_monitor_hands_over (model : State -> string + string)
  (fleet_summary : string) :
  Server.answers_or_hands_over
    (Specialists.fleet_monitor_agent model fleet_summary).
Proof.
  intro state. unfold Specialists.fleet_monitor_agent.
  destruct (model state) as [e | text]; [reflexivity |].
  generalize (Specialists.with_fleet_data fleet_summary (input state)).
  intro input_text. unfold Specialists.next_step.
  repeat match goal with
         | |- context [contains ?a ?b] => destruct (contains a b)
         end; cbn; eauto.
Qed.

Lemma data_retriever_answers (model : State -> string + string) :
  Server.answers (Specialists.data_retriever_agent model).
Proof.
  intro state. unfold Specialists.data_retriever_agent.
  destruct (model state); cbn; eauto.
Qed.

Lemma notification_answers (model : State -> string + string) :
  Server.answers (Specialists.notification_agent model).
Proof.
  intro state. unfold Specialists.notification_agent.
  destruct (model state); cbn; eauto.
Qed.

(** X15. With the five handlers [api.py] imports, a turn never ends in a
    state that asks for another handler. Whatever the model completes, at
    most three handlers run (the coordinator, one specialist, then the data
    retriever or the notifier, never both); the result is either an error,
    with the messages and the history of the context as they were, or a
    final state whose [next] is END and whose context holds exactly one new
    assistant message. *)
Theorem turn_ends_with_one_answer :
  forall (client : list Message -> string + string)
         (route_optimizer_model fleet_monitor_model data_retriever_model
          notification_model : State -> string + string)
         (fleet_summary user_input : string) (context0 : Context),
    Server.turn_outcome context0
      (Server.process_with_agents client route_optimizer_model
         fleet_monitor_model data_retriever_model notification_model
         fleet_summary user_input context0).
Proof.
  intros. unfold Server.process_with_agents. apply wired_turn.
  - apply coordinator_keeps_conversation.
  - apply route_optimizer_hands_over.
  - apply fleet_monitor_hands_over.
  - apply data_retriever_answers.
  - apply notification_answers.
Qed.

(** *** The session store *)

Lemma get_set_item {V} (key : string) (value : V) (d : list (string * V)) :
  OrchestratorAgent.get key (Server.set_item key value d) = Some value.
Proof.
  induction d as [|[k v] rest IH]; cbn.
  - rewrite String.eqb_refl. reflexivity.
  - destruct (String.eqb k key) eqn:E; cbn; rewrite E; [reflexivity | exact IH].
Qed.

Lemma get_set_other {V} (key other : string) (value : V)
  (d : list (string * V)) :
  other <> key ->
  OrchestratorAgent.get other (Server.set_item key value d)
  = OrchestratorAgent.get other d.
Proof.
  intro Hne. induction d as [|[k v] rest IH]; cbn.
  - destruct (String.eqb_spec key other); [congruence | reflexivity].
  - destruct (String.eqb_spec k key) as [-> | Hk]; cbn.
    + destruct (String.eqb_spec key other); [congruence | reflexivity].
    + destruct (String.eqb k other); [reflexivity | exact IH].
Qed.

Lemma tidy_set_item (sessions : Server.Sessions) (key : string) (context : Context) :
  Server.tidy sessions -> messages context = [] ->
  Server.tidy (Server.set_item key context sessions).
Proof.
  intros Ht Hm sid c Hget.
  destruct (String.eqb_spec sid key) as [-> | Hne].
  - rewrite get_set_item in Hget. inversion Hget. subst. exact Hm.
  - rewrite get_set_other in Hget by exact Hne. apply (Ht sid c Hget).
Qed.

Section Queries.

Variable client : list Message -> string + string.
Variables route_optimizer_model fleet_monitor_model data_retriever_model
  notification_model : State -> string + string.
Variable fleet_summary : string.
Variable fallback : string -> string -> string + string.
Variable new_session_id : string.

Local Abbreviation process_query :=
  (Server.process_query client route_optimizer_model fleet_monitor_model
     data_retriever_model notification_model fleet_summary fallback
     new_session_id).

Local Abbreviation turn :=
  (Server.process_with_agents client route_optimizer_model fleet_monitor_model
     data_retriever_model notification_model fleet_summary).

Local Abbreviation opened := (Server.opened new_session_id).
Local Abbreviation entered := (Server.entered new_session_id).

Lemma entered_context (request : Server.QueryRequest)
  (sessions : Server.Sessions) :
  Server.tidy sessions ->
  messages (entered request sessions) = [] /\
  conversation_history (entered request sessions)
  = Server.history_of (Server.session_of new_session_id request) sessions
    ++ [Server.user_message (Server.request_input request)].
Proof.
  intro Htidy. unfold Server.entered, Server.opened, Server.session_context,
    Server.history_of.
  destruct (OrchestratorAgent.get _ sessions) as [c |] eqn:E.
  - rewrite E. cbn. split; [apply (Htidy _ _ E) | reflexivity].
  - rewrite get_set_item. cbn. split; reflexivity.
Qed.

Lemma opened_other (request : Server.QueryRequest)
  (sessions : Server.Sessions) (other : string) :
  other <> Server.session_of new_session_id request ->
  OrchestratorAgent.get other (opened request sessions)
  = OrchestratorAgent.get other sessions.
Proof.
  intro Hne. unfold Server.opened.
  destruct (OrchestratorAgent.get _ sessions); [reflexivity |].
  apply get_set_other. exact Hne.
Qed.

Lemma opened_tidy (request : Server.QueryRequest)
  (sessions : Server.Sessions) :
  Server.tidy sessions -> Server.tidy (opened request sessions).
Proof.
  intro Htidy. unfold Server.opened.
  destruct (OrchestratorAgent.get _ sessions); [exact Htidy |].
  apply tidy_set_item; [exact Htidy | reflexivity].
Qed.

(** [process_query], with its session and its context named. *)
Lemma process_query_unfold (request : Server.QueryRequest)
  (sessions : Server.Sessions) :
  let session_id := Server.session_of new_session_id request in
  let context := entered request sessions in
  let stored := Server.set_item session_id context (opened request sessions) in
  process_query request sessions
  = match fst (turn (Server.request_input request) context) with
    | ErrorResult error context' =>
        match fallback (Server.request_role request)
                (Server.request_input request) with
        | inr response_content =>
            (Server.create_response (Server.request_input request)
               response_content (Some error) session_id,
             Server.set_item session_id
               (Server.add_history context'
                  (Specialists.assistant response_content)) stored)
        | inl inner_e =>
            (Server.create_error_response (Server.request_input request)
               ("Error processing request: " ++ error
                ++ ". Fallback also failed: " ++ inner_e)%string session_id,
             Server.set_item session_id context' stored)
        end
    | FinalResult _ final_context =>
        let response_content :=
          match messages final_context with
          | [] => Server.apology
          | m :: rest => content (last rest m)
          end in
        (Server.create_response (Server.request_input request)
           response_content None session_id,
         Server.set_item session_id
           (Server.add_history (Server.clear_messages final_context)
              (Specialists.assistant response_content)) stored)
    end.
Proof. reflexivity. Qed.

Lemma history_of_set_item (session_id : string) (context : Context)
  (sessions : Server.Sessions) :
  Server.history_of session_id (Server.set_item session_id context sessions)
  = conversation_history context.
Proof. unfold Server.history_of. rewrite get_set_item. reflexivity. Qed.

(** X16. The bookkeeping of [process_query]. If every stored session has an
    empty [messages] list, then after a request the same holds again, the
    other sessions are as they were, and the history of the request's
    session has grown by the user's entry and the assistant's reply - the
    content of the response - or, when the handlers and the fallback both
    failed and the response is of type "error", by the user's entry
    alone. *)
Theorem process_query_bookkeeping :
  forall (request : Server.QueryRequest) (sessions : Server.Sessions),
    Server.tidy sessions ->
    let session_id := Server.session_of new_session_id request in
    let result := process_query request sessions in
    let before := Server.history_of session_id sessions in
    let said := Server.user_message (Server.request_input request) in
    Server.tidy (snd result) /\
    (forall other, other <> session_id ->
        OrchestratorAgent.get other (snd result)
        = OrchestratorAgent.get other sessions) /\
    ((Server.output_type (fst result) = "ai" /\
      Server.history_of session_id (snd result)
      = before ++ [said; Specialists.assistant
                           (Server.output_content (fst result))]) \/
     (Server.output_type (fst result) = "error" /\
      Server.history_of session_id (snd result) = before ++ [said])).
Proof.
  intros request sessions Htidy session_id result before said.
  subst result. rewrite process_query_unfold. cbv zeta.
  destruct (entered_context request sessions Htidy) as [Hm Hh].
  fold session_id in Hh |- *. fold before said in Hh.
  pose proof (wired_turn _ _ _ _ _
                (coordinator_keeps_conversation client)
                (route_optimizer_hands_over route_optimizer_model)
                (fleet_monitor_hands_over fleet_monitor_model fleet_summary)
                (data_retriever_answers data_retriever_model)
                (notification_answers notification_model)
                (Server.request_input request)
                (entered request sessions)) as [_ Hturn].
  fold (Server.process_with_agents client route_optimizer_model
          fleet_monitor_model data_retriever_model notification_model
          fleet_summary (Server.request_input request)
          (entered request sessions)) in Hturn.
  assert (Hstored : Server.tidy
            (Server.set_item session_id (entered request sessions)
               (opened request sessions)))
    by (apply tidy_set_item; [apply opened_tidy; exact Htidy | exact Hm]).
  assert (Hother : forall c1 c2 other, other <> session_id ->
            OrchestratorAgent.get other
              (Server.set_item session_id c1
                 (Server.set_item session_id c2 (opened request sessions)))
            = OrchestratorAgent.get other sessions).
  { intros c1 c2 other Hne. rewrite !get_set_other by exact Hne.
    apply opened_other. exact Hne. }
  destruct (fst (turn _ _)) as [error context' | state final_context].
  - destruct Hturn as [Hm' Hh'].
    destruct (fallback _ _) as [inner_e | response_content]; cbn [fst snd].
    + split; [apply tidy_set_item; [exact Hstored | congruence] |].
      split; [intros other Hne; apply Hother; exact Hne |].
      right. split; [reflexivity |].
      rewrite history_of_set_item. congruence.
    + split; [apply tidy_set_item; [exact Hstored | cbn; congruence] |].
      split; [intros other Hne; apply Hother; exact Hne |].
      left. split; [reflexivity |].
      rewrite history_of_set_item. cbn. rewrite Hh', Hh, <- app_assoc.
      reflexivity.
  - destruct Hturn as (_ & _ & [text Htext] & Hh' & _). cbn [fst snd].
    split; [apply tidy_set_item; [exact Hstored | reflexivity] |].
    split; [intros other Hne; apply Hother; exact Hne |].
    left. split; [reflexivity |].
    rewrite history_of_set_item. cbn. rewrite Hh', Hh, <- app_assoc.
    reflexivity.
Qed.

(** X17. What a response says. When the handlers end the turn, the content
    is the one assistant message the last handler stored - the apology kept
    for an empty list is never sent - and the response carries no error and
    finish reason "stop". When a handler raised and the fallback answered,
    the content is the fallback's; the response is marked as an error
    exactly when the text of the exception is not empty. *)
Theorem response_of_a_turn :
  forall (request : Server.QueryRequest) (sessions : Server.Sessions),
    Server.tidy sessions ->
    let response := fst (process_query request sessions) in
    match fst (turn (Server.request_input request) (entered request sessions))
    with
    | FinalResult _ final_context =>
        messages final_context
        = [Specialists.assistant (Server.output_content response)] /\
        Server.finish_reason response = "stop" /\
        Server.output_error response = None /\
        Server.additional_kwargs_error response = None
    | ErrorResult error _ =>
        match fallback (Server.request_role request)
                (Server.request_input request) with
        | inr text =>
            Server.output_content response = text /\
            Server.output_type response = "ai" /\
            (error <> "" ->
             Server.finish_reason response = "error" /\
             Server.output_error response = Some error) /\
            (error = "" ->
             Server.finish_reason response = "stop" /\
             Server.output_error response = None)
        | inl inner_e =>
            Server.output_type response = "error" /\
            Server.finish_reason response = "error" /\
            Server.output_content response
            = ("Error processing request: " ++ error
               ++ ". Fallback also failed: " ++ inner_e)%string
        end
    end.
Proof.
  intros request sessions Htidy response. subst response.
  rewrite process_query_unfold. cbv zeta.
  destruct (entered_context request sessions Htidy) as [Hm _].
  pose proof (wired_turn _ _ _ _ _
                (coordinator_keeps_conversation client)
                (route_optimizer_hands_over route_optimizer_model)
                (fleet_monitor_hands_over fleet_monitor_model fleet_summary)
                (data_retriever_answers data_retriever_model)
                (notification_answers notification_model)
                (Server.request_input request)
                (entered request sessions)) as [_ Hturn].
  fold (Server.process_with_agents client route_optimizer_model
          fleet_monitor_model data_retriever_model notification_model
          fleet_summary (Server.request_input request)
          (entered request sessions)) in Hturn.
  destruct (fst (turn _ _)) as [error context' | state final_context].
  - destruct (fallback _ _) as [inner_e | text]; cbn [fst].
    + repeat split.
    + split; [reflexivity |]. split; [reflexivity |].
      unfold Server.create_response, Server.given. cbn.
      split.
      * intro Hne. apply String.eqb_neq in Hne. rewrite Hne. split; reflexivity.
      * intros ->. split; reflexivity.
  - destruct Hturn as (_ & _ & [text Htext] & _).
    rewrite Hm in Htext. cbn [app] in Htext. rewrite Htext. cbn.
    repeat split.
Qed.

End Queries.

Lemma tidy_nil : Server.tidy [].
Proof. intros session_id context H. discriminate H. Qed.

Lemma process_query_bookkeeping_witness :
  let request := Server.mkQueryRequest "plan my route" "admin" None in
  let result :=
    Server.process_query (Stubs.fixed_client "route_optimizer")
      (fun _ => inr "Route planned") (fun _ => inr "Fleet checked")
      (fun _ => inr "Data fetched") (fun _ => inr "Notified")
      "No vehicle data available" (fun _ _ => inr "Fallback")
      "session_1" request [] in
  Server.tidy (snd result) /\
  Server.history_of "session_1" (snd result)
  = [Server.user_message "plan my route";
     Specialists.assistant "Route planned"].
Proof.
  intros request result.
  destruct (process_query_bookkeeping (Stubs.fixed_client "route_optimizer")
              (fun _ => inr "Route planned") (fun _ => inr "Fleet checked")
              (fun _ => inr "Data fetched") (fun _ => inr "Notified")
              "No vehicle data available" (fun _ _ => inr "Fallback")
              "session_1" request [] tidy_nil) as (Htidy & _ & _).
  split; [exact Htidy | reflexivity].
Defined.

Lemma response_of_a_turn_witness :
  let request := Server.mkQueryRequest "plan my route" "admin" None in
  Server.finish_reason
    (fst (Server.process_query (Stubs.fixed_client "route_optimizer")
            (fun _ => inr "Route planned") (fun _ => inr "Fleet checked")
            (fun _ => inr "Data fetched") (fun _ => inr "Notified")
            "No vehicle data available" (fun _ _ => inr "Fallback")
            "session_1" request [])) = "stop".
Proof.
  intro request.
  pose proof (response_of_a_turn (Stubs.fixed_client "route_optimizer")
                (fun _ => inr "Route planned") (fun _ => inr "Fleet checked")
                (fun _ => inr "Data fetched") (fun _ => inr "Notified")
                "No vehicle data available" (fun _ _ => inr "Fallback")
                "session_1" request [] tidy_nil) as H.
  cbn in H. destruct H as (_ & H & _). exact H.
Defined.

Lemma last5_snoc {A} (history : list A) (entry : A) :
  Coordinator.last5 (history ++ [entry])
  = skipn (List.length history - 4) history ++ [entry].
Proof.
  unfold Coordinator.last5. rewrite length_app, skipn_app. cbn [List.length].
  replace (List.length history + 1 - 5)%nat
    with (List.length history - 4)%nat by lia.
  replace (List.length history - 4 - List.length history)%nat with 0%nat
    by lia.
  reflexivity.
Qed.

Lemma turn_client_ext (client client' : list Message -> string + string)
  (route_optimizer_model fleet_monitor_model data_retriever_model
   notification_model : State -> string + string)
  (fleet_summary user_input : string) (context0 : Context) :
  client' (Coordinator.messages_for
             {| input := user_input; context := context0; next := "" |})
  = client (Coordinator.messages_for
              {| input := user_input; context := context0; next := "" |}) ->
  Server.process_with_agents client' route_optimizer_model fleet_monitor_model
    data_retriever_model notification_model fleet_summary user_input context0
  = Server.process_with_agents client route_optimizer_model fleet_monitor_model
      data_retriever_model notification_model fleet_summary user_input
      context0.
Proof.
  intro H. unfold Server.process_with_agents, process_with_agents,
    Coordinator.coordinator_agent.
  rewrite H. reflexivity.
Qed.

(** X18. What the coordinator is shown during [process_query]. The user's
    entry is added to the history before the handlers run, so the list sent
    to the model ends with the request twice: as the last entry of the
    history window, which leaves room for four earlier entries, and as the
    closing "user" message. The role in that message is the one the session
    was opened with, not the one of the request. The coordinator's model is
    consulted on that list and on no other. *)
Theorem coordinator_sees_the_request_twice :
  forall (client : list Message -> string + string)
         (route_optimizer_model fleet_monitor_model data_retriever_model
          notification_model : State -> string + string)
         (fleet_summary : string) (fallback : string -> string -> string + string)
         (new_session_id : string)
         (request : Server.QueryRequest) (sessions : Server.Sessions),
    let input_text := Server.request_input request in
    let session_id := Server.session_of new_session_id request in
    let context0 := Server.entered new_session_id request sessions in
    let role :=
      match user_role context0 with Some r => r | None => "unknown" end in
    exists earlier,
      (List.length earlier <= 4)%nat /\
      Coordinator.messages_for
        {| input := input_text; context := context0; next := "" |}
      = earlier ++ [Server.user_message input_text;
                    Coordinator.current_request role input_text] /\
      (forall stored,
          OrchestratorAgent.get session_id sessions = Some stored ->
          user_role context0 = user_role stored) /\
      (OrchestratorAgent.get session_id sessions = None ->
       role = Server.request_role request) /\
      (forall client' : list Message -> string + string,
          client' (earlier ++ [Server.user_message input_text;
                               Coordinator.current_request role input_text])
          = client (earlier ++ [Server.user_message input_text;
                                Coordinator.current_request role input_text]) ->
          Server.process_query client' route_optimizer_model
            fleet_monitor_model data_retriever_model notification_model
            fleet_summary fallback new_session_id request sessions
          = Server.process_query client route_optimizer_model
              fleet_monitor_model data_retriever_model notification_model
              fleet_summary fallback new_session_id request sessions).
Proof.
  intros client route_optimizer_model fleet_monitor_model data_retriever_model
    notification_model fleet_summary fallback new_session_id request sessions
    input_text session_id context0 role.
  set (before := conversation_history
                   (Server.session_context session_id
                      (Server.request_role request)
                      (Server.opened new_session_id request sessions))).
  exists (map Coordinator.history_message
            (skipn (List.length before - 4) before)).
  assert (Hsent : Coordinator.messages_for
                    {| input := input_text; context := context0; next := "" |}
                  = map Coordinator.history_message
                      (skipn (List.length before - 4) before)
                    ++ [Server.user_message input_text;
                        Coordinator.current_request role input_text]).
  { unfold Coordinator.messages_for. cbn [input context].
    change (conversation_history context0)
      with (before ++ [Server.user_message input_text]).
    rewrite last5_snoc, map_app, <- app_assoc. reflexivity. }
  split; [rewrite length_map, length_skipn; lia |].
  split; [exact Hsent |]. split; [| split].
  - intros stored Hget. subst context0.
    unfold Server.entered, Server.opened, Server.session_context.
    fold session_id. rewrite Hget. cbn. rewrite Hget. reflexivity.
  - intro Hget. subst role context0.
    unfold Server.entered, Server.opened, Server.session_context.
    fold session_id. rewrite Hget. cbn. rewrite get_set_item. reflexivity.
  - intros client' Hclient. rewrite <- Hsent in Hclient.
    unfold input_text, context0 in Hclient.
    rewrite !process_query_unfold. cbv zeta.
    rewrite (turn_client_ext client client' route_optimizer_model
               fleet_monitor_model data_retriever_model notification_model
               fleet_summary _ _ Hclient).
    reflexivity.
Qed.

Lemma coordinator_sees_the_request_twice_witness :
  let request := Server.mkQueryRequest "any delays?" "driver" (Some "s1") in
  let sessions :=
    [("s1", Server.add_history (Server.new_context "admin")
              (Server.user_message "hello"))] in
  exists earlier,
    Coordinator.messages_for
      {| input := "any delays?";
         context := Server.entered "session_1" request sessions;
         next := "" |}
    = earlier ++ [Server.user_message "any delays?";
                  Coordinator.current_request "admin" "any delays?"].
Proof.
  intros request sessions.
  destruct (coordinator_sees_the_request_twice
              (Stubs.fixed_client "route_optimizer")
              (fun _ => inr "Route planned") (fun _ => inr "Fleet checked")
              (fun _ => inr "Data fetched") (fun _ => inr "Notified")
              "No vehicle data available" (fun _ _ => inr "Fallback")
              "session_1" request sessions) as (earlier & _ & Hsent & _).
  exists earlier. exact Hsent.
Defined.

(** X23. The [agent_used] of a response goes by the words of the request,
    not by the handlers that ran: for a response of type "ai" it is the
    agent [determine_next_agent] reads off the input, or "coordinator",
    whatever the model routed to; a response of type "error" has none. A
    request about the fleet that the coordinator routes to the route
    optimizer is answered by the route optimizer and reported as
    "fleet_monitor". *)
Theorem agent_used_follows_the_words :
  forall (client : list Message -> string + string)
         (route_optimizer_model fleet_monitor_model data_retriever_model
          notification_model : State -> string + string)
         (fleet_summary : string) (fallback : string -> string -> string + string)
         (new_session_id : string)
         (request : Server.QueryRequest) (sessions : Server.Sessions),
    let response :=
      fst (Server.process_query client route_optimizer_model
             fleet_monitor_model data_retriever_model notification_model
             fleet_summary fallback new_session_id request sessions) in
    (Server.output_type response = "ai" ->
     Server.agent_used response
     = Some match Server.determine_next_agent (Server.request_input request)
            with
            | Some agent => agent
            | None => "coordinator"
            end) /\
    (Server.output_type response = "error" ->
     Server.agent_used response = None) /\
    (let request := Server.mkQueryRequest "how is the fleet?" "admin" None in
     let routed := Stubs.fixed_client "route_optimizer" in
     let answer := fun _ : State => @inr string string "All on time" in
     snd (Server.process_with_agents routed answer answer answer answer ""
            "how is the fleet?"
            (Server.entered "session_1" request []))
     = ["coordinator_agent"; "route_optimizer_agent"] /\
     Server.agent_used
       (fst (Server.process_query routed answer answer answer answer ""
               (fun _ _ => inr "") "session_1" request []))
     = Some "fleet_monitor").
Proof.
  intros client route_optimizer_model fleet_monitor_model data_retriever_model
    notification_model fleet_summary fallback new_session_id request sessions
    response.
  subst response. rewrite process_query_unfold. cbv zeta.
  split; [| split; [| split; reflexivity]].
  - destruct (fst (Server.process_with_agents _ _ _ _ _ _ _ _))
      as [error context' | state final_context];
      [destruct (fallback _ _) |]; cbn; intro H;
      try discriminate H; reflexivity.
  - destruct (fst (Server.process_with_agents _ _ _ _ _ _ _ _))
      as [error context' | state final_context];
      [destruct (fallback _ _) |]; cbn; intro H;
      try discriminate H; reflexivity.
Qed.

Lemma agent_used_follows_the_words_witness :
  Server.agent_used
    (fst (Server.process_query (Stubs.fixed_client "notification")
            (fun _ => inr "a") (fun _ => inr "b") (fun _ => inr "c")
            (fun _ => inr "d") "" (fun _ _ => inr "e") "session_1"
            (Server.mkQueryRequest "Plan the DELIVERY path" "admin" None) []))
  = Some "route_optimizer".
Proof.
  destruct (agent_used_follows_the_words (Stubs.fixed_client "notification")
              (fun _ => inr "a") (fun _ => inr "b") (fun _ => inr "c")
              (fun _ => inr "d") "" (fun _ _ => inr "e") "session_1"
              (Server.mkQueryRequest "Plan the DELIVERY path" "admin" None) [])
    as [H _].
  rewrite H; reflexivity.
Defined.

Lemma coordinator_window_witness :
  let state :=
    {| input := "where is truck 7?";
       context := Server.add_history (Server.new_context "admin")
                    (Server.user_message "hello");
       next := "" |} in
  List.length (Coordinator.messages_for state) = 2%nat.
Proof.
  intro state. destruct (coordinator_window state) as [H _]. exact H.
Defined.

End TurnProofs.

(** ** The mock services *)

Module ServiceProofs.

Import OrchestratorAgent.
Import PipelineProofs.
Import Services.
Open Scope list_scope.

(** *** Task numbers *)

Lemma of_uint_D0 (d : Decimal.uint) :
  Nat.of_uint (Decimal.D0 d) = Nat.of_uint d.
Proof. reflexivity. Qed.

Lemma uint_of_zeros (k : nat) (s : string) (d : Decimal.uint) :
  NilEmpty.uint_of_string s = Some d ->
  exists d',
    NilEmpty.uint_of_string (zeros k ++ s) = Some d' /\
    Nat.of_uint d' = Nat.of_uint d.
Proof.
  intro H. induction k as [|k [d' [Hd' Hn]]].
  - exists d. split; [exact H | reflexivity].
  - exists (Decimal.D0 d'). cbn [zeros String.append].
    cbn [NilEmpty.uint_of_string]. rewrite Hd'. split; [reflexivity |].
    rewrite of_uint_D0. exact Hn.
Qed.

Lemma read_format_03d (n : nat) : read_number (format_03d n) = Some n.
Proof.
  unfold read_number, format_03d.
  set (digits := NilZero.string_of_uint (Nat.to_uint n)).
  assert (Hd : exists d, NilEmpty.uint_of_string digits = Some d /\
                         Nat.of_uint d = n /\ digits <> EmptyString).
  { subst digits. destruct (Nat.to_uint n) as [| d | d | d | d | d | d | d | d | d | d] eqn:E;
      try (eexists; split;
           [unfold NilZero.string_of_uint; apply NilEmpty.usu
           | split; [rewrite <- E; apply DecimalNat.Unsigned.of_to
                    | cbn; discriminate]]).
    exists Decimal.zero. split; [reflexivity |].
    split; [| cbn; discriminate].
    pose proof (DecimalNat.Unsigned.of_to n) as H. rewrite E in H.
    rewrite <- H. reflexivity. }
  destruct Hd as (d & Hd & Hn & Hne).
  destruct (uint_of_zeros (3 - String.length digits) digits d Hd)
    as (d' & Hd' & Hn').
  unfold NilZero.uint_of_string.
  destruct (zeros (3 - String.length digits) ++ digits)%string eqn:E.
  - exfalso. destruct (zeros (3 - String.length digits)); [| discriminate E].
    cbn in E. contradiction.
  - rewrite Hd'. cbn. rewrite Hn', Hn. reflexivity.
Qed.

Lemma format_03d_injective (i j : nat) : format_03d i = format_03d j -> i = j.
Proof.
  intro H. pose proof (read_format_03d i) as Hi.
  rewrite H, read_format_03d in Hi. congruence.
Qed.

Lemma append_injective (p s s' : string) :
  (p ++ s)%string = (p ++ s')%string -> s = s'.
Proof.
  induction p as [|c p IH]; cbn; intro H; [exact H |].
  inversion H. auto.
Qed.

Lemma task_ids_S (first n : nat) :
  task_ids first (S n)
  = task_ids first n ++ [("task_" ++ format_03d (first + n + 1))%string].
Proof.
  unfold task_ids. rewrite seq_S, map_app. cbn [map].
  replace (first + 1 + n)%nat with (first + n + 1)%nat by lia. reflexivity.
Qed.

Lemma task_id_fresh (n : nat) :
  ~ In ("task_" ++ format_03d (n + 1))%string (task_ids 0 n).
Proof.
  unfold task_ids. intro H. apply in_map_iff in H.
  destruct H as (i & Hi & Hin). apply in_seq in Hin.
  apply append_injective, format_03d_injective in Hi. lia.
Qed.

Lemma task_ids_NoDup (first n : nat) : NoDup (task_ids first n).
Proof.
  unfold task_ids. generalize (seq_NoDup n (first + 1)).
  induction (seq (first + 1) n) as [|i l IH]; intro Hnd; [constructor |].
  inversion Hnd as [| ? ? Hi Hl]; subst. cbn [map]. constructor; [| auto].
  intro Hin. apply in_map_iff in Hin. destruct Hin as (j & Hj & Hjl).
  apply append_injective, format_03d_injective in Hj. subst j. contradiction.
Qed.

(** *** Dictionaries *)

Lemma set_item_fresh {V} (key : string) (value : V) (d : list (string * V)) :
  ~ In key (keys d) -> Server.set_item key value d = d ++ [(key, value)].
Proof.
  induction d as [|[k v] rest IH]; intro H; [reflexivity |].
  cbn in H |- *.
  destruct (String.eqb_spec k key) as [-> | Hne]; [tauto |].
  rewrite IH by tauto. reflexivity.
Qed.

Lemma create_task_appends (now what_id subject activity_date : string)
  (storage : Storage) :
  well_numbered storage ->
  let task_id :=
    ("task_" ++ format_03d (List.length (TASKS storage) + 1))%string in
  let created := create_task now what_id subject activity_date storage in
  TASKS (fst created)
  = TASKS storage
      ++ [(task_id, {| WhatId := what_id; Subject := subject;
                       ActivityDate := activity_date;
                       created_at := now |})] /\
  well_numbered (fst created).
Proof.
  intros Hwn task_id created. unfold well_numbered in Hwn.
  assert (Hfresh : ~ In task_id (keys (TASKS storage))).
  { rewrite Hwn. apply task_id_fresh. }
  assert (Htasks : TASKS (fst created)
                   = TASKS storage
                       ++ [(task_id, {| WhatId := what_id; Subject := subject;
                                        ActivityDate := activity_date;
                                        created_at := now |})]).
  { subst created. cbn. apply set_item_fresh. exact Hfresh. }
  split; [exact Htasks |].
  unfold well_numbered. rewrite Htasks. unfold keys in *.
  rewrite map_app, length_app, Hwn. cbn [map fst List.length].
  rewrite Nat.add_1_r, task_ids_S. reflexivity.
Qed.

Lemma well_numbered_empty : well_numbered empty.
Proof. reflexivity. Qed.

(** *** The services behind one address *)

Section MountedProofs.

Variable scoring : list Opportunity -> Reply.
Variable clock : Trace -> string.

Lemma storage_after_app (t1 t2 : Trace) :
  forall (seen : Trace) (storage : Storage),
    storage_after scoring clock seen (t1 ++ t2) storage
    = storage_after scoring clock (seen ++ t1) t2
        (storage_after scoring clock seen t1 storage).
Proof.
  induction t1 as [|[r | d] t1 IH]; intros seen storage; cbn.
  - rewrite app_nil_r. reflexivity.
  - rewrite IH, <- app_assoc. reflexivity.
  - rewrite IH, <- app_assoc. reflexivity.
Qed.

Lemma serve_well_numbered (now : string) (request : Request)
  (storage : Storage) :
  well_numbered storage ->
  well_numbered (fst (serve scoring now request storage)).
Proof.
  intro Hwn. destruct request as [sql | model data | i w p | w s a | tb rd h tp];
    cbn; try exact Hwn.
  - destruct (routable i); exact Hwn.
  - apply (create_task_appends now w s a storage Hwn).
  - unfold insert. destruct (String.eqb tb _); cbn; exact Hwn.
Qed.

Lemma storage_after_well_numbered (t : Trace) :
  forall (seen : Trace) (storage : Storage),
    well_numbered storage ->
    well_numbered (storage_after scoring clock seen t storage).
Proof.
  induction t as [|[r | d] t IH]; intros seen storage Hwn; cbn; auto.
  apply IH. apply serve_well_numbered. exact Hwn.
Qed.

End MountedProofs.

(** X19. The mock Salesforce numbers its tasks in order and never
    overwrites one. On a storage whose tasks are numbered as they were
    created - the empty storage is, and serving any requests keeps it so -
    [create_task] answers with the identifier "task_" followed by the
    number of tasks plus one, written with at least three digits, stores
    the task under that identifier after all the others, and leaves every
    earlier task as it was; two different numbers never give the same
    identifier. *)
Theorem tasks_are_numbered_in_order :
  forall (now what_id subject activity_date : string) (storage : Storage),
    well_numbered storage ->
    let n := List.length (TASKS storage) in
    let task_id := ("task_" ++ format_03d (n + 1))%string in
    let created := create_task now what_id subject activity_date storage in
    snd created = TaskResult task_id true /\
    TASKS (fst created)
    = TASKS storage
        ++ [(task_id, {| WhatId := what_id; Subject := subject;
                         ActivityDate := activity_date;
                         created_at := now |})] /\
    well_numbered (fst created) /\
    NoDup (keys (TASKS (fst created))) /\
    (forall i j, format_03d i = format_03d j -> i = j) /\
    (format_03d 1 = "001" /\ format_03d 42 = "042" /\
     format_03d 1000 = "1000") /\
    well_numbered empty /\
    (forall (scoring : list Opportunity -> Reply) (clock : Trace -> string)
            (seen t : Trace),
        well_numbered (storage_after scoring clock seen t storage)).
Proof.
  intros now what_id subject activity_date storage Hwn n task_id created.
  destruct (create_task_appends now what_id subject activity_date storage Hwn)
    as [Htasks Hwn'].
  split; [reflexivity |]. split; [exact Htasks |]. split; [exact Hwn' |].
  split; [unfold created; unfold well_numbered in Hwn'; rewrite Hwn';
          apply task_ids_NoDup |].
  split; [exact format_03d_injective |].
  split; [repeat split; reflexivity |]. split; [reflexivity |].
  intros scoring clock seen t. apply storage_after_well_numbered. exact Hwn.
Qed.

Lemma tasks_are_numbered_in_order_witness :
  snd (create_task "2026-01-01T09:00:00" "opp_001"
         "Follow up on high-priority deal" "2026-01-02" empty)
  = TaskResult "task_001" true.
Proof.
  destruct (tasks_are_numbered_in_order "2026-01-01T09:00:00" "opp_001"
              "Follow up on high-priority deal" "2026-01-02" empty
              well_numbered_empty) as [H _].
  exact H.
Defined.


Lemma task_ids_cons (first n : nat) :
  task_ids first (S n)
  = ("task_" ++ format_03d (first + 1))%string :: task_ids (first + 1) n.
Proof.
  unfold task_ids. cbn [seq map].
  replace (first + 1 + 1)%nat with (S (first + 1)) by lia. reflexivity.
Qed.

Section Run.

Variable scoring : list Opportunity -> Reply.
Variable clock : Trace -> string.
Variable storage0 : Storage.
Variables today tomorrow : string.
Variable self : Self.

Local Abbreviation session := (mounted scoring clock storage0).
Local Abbreviation at_ t := (storage_after scoring clock [] t storage0).

Lemma storage_after_snoc (t : Trace) (request : Request) :
  at_ (t ++ [Call request])
  = fst (serve scoring (clock t) request (at_ t)).
Proof. rewrite storage_after_app. reflexivity. Qed.

Lemma plain_routable (id : string) : plain id = true -> routable id = true.
Proof.
  unfold plain, routable. intro H. apply andb_prop in H.
  destruct H as [Hne Hchars]. rewrite Hne. cbn [andb]. clear Hne.
  apply negb_true_iff.
  induction id as [|c rest IH]; [reflexivity |].
  cbn [plain_chars] in Hchars. apply andb_prop in Hchars.
  destruct Hchars as [Hc Hrest].
  cbn [contains String.prefix].
  destruct (Ascii.ascii_dec "/"%char c) as [<- | Hneq];
    [discriminate Hc |].
  destruct rest; apply IH; exact Hrest.
Qed.

Lemma served_update (o : ScoredOpportunity) (now : string)
  (storage : Storage) :
  plain (id o) = true ->
  serve scoring now (update_request o) storage
  = (fst (update_opportunity now (id o) (winProbability o)
            (nextBestProduct o) storage),
     Response 200 (Some (UpdateResult (id o) true))).
Proof.
  intro Hplain. cbn [serve update_request].
  rewrite (plain_routable _ Hplain). reflexivity.
Qed.

Lemma served_iteration (o : ScoredOpportunity) (l : SfResults) (t : Trace) :
  plain (id o) = true ->
  update_one session tomorrow self o l t
  = (track_high_priority o
       (add_task
          (TaskResult
             ("task_" ++ format_03d (List.length (TASKS (at_ t)) + 1)) true)
          (add_updated (UpdateResult (id o) true) l)),
     (t ++ [Call (update_request o)]) ++ [Call (task_request tomorrow o)]).
Proof.
  intro Hplain. unfold update_one, try_update, send_in. cbn [reply mounted].
  rewrite storage_after_snoc, !served_update by exact Hplain. reflexivity.
Qed.

Lemma storage_after_iteration (o : ScoredOpportunity) (t : Trace) :
  plain (id o) = true ->
  at_ ((t ++ [Call (update_request o)]) ++ [Call (task_request tomorrow o)])
  = fst (create_task (clock (t ++ [Call (update_request o)])) (id o)
           "Follow up on high-priority deal" tomorrow
           (fst (update_opportunity (clock t) (id o) (winProbability o)
                   (nextBestProduct o) (at_ t)))).
Proof.
  intro Hplain. rewrite !storage_after_snoc, served_update by exact Hplain.
  reflexivity.
Qed.

Lemma served_loop :
  forall (scored : list ScoredOpportunity) (l : SfResults) (t : Trace),
    forallb plain (map id scored) = true ->
    well_numbered (at_ t) ->
    let run := update_loop session tomorrow self scored l t in
    snd run = t ++ update_requests tomorrow scored /\
    all_served scored (List.length (TASKS (at_ t))) l (fst run) /\
    well_numbered (at_ (snd run)) /\
    List.length (TASKS (at_ (snd run)))
    = (List.length (TASKS (at_ t)) + List.length scored)%nat /\
    SUMMARY_ROWS (at_ (snd run)) = SUMMARY_ROWS (at_ t) /\
    stored_last scored (at_ t) (at_ (snd run)).
Proof.
  induction scored as [|o rest IH]; intros l t Hids Hwn run; subst run.
  - cbn [update_loop fst snd update_requests flat_map List.length].
    rewrite app_nil_r, Nat.add_0_r.
    split; [reflexivity |].
    split; [unfold all_served, task_ids; cbn; rewrite !app_nil_r;
            repeat split; try reflexivity; try lia; ring |].
    repeat split; try assumption; try (intro key; reflexivity).
  - cbn [map forallb] in Hids. apply andb_prop in Hids.
    destruct Hids as [Hplain Hids].
    cbn [update_loop]. rewrite served_iteration by exact Hplain.
    set (t1 := (t ++ [Call (update_request o)])
                 ++ [Call (task_request tomorrow o)]).
    set (l1 := track_high_priority o _).
    assert (Hat : at_ t1
                  = fst (create_task (clock (t ++ [Call (update_request o)]))
                           (id o) "Follow up on high-priority deal" tomorrow
                           (fst (update_opportunity (clock t) (id o)
                                   (winProbability o) (nextBestProduct o)
                                   (at_ t)))))
      by (apply storage_after_iteration; exact Hplain).
    assert (Hwn0 : well_numbered
                     (fst (update_opportunity (clock t) (id o)
                             (winProbability o) (nextBestProduct o) (at_ t))))
      by exact Hwn.
    destruct (create_task_appends (clock (t ++ [Call (update_request o)]))
                (id o) "Follow up on high-priority deal" tomorrow _ Hwn0)
      as [Htasks Hwn1].
    rewrite <- Hat in Htasks, Hwn1. cbn [update_opportunity fst TASKS] in Htasks.
    assert (Hlen1 : List.length (TASKS (at_ t1))
                    = (List.length (TASKS (at_ t)) + 1)%nat)
      by (rewrite Htasks, length_app; reflexivity).
    destruct (IH l1 t1 Hids Hwn1)
      as (Htr & Hserved & Hwn2 & Hlen2 & Hsum2 & Hopp2).
    split; [| split; [| split; [| split; [| split]]]].
    + rewrite Htr. subst t1. cbn [update_requests flat_map].
      rewrite <- !app_assoc. reflexivity.
    + destruct Hserved as (He & Hu & Hc & Hh & Hp).
      rewrite Hlen1 in Hc.
      unfold all_served. cbn [List.length map filter].
      rewrite task_ids_cons. cbn [map].
      rewrite He, Hu, Hc, Hh.
      subst l1. unfold track_high_priority, high_priority in *.
      destruct (Qltb 0.8 (winProbability o)); cbn;
        rewrite <- ?app_assoc; cbn [app];
        (split; [reflexivity |]); (split; [reflexivity |]);
        (split; [reflexivity |]); (split; [lia |]);
        rewrite Hp; cbn; ring.
    + exact Hwn2.
    + rewrite Hlen2, Hlen1. cbn [List.length]. lia.
    + rewrite Hsum2, Hat. reflexivity.
    + intro key. specialize (Hopp2 key). cbn [last_with_id].
      destruct (last_with_id key rest) as [o' |]; [exact Hopp2 |].
      rewrite Hopp2, Hat. cbn [create_task update_opportunity fst OPPORTUNITIES].
      destruct (String.eqb_spec (id o) key) as [<- | Hne].
      * exists (clock t). apply TurnProofs.get_set_item.
      * apply TurnProofs.get_set_other. congruence.
Qed.

Lemma query_finds_the_samples :
  query fetch_sql = Rows Samples.SAMPLE_OPPORTUNITIES.
Proof. reflexivity. Qed.

Lemma served_fetch (t : Trace) :
  fetch_opportunities session self t
  = (inr Samples.SAMPLE_OPPORTUNITIES, t ++ [Call (SnowflakeQuery fetch_sql)]).
Proof.
  unfold fetch_opportunities. rewrite Nat.add_1_r. cbn [seq fetch_loop].
  unfold_round. cbn [reply mounted serve snd]. rewrite query_finds_the_samples.
  reflexivity.
Qed.

Lemma served_score (scored : list ScoredOpportunity) (t : Trace) :
  scoring Samples.SAMPLE_OPPORTUNITIES = Response 200 (Some (Scored scored)) ->
  score_opportunities session self Samples.SAMPLE_OPPORTUNITIES t
  = (inr scored,
     t ++ [Call (DatabricksScore "prod_fin_sales_v2"
                   Samples.SAMPLE_OPPORTUNITIES)]).
Proof.
  intro Hscoring. unfold score_opportunities.
  change Samples.SAMPLE_OPPORTUNITIES
    with (row "opp_001" 250000 "Finance" :: tl Samples.SAMPLE_OPPORTUNITIES)
    at 1.
  cbv iota. rewrite Nat.add_1_r. cbn [seq score_loop].
  unfold_round. cbn [reply mounted serve snd]. rewrite Hscoring. reflexivity.
Qed.

Lemma served_write (sf : SfResults) (t : Trace) :
  write_summary session today self sf t
  = (inr (InsertResult "ok"), t ++ [Call (summary_request today sf)]).
Proof.
  unfold write_summary. rewrite Nat.add_1_r. cbn [seq write_loop].
  unfold_round. reflexivity.
Qed.

(** X20. The workflow and the two mock services fit together. Against a
    server that mounts them and scores the sample rows to a non-empty list
    whose identifiers are plain (letters, digits, [_] and [-], so that the
    address of each update is matched by the route), with tasks numbered as
    created, a run from scratch succeeds at the first attempt of every
    request and without a sleep: the query text makes the mock Snowflake
    return its sample rows, the summary goes to the one table it accepts,
    the result lists no error, one updated record and one task for every
    scored opportunity, the tasks numbered on from those stored, and both
    aggregates count every opportunity above 0.8. Afterwards the storage
    holds one more summary row, with the date the summary request carried
    and the two aggregates of the result, one more task an opportunity, and
    for every identifier the probability and product of the last
    opportunity scored with it. *)
Theorem run_against_mounted_services :
  forall (scored : list ScoredOpportunity),
    scoring Samples.SAMPLE_OPPORTUNITIES = Response 200 (Some (Scored scored)) ->
    scored <> [] ->
    forallb plain (map id scored) = true ->
    well_numbered storage0 ->
    let run := run_workflow session today tomorrow self [] in
    let after := at_ (snd run) in
    exists sf summary,
      get "status" (fst run) = Some (VScalar (VStr "success")) /\
      get "opportunities" (fst run) = Some (VOpportunities scored) /\
      get "tasks" (fst run) = Some (VJsons (created_tasks sf)) /\
      get "errors" (fst run) = Some (VStrs []) /\
      get "summary" (fst run) = Some (VDict summary) /\
      get "highPriorityCount" summary = Some (VInt (high_priority_count sf)) /\
      get "totalPipelineValue" summary
      = Some (VNum (total_pipeline_value sf)) /\
      all_served scored (List.length (TASKS storage0)) initial_locals sf /\
      snd run
      = [Call (SnowflakeQuery fetch_sql);
         Call (DatabricksScore "prod_fin_sales_v2"
                 Samples.SAMPLE_OPPORTUNITIES)]
        ++ update_requests tomorrow scored
        ++ [Call (summary_request today sf)] /\
      SUMMARY_ROWS after
      = SUMMARY_ROWS storage0
          ++ [{| runDate := today;
                 highPriorityCount := high_priority_count sf;
                 totalPipelineValue := total_pipeline_value sf |}] /\
      List.length (TASKS after)
      = (List.length (TASKS storage0) + List.length scored)%nat /\
      stored_last scored storage0 after.
Proof.
  intros scored Hscoring Hne Hids Hwn run after.
  set (t2 := [Call (SnowflakeQuery fetch_sql);
              Call (DatabricksScore "prod_fin_sales_v2"
                      Samples.SAMPLE_OPPORTUNITIES)]).
  assert (Hat2 : at_ t2 = storage0) by reflexivity.
  assert (Hwn2 : well_numbered (at_ t2)) by (rewrite Hat2; exact Hwn).
  destruct (served_loop scored initial_locals t2 Hids Hwn2)
    as (Htr & Hserved & _ & Hlen & Hsum & Hopp).
  set (sf := fst (update_loop session tomorrow self scored initial_locals t2))
    in *.
  set (t3 := snd (update_loop session tomorrow self scored initial_locals t2))
    in *.
  assert (Hrun : run
                 = (success_result today scored sf,
                    t3 ++ [Call (summary_request today sf)])).
  { subst run. unfold run_workflow, workflow_steps, bind.
    rewrite served_fetch, (served_score scored _ Hscoring).
    cbn [app].
    rewrite (UpdateProofs.update_salesforce_loop session tomorrow self scored
               _ Hne).
    fold t2. fold sf t3. cbn [subscript ret]. rewrite served_write.
    reflexivity. }
  assert (Hafter : after
                   = fst (serve scoring (clock t3) (summary_request today sf)
                            (at_ t3))).
  { subst after. rewrite Hrun. cbn [snd]. apply storage_after_snoc. }
  assert (Herrors : error_records sf = []).
  { destruct Hserved as (He & _). exact He. }
  exists sf,
    [ ("runDate", VStr today);
      ("highPriorityCount", VInt (high_priority_count sf));
      ("totalPipelineValue", VNum (total_pipeline_value sf)) ].
  rewrite Hrun. cbn [fst snd]. rewrite Hat2 in *.
  split; [reflexivity |]. split; [reflexivity |]. split; [reflexivity |].
  split; [cbn; rewrite Herrors; reflexivity |].
  split; [reflexivity |]. split; [reflexivity |]. split; [reflexivity |].
  split; [exact Hserved |].
  split; [rewrite Htr; subst t2; reflexivity |].
  split; [rewrite Hafter, <- Hsum; reflexivity |].
  split; [rewrite Hafter, <- Hlen; reflexivity |].
  intro key. specialize (Hopp key). rewrite Hafter.
  destruct (last_with_id key scored); exact Hopp.
Qed.

End Run.

Lemma run_against_mounted_services_witness :
  let scoring := fun _ : list Opportunity =>
                   Response 200 (Some (Scored Samples.sample_scored)) in
  let clock := fun _ : Trace => "2026-01-01T09:00:00" in
  let run := run_workflow (mounted scoring clock empty) "2026-01-01"
               "2026-01-02" Samples.agent [] in
  get "status" (fst run) = Some (VScalar (VStr "success")) /\
  get "errors" (fst run) = Some (VStrs []) /\
  get "tasks" (fst run)
  = Some (VJsons [TaskResult "task_001" true; TaskResult "task_002" true;
                  TaskResult "task_003" true; TaskResult "task_004" true;
                  TaskResult "task_005" true]).
Proof.
  intros scoring clock run.
  destruct (run_against_mounted_services scoring clock empty "2026-01-01"
              "2026-01-02" Samples.agent Samples.sample_scored)
    as (sf & summary & Hstatus & _ & Htasks & Herrors & _ & _ & _
        & (_ & _ & Hc & _) & _);
    [reflexivity | discriminate | reflexivity | reflexivity |].
  fold run in Hstatus, Htasks, Herrors.
  split; [exact Hstatus | split; [exact Herrors |]].
  rewrite Htasks, Hc. reflexivity.
Defined.

End ServiceProofs.

(** ** The workflow as a handler *)

Module HandlerProofs.

Import OrchestratorAgent.
Import PipelineProofs.
Import OrchestratorHandler.
Open Scope list_scope.

(** A run returns one of its two dictionaries. *)
Lemma run_workflow_shape (session : Session) (today tomorrow : string)
  (self : Self) (t : Trace) :
  (exists e, fst (run_workflow session today tomorrow self t) = error_result e)
  \/ (exists scored sf,
        fst (run_workflow session today tomorrow self t)
        = success_result today scored sf).
Proof.
  unfold run_workflow, workflow_steps, bind.
  destruct (fetch_opportunities session self t) as [[e | rows] t1];
    [left; eexists; reflexivity |].
  destruct (score_opportunities session self rows t1) as [[e | scored] t2];
    [left; eexists; reflexivity |].
  destruct (update_salesforce session tomorrow self scored t2)
    as [[e | [| sf]] t3];
    [left; eexists; reflexivity | left; eexists; reflexivity |].
  cbn [subscript ret].
  destruct (write_summary session today self sf t3) as [[e | data] t4];
    [left; eexists; reflexivity | right; eexists; eexists; reflexivity].
Qed.

(** X21. The workflow as a handler of the router. A request that does not
    contain "run q2 prioritization", in any letter case, sends nothing and
    leaves the stored result alone. One that does runs the workflow once,
    stores its result in the context, and reports it: "completed
    successfully" exactly when the result has status success, and the
    message of the failure otherwise, an empty run included. In both cases
    the handler returns the literal "END" as its next step, which is not
    the END marker the dispatcher looks for. *)
Theorem workflow_handler_reports_the_run :
  forall (session : Session) (today tomorrow : string)
         (str : Value -> string) (self : Self) (input_text : string)
         (stored : option Dict) (t : Trace),
    let handled :=
      orchestrator_agent session today tomorrow str self input_text stored t in
    let run := run_workflow session today tomorrow self t in
    result_next (fst handled) = "END" /\
    result_next (fst handled) <> END /\
    result_input (fst handled) = input_text /\
    (contains trigger (lower input_text) = false ->
     snd handled = t /\
     deal_workflow_result (fst handled) = stored /\
     message (fst handled) = unrecognized) /\
    (contains trigger (lower input_text) = true ->
     snd handled = snd run /\
     deal_workflow_result (fst handled) = Some (fst run) /\
     (get "status" (fst run) = Some (VScalar (VStr "success")) <->
      message (fst handled) = completed) /\
     (forall e,
         fst run = error_result e ->
         message (fst handled)
         = ("Q2 deal prioritization workflow failed: " ++ e)%string)).
Proof.
  intros session today tomorrow str self input_text stored t handled run.
  subst handled. unfold orchestrator_agent. fold run.
  destruct (contains trigger (lower input_text)) eqn:Etrigger.
  - destruct run as [result t'] eqn:Erun. cbn [fst snd].
    split; [reflexivity |]. split; [discriminate |]. split; [reflexivity |].
    split; [discriminate |]. intros _.
    split; [reflexivity |]. split; [reflexivity |].
    pose proof (run_workflow_shape session today tomorrow self t) as Hshape.
    fold run in Hshape. rewrite Erun in Hshape. cbn [fst] in Hshape.
    destruct Hshape as [[e ->] | [scored [sf ->]]].
    + split.
      * split; [discriminate |]. cbn. intro H. discriminate H.
      * intros e' He'. inversion He'. reflexivity.
    + split.
      * split; reflexivity.
      * intros e' He'. discriminate He'.
  - cbn [fst snd].
    split; [reflexivity |]. split; [discriminate |]. split; [reflexivity |].
    split; [| discriminate]. intros _. repeat split.
Qed.

Lemma workflow_handler_reports_the_run_witness :
  let handled :=
    deal_orchestrator_agent (stub_session Samples.agent Readings.no_rows)
      "2026-01-01" "2026-01-02" (fun _ => "")
      "Please RUN Q2 Prioritization now" None [] in
  message (fst handled)
  = "Q2 deal prioritization workflow failed: list indices must be integers or slices, not str".
Proof.
  intro handled.
  destruct (workflow_handler_reports_the_run
              (stub_session Samples.agent Readings.no_rows)
              "2026-01-01" "2026-01-02" (fun _ => "")
              (__init__ "http://localhost:8000")
              "Please RUN Q2 Prioritization now" None [])
    as (_ & _ & _ & _ & Hrun).
  destruct (Hrun eq_refl) as (_ & _ & _ & Hfailed).
  apply (Hfailed list_index_error). reflexivity.
Defined.

End HandlerProofs.
